(** * ConnectX mesh relay engine: a shallow embedding of
      [client/services/meshService.js] and of the parts of the Bluetooth and
      WiFi Direct adapters that the engine calls.

    The engine is a single JavaScript object mutated from a single-threaded
    event loop.  Every method is embedded as a state transformer over a
    [World] that holds the engine object, the two adapter singletons, and a
    log of the observable effects (events handed to [notifyListeners], sends
    handed to an adapter).  Everything the engine reads from outside
    ([Date.now()], [Math.random()], native module answers) comes from an
    environment [Env] and is universally quantified in the theorems. *)

From stdpp Require Import base option list gmap strings pretty.
From Stdlib Require Import ZArith Lia.

Local Open Scope Z_scope.

(** ** JavaScript values as the wire schema types them *)

(** An optional field of a parsed JSON object: [None] is [undefined]/[null]. *)
Class Truthy (A : Type) := truthy : A → bool.

(** A string is falsy exactly when it is absent or empty. *)
#[global] Instance truthy_string : Truthy (option string) := λ o,
  match o with
  | Some s => bool_decide (s ≠ "")
  | None => false
  end.

(** A number is falsy exactly when it is absent or zero.  Numbers are the
    integers that [Date.now()] produces (epoch milliseconds). *)
#[global] Instance truthy_number : Truthy (option Z) := λ o,
  match o with
  | Some n => bool_decide (n ≠ 0)
  | None => false
  end.

(** Opaque payloads (chat content, a location object, a peer info blob) are
    carried as their serialised text. *)
Definition Payload := string.

(** A thrown value: an [Error] the code constructs itself, or the
    [TypeError] the runtime raises when [property] of [null] is read (the
    text of its message depends on the engine). *)
Inductive JsError :=
  | Error (message : string)
  | TypeError (property : string).

(** The settled state of a promise, also used for native module answers. *)
Inductive Settled (A : Type) :=
  | Fulfilled (value : A)
  | Rejected (reason : JsError).
Arguments Fulfilled {A} value.
Arguments Rejected {A} reason.

(** ** Data model *)

(** [node.type]: the only callers of [handleNodeConnected] are the two
    adapter wirings of [initializeServices], which pass the literals
    ['bluetooth'] and ['wifiDirect']. *)
Inductive TransportKind := bluetooth | wifiDirect.

#[global] Instance TransportKind_eq_dec : EqDecision TransportKind.
Proof. solve_decision. Defined.

Record Node := {
  node_type : TransportKind;
  node_info : Payload;
  connectedAt : Z;
}.

(** The wire payload.  [msg_type] stays a string: the receiver switches on
    it and lets unknown tags fall through. *)
Record Message := {
  msg_id : option string;
  msg_type : option string;
  msg_userId : option string;
  msg_username : option string;
  msg_groupId : option string;
  msg_content : option Payload;
  msg_location : option Payload;
  msg_timestamp : option Z;
  msg_ttl : option Z;
}.

(** What the adapters hand to the engine: the value of [JSON.parse(data)],
    forwarded unchecked.  It is a message object or [null]; any other
    parsed value (a number, a string, a boolean, an array) has none of the
    fields the receiver reads and behaves as the object without fields. *)
Inductive Parsed :=
  | JsonNull
  | JsonObject (message : Message).

Coercion JsonObject : Message >-> Parsed.

Implicit Types message : Message.

(** [{ ...message, expires }] *)
Record CacheEntry := {
  entry_message : Message;
  expires : Z;
}.

(** A JavaScript [Map] iterates in insertion order and [set] on an existing
    key keeps the key's position. *)
Section JsMap.
Context {V : Type}.

Fixpoint Map_set (k : string) (v : V) (m : list (string * V)) : list (string * V) :=
  match m with
  | [] => [(k, v)]
  | (k', v') :: m' =>
      if decide (k' = k) then (k, v) :: m' else (k', v') :: Map_set k v m'
  end.

Definition Map_has (k : string) (m : list (string * V)) : bool :=
  bool_decide (k ∈ m.*1).

Definition Map_delete (k : string) (m : list (string * V)) : list (string * V) :=
  filter (λ kv, kv.1 ≠ k) m.
End JsMap.

(** The fields of [MeshService] set by its constructor.  [messageTimeout]
    and [locationUpdateInterval] are assigned there and nowhere else. *)
Definition messageTimeout : Z := 60000.
Definition locationUpdateInterval : Z := 10000.

Record MeshService := {
  nodes : list (string * Node);
  messages : gmap string CacheEntry;
  userId : option string;
  groupId : option string;
  username : option string;
  location : option Payload;
  locationUpdateTimer : bool;
}.

(** [new MeshService()] *)
Definition constructor : MeshService := {|
  nodes := [];
  messages := ∅;
  userId := None;
  groupId := None;
  username := None;
  location := None;
  locationUpdateTimer := false;
|}.

(** The adapter singletons, reduced to the fields the engine's calls read
    or write.  The adapters notify their own listener registries
    ([scanStatus], [discoveryStatus], [messageSent], [messageError]); the
    engine subscribes there to connection and message events only, so
    those notifications never reach it and are left out. *)
Record BluetoothService := {
  isScanning : bool;
  connectedDevices : gset string;
}.

Record WiFiDirectService := {
  isInitialized : bool;
  isDiscovering : bool;
  connectedPeers : gset string;
}.

(** ** Observable effects *)

(** A call [this.notifyListeners(event, data)] of the engine. *)
Inductive MeshEvent :=
  | initialized (userId username groupId : option string)
  | networkingStarted (bluetooth wifiDirect : bool)
  | networkingError (error : JsError)
  | locationUpdated (userId : option string) (location : option Payload)
  | messageSent (messageData : Message)
  | nodeConnected (type : TransportKind) (nodeId : string) (info : Payload)
  | nodeDisconnected (type : TransportKind) (nodeId : string)
  | messageReceived (nodeId : string) (message : Message)
  | locationReceived (nodeId : string) (userId : option string) (location : option Payload)
  | userInfo (nodeId : string) (userId username : option string).

(** A call [adapter.sendMessage(nodeId, message)] together with the state
    its promise settles in. *)
Record SendAttempt := {
  via : TransportKind;
  target : string;
  payload : Message;
  settled : Settled bool;
}.

(** ** Environment and world *)

Record Env := {
  (** the k-th reading of [Date.now()] *)
  Date_now : nat → Z;
  (** the k-th value of [Math.random().toString(36).substr(2, 9)] *)
  Math_random : nat → string;
  (** [Platform.OS === 'android'] *)
  Platform_android : bool;
  (** [PermissionsAndroid.requestMultiple]: the three grants *)
  requestMultiple : Settled (bool * bool * bool);
  (** [bleManager.startDeviceScan] returns or throws *)
  startDeviceScan : Settled unit;
  (** [device.writeCharacteristicWithResponseForService] *)
  writeCharacteristic : string → Settled unit;
  (** the k-th answer of [wifiDirectModule.isAvailable()] *)
  module_isAvailable : nat → Settled bool;
  module_requestPermissions : Settled bool;
  module_startDiscovery : Settled unit;
  module_sendMessage : string → Settled unit;
}.

Record World := {
  mesh : MeshService;
  bluetoothService : BluetoothService;
  wifiDirectService : WiFiDirectService;
  clockReads : nat;
  randomDraws : nat;
  availabilityQueries : nat;
  emitted : list MeshEvent;
  sendLog : list SendAttempt;
}.

Definition with_mesh (f : MeshService → MeshService) (w : World) : World :=
  {| mesh := f (mesh w);
     bluetoothService := bluetoothService w;
     wifiDirectService := wifiDirectService w;
     clockReads := clockReads w;
     randomDraws := randomDraws w;
     availabilityQueries := availabilityQueries w;
     emitted := emitted w;
     sendLog := sendLog w |}.

Definition with_bluetooth (f : BluetoothService → BluetoothService) (w : World) : World :=
  {| mesh := mesh w;
     bluetoothService := f (bluetoothService w);
     wifiDirectService := wifiDirectService w;
     clockReads := clockReads w;
     randomDraws := randomDraws w;
     availabilityQueries := availabilityQueries w;
     emitted := emitted w;
     sendLog := sendLog w |}.

Definition with_wifiDirect (f : WiFiDirectService → WiFiDirectService) (w : World) : World :=
  {| mesh := mesh w;
     bluetoothService := bluetoothService w;
     wifiDirectService := f (wifiDirectService w);
     clockReads := clockReads w;
     randomDraws := randomDraws w;
     availabilityQueries := availabilityQueries w;
     emitted := emitted w;
     sendLog := sendLog w |}.

Definition set_messages (c : gmap string CacheEntry) (this : MeshService) : MeshService :=
  {| nodes := nodes this; messages := c; userId := userId this;
     groupId := groupId this; username := username this;
     location := location this; locationUpdateTimer := locationUpdateTimer this |}.

Definition set_nodes (n : list (string * Node)) (this : MeshService) : MeshService :=
  {| nodes := n; messages := messages this; userId := userId this;
     groupId := groupId this; username := username this;
     location := location this; locationUpdateTimer := locationUpdateTimer this |}.

Definition set_location (l : option Payload) (this : MeshService) : MeshService :=
  {| nodes := nodes this; messages := messages this; userId := userId this;
     groupId := groupId this; username := username this;
     location := l; locationUpdateTimer := locationUpdateTimer this |}.

Definition set_isScanning (b : bool) (bt : BluetoothService) : BluetoothService :=
  {| isScanning := b; connectedDevices := connectedDevices bt |}.

Definition set_isDiscovering (b : bool) (wd : WiFiDirectService) : WiFiDirectService :=
  {| isInitialized := isInitialized wd; isDiscovering := b;
     connectedPeers := connectedPeers wd |}.

(** ** The effect monad: state passing with exceptions *)

Inductive Completion (A : Type) :=
  | Normal (value : A)
  | Throw (error : JsError).
Arguments Normal {A} value.
Arguments Throw {A} error.

Definition M (A : Type) : Type := World → Completion A * World.

Definition ret {A} (a : A) : M A := λ w, (Normal a, w).

Definition bind {A B} (c : M A) (k : A → M B) : M B := λ w,
  match c w with
  | (Normal a, w') => k a w'
  | (Throw e, w') => (Throw e, w')
  end.

Definition throw {A} (e : JsError) : M A := λ w, (Throw e, w).

(** [try { body } catch (error) { handler }] *)
Definition try_catch {A} (body : M A) (handler : JsError → M A) : M A := λ w,
  match body w with
  | (Normal a, w') => (Normal a, w')
  | (Throw e, w') => handler e w'
  end.

Notation "x <- c ;; k" := (bind c (λ x, k))
  (at level 100, c at next level, right associativity).
Notation "c ;; k" := (bind c (λ _, k))
  (at level 100, right associativity).

Definition this_ : M MeshService := λ w, (Normal (mesh w), w).
Definition update (f : MeshService → MeshService) : M unit :=
  λ w, (Normal tt, with_mesh f w).

(** [if (c) { body }] *)
Definition when (c : bool) (body : M unit) : M unit :=
  if c then body else ret tt.

(** [m.forEach((v, k) => body)] over a [Map] in insertion order. *)
Fixpoint forEach {V} (m : list (string * V)) (body : V → string → M unit) : M unit :=
  match m with
  | [] => ret tt
  | (k, v) :: m' => body v k ;; forEach m' body
  end.

(** [await p]: a rejected promise resumes as a thrown exception. *)
Definition await {A} (p : Settled A) : M A :=
  match p with
  | Fulfilled a => ret a
  | Rejected e => throw e
  end.

(** Calling an [async] function without awaiting it: the body runs up to
    its completion, and the caller receives a promise, never an exception. *)
Definition promise_of {A} (body : M A) : M (Settled A) := λ w,
  match body w with
  | (Normal a, w') => (Normal (Fulfilled a), w')
  | (Throw e, w') => (Normal (Rejected e), w')
  end.

(** [this.notifyListeners(event, data)].  The registered callbacks are
    application code that does not call back into the engine; the call is
    recorded as the emission of the event. *)
Definition notifyListeners (e : MeshEvent) : M unit := λ w,
  (Normal tt,
   {| mesh := mesh w;
      bluetoothService := bluetoothService w;
      wifiDirectService := wifiDirectService w;
      clockReads := clockReads w;
      randomDraws := randomDraws w;
      availabilityQueries := availabilityQueries w;
      emitted := emitted w ++ [e];
      sendLog := sendLog w |}).

Definition record_send (a : SendAttempt) : M unit := λ w,
  (Normal tt,
   {| mesh := mesh w;
      bluetoothService := bluetoothService w;
      wifiDirectService := wifiDirectService w;
      clockReads := clockReads w;
      randomDraws := randomDraws w;
      availabilityQueries := availabilityQueries w;
      emitted := emitted w;
      sendLog := sendLog w ++ [a] |}).

(** [`${this.userId}`] *)
Definition toString (o : option string) : string := default "null" o.

Section Engine.
Variable env : Env.

(** [Date.now()] *)
Definition DateNow : M Z := λ w,
  (Normal (Date_now env (clockReads w)),
   {| mesh := mesh w;
      bluetoothService := bluetoothService w;
      wifiDirectService := wifiDirectService w;
      clockReads := S (clockReads w);
      randomDraws := randomDraws w;
      availabilityQueries := availabilityQueries w;
      emitted := emitted w;
      sendLog := sendLog w |}).

(** [Math.random().toString(36).substr(2, 9)] *)
Definition randomSuffix : M string := λ w,
  (Normal (Math_random env (randomDraws w)),
   {| mesh := mesh w;
      bluetoothService := bluetoothService w;
      wifiDirectService := wifiDirectService w;
      clockReads := clockReads w;
      randomDraws := S (randomDraws w);
      availabilityQueries := availabilityQueries w;
      emitted := emitted w;
      sendLog := sendLog w |}).

(** [await this.wifiDirectModule.isAvailable()] *)
Definition native_isAvailable : M bool := λ w,
  await (module_isAvailable env (availabilityQueries w))
    {| mesh := mesh w;
       bluetoothService := bluetoothService w;
       wifiDirectService := wifiDirectService w;
       clockReads := clockReads w;
       randomDraws := randomDraws w;
       availabilityQueries := S (availabilityQueries w);
       emitted := emitted w;
       sendLog := sendLog w |}.

(** *** Bluetooth adapter *)

(** [bluetoothService.sendMessage(deviceId, message)] *)
Definition bluetooth_sendMessage (deviceId : string) (message : Message)
  : M (Settled bool) :=
  p <- promise_of
    (try_catch
       (λ w,
          (if bool_decide (deviceId ∈ connectedDevices (bluetoothService w))
           then (await (writeCharacteristic env deviceId) ;; ret true)
           else throw (Error "Device not connected")) w)
       (λ error, throw error)) ;;
  record_send {| via := bluetooth; target := deviceId;
                 payload := message; settled := p |} ;;
  ret p.

(** [bluetoothService.requestPermissions()] *)
Definition bluetooth_requestPermissions : M bool :=
  if Platform_android env then
    granted <- await (requestMultiple env) ;;
    ret (granted.1.1 && granted.1.2 && granted.2)
  else ret true.

(** [bluetoothService.startScan()]: every failure is caught inside. *)
Definition bluetooth_startScan : M unit :=
  try_catch
    (hasPermission <- bluetooth_requestPermissions ;;
     if negb hasPermission then throw (Error "Bluetooth permissions not granted")
     else λ w,
       (if isScanning (bluetoothService w) then ret tt
        else
          (λ w, (Normal tt, with_bluetooth (set_isScanning true) w)) ;;
          await (startDeviceScan env)) w)
    (λ error w, (Normal tt, with_bluetooth (set_isScanning false) w)).

(** *** WiFi Direct adapter *)

(** [wifiDirectService.isAvailable()] *)
Definition wifiDirect_isAvailable : M bool := λ w,
  (if negb (isInitialized (wifiDirectService w)) then ret false
   else try_catch native_isAvailable (λ error, ret false)) w.

(** [wifiDirectService.requestPermissions()] *)
Definition wifiDirect_requestPermissions : M bool := λ w,
  (if negb (isInitialized (wifiDirectService w)) then ret false
   else try_catch (await (module_requestPermissions env)) (λ error, ret false)) w.

(** [wifiDirectService.startDiscovery()] *)
Definition wifiDirect_startDiscovery : M bool := λ w,
  (if negb (isInitialized (wifiDirectService w))
   then throw (Error "WiFi Direct not initialized")
   else
     try_catch
       (available <- wifiDirect_isAvailable ;;
        if negb available then throw (Error "WiFi Direct not available")
        else
          hasPermissions <- wifiDirect_requestPermissions ;;
          if negb hasPermissions
          then throw (Error "WiFi Direct permissions not granted")
          else
            await (module_startDiscovery env) ;;
            (λ w, (Normal tt, with_wifiDirect (set_isDiscovering true) w)) ;;
            ret true)
       (λ error,
          (λ w, (Normal tt, with_wifiDirect (set_isDiscovering false) w)) ;;
          throw error)) w.

(** [wifiDirectService.sendMessage(deviceAddress, message)] *)
Definition wifiDirect_sendMessage (deviceAddress : string) (message : Message)
  : M (Settled bool) :=
  p <- promise_of
    (λ w,
       (if negb (isInitialized (wifiDirectService w))
        then throw (Error "WiFi Direct not initialized")
        else if negb (bool_decide (deviceAddress ∈ connectedPeers (wifiDirectService w)))
        then throw (Error "Peer not connected")
        else
          try_catch
            (await (module_sendMessage env deviceAddress) ;; ret true)
            (λ error, throw error)) w) ;;
  record_send {| via := wifiDirect; target := deviceAddress;
                 payload := message; settled := p |} ;;
  ret p.

(** *** Mesh engine *)

Definition identitySet (this : MeshService) : bool :=
  truthy (userId this) && truthy (groupId this).

(** [this.messages.has(key)] and [this.messages.set(key, value)]; the
    cache is keyed by strings, so an absent id names no entry. *)
Definition messages_has (key : option string) (this : MeshService) : bool :=
  match key with
  | Some i => bool_decide (is_Some (messages this !! i))
  | None => false
  end.

Definition messages_set (key : option string) (value : CacheEntry)
    (this : MeshService) : MeshService :=
  match key with
  | Some i => set_messages (<[i := value]> (messages this)) this
  | None => this
  end.

(** [initialize(userId, username, groupId)] *)
Definition initialize (userId' username' groupId' : option string) : M bool :=
  update (λ this,
    {| nodes := []; messages := ∅;
       userId := userId'; groupId := groupId'; username := username';
       location := location this; locationUpdateTimer := true |}) ;;
  notifyListeners (initialized userId' username' groupId') ;;
  ret true.

(** [broadcastMessage(message)], up to its [await Promise.allSettled]. *)
Definition broadcastMessage (message : Message) : M unit :=
  this <- this_ ;;
  if negb (truthy (userId this)) || negb (truthy (groupId this)) then ret tt
  else
    when (truthy (msg_id message) && negb (messages_has (msg_id message) this))
      (now <- DateNow ;;
       update (messages_set (msg_id message)
                 {| entry_message := message;
                    expires := now + messageTimeout |})) ;;
    forEach (nodes this) (λ node nodeId,
      when (bool_decide (node_type node = bluetooth))
        (bluetooth_sendMessage nodeId message ;; ret tt)) ;;
    forEach (nodes this) (λ node nodeId,
      when (bool_decide (node_type node = wifiDirect))
        (wifiDirect_sendMessage nodeId message ;; ret tt)) ;;
    ret tt.

(** [sendMessage(message)] *)
Definition sendMessage (message : Payload) : M string :=
  this <- this_ ;;
  if negb (truthy (userId this)) || negb (truthy (groupId this))
  then throw (Error "Mesh network not initialized")
  else
    t0 <- DateNow ;;
    r <- randomSuffix ;;
    t1 <- DateNow ;;
    let id := toString (userId this) +:+ "-" +:+ pretty t0 +:+ "-" +:+ r in
    let messageData :=
      {| msg_id := Some id;
         msg_type := Some "message";
         msg_userId := userId this;
         msg_username := username this;
         msg_groupId := groupId this;
         msg_content := Some message;
         msg_location := None;
         msg_timestamp := Some t1;
         msg_ttl := Some messageTimeout |} in
    t2 <- DateNow ;;
    update (messages_set (msg_id messageData)
              {| entry_message := messageData;
                 expires := t2 + messageTimeout |}) ;;
    broadcastMessage messageData ;;
    notifyListeners (messageSent messageData) ;;
    ret id.

(** [updateLocation(location)] *)
Definition updateLocation (location' : option Payload) : M unit :=
  update (set_location location') ;;
  this <- this_ ;;
  now <- DateNow ;;
  broadcastMessage
    {| msg_id := None;
       msg_type := Some "location";
       msg_userId := userId this;
       msg_username := username this;
       msg_groupId := groupId this;
       msg_content := None;
       msg_location := location';
       msg_timestamp := Some now;
       msg_ttl := None |} ;;
  notifyListeners (locationUpdated (userId this) location').

(** The two-way branch on [type] that follows every greeting. *)
Definition sendVia (type : TransportKind) (nodeId : string) (message : Message)
  : M unit :=
  match type with
  | bluetooth => bluetooth_sendMessage nodeId message ;; ret tt
  | wifiDirect => wifiDirect_sendMessage nodeId message ;; ret tt
  end.

(** [handleNodeConnected(type, nodeId, info)] *)
Definition handleNodeConnected (type : TransportKind) (nodeId : string)
    (info : Payload) : M unit :=
  now <- DateNow ;;
  update (λ this,
    set_nodes (Map_set nodeId
                 {| node_type := type; node_info := info; connectedAt := now |}
                 (nodes this)) this) ;;
  notifyListeners (nodeConnected type nodeId info) ;;
  this <- this_ ;;
  when (truthy (userId this) && truthy (groupId this))
    (t0 <- DateNow ;;
     sendVia type nodeId
       {| msg_id := None;
          msg_type := Some "user";
          msg_userId := userId this;
          msg_username := username this;
          msg_groupId := groupId this;
          msg_content := None;
          msg_location := None;
          msg_timestamp := Some t0;
          msg_ttl := None |} ;;
     when (truthy (location this))
       (t1 <- DateNow ;;
        sendVia type nodeId
          {| msg_id := None;
             msg_type := Some "location";
             msg_userId := userId this;
             msg_username := username this;
             msg_groupId := groupId this;
             msg_content := None;
             msg_location := location this;
             msg_timestamp := Some t1;
             msg_ttl := None |})).

(** [handleNodeDisconnected(type, nodeId)] *)
Definition handleNodeDisconnected (type : TransportKind) (nodeId : string)
  : M unit :=
  this <- this_ ;;
  when (Map_has nodeId (nodes this))
    (update (λ this, set_nodes (Map_delete nodeId (nodes this)) this) ;;
     notifyListeners (nodeDisconnected type nodeId)).

(** The [switch (message.type)] of the receiver: the cases are tried in
    order with strict equality, and there is no default case. *)
Definition dispatch (nodeId : string) (message : Message) : M unit :=
  if bool_decide (msg_type message = Some "message") then
    notifyListeners (messageReceived nodeId message)
  else if bool_decide (msg_type message = Some "location") then
    notifyListeners
      (locationReceived nodeId (msg_userId message) (msg_location message))
  else if bool_decide (msg_type message = Some "user") then
    notifyListeners
      (userInfo nodeId (msg_userId message) (msg_username message))
  else ret tt.

(** [message.ttl && message.timestamp && (Date.now() - message.timestamp
    < message.ttl)]: the clock is read only when both fields are truthy. *)
Definition relayCondition (message : Message) : M bool :=
  if truthy (msg_ttl message) && truthy (msg_timestamp message) then
    now <- DateNow ;;
    ret (bool_decide (now - default 0 (msg_timestamp message)
                      < default 0 (msg_ttl message)))
  else ret false.

(** [handleMessageReceived(type, nodeId, message)] *)
Definition handleMessageReceived (type : TransportKind) (nodeId : string)
    (message : Parsed) : M unit :=
  this <- this_ ;;
  if negb (truthy (userId this)) || negb (truthy (groupId this)) then ret tt
  else
    match message with
    | JsonNull =>
        throw (TypeError "groupId")
    | JsonObject message =>
        if truthy (msg_groupId message)
           && bool_decide (msg_groupId message ≠ groupId this) then ret tt
        else if truthy (msg_id message) && messages_has (msg_id message) this
        then ret tt
        else
          when (truthy (msg_id message))
            (now <- DateNow ;;
             update (messages_set (msg_id message)
                       {| entry_message := message;
                          expires := now + messageTimeout |})) ;;
          dispatch nodeId message ;;
          relay <- relayCondition message ;;
          when relay (broadcastMessage message)
    end.

(** [cleanupMessages()] *)
Definition cleanupMessages : M unit :=
  now <- DateNow ;;
  update (λ this,
    set_messages
      (filter (λ kv, ¬ (expires kv.2 ≠ 0 ∧ expires kv.2 < now)) (messages this))
      this).

(** [startNetworking()] *)
Definition startNetworking : M bool :=
  try_catch
    (bluetooth_startScan ;;
     wifiDirectAvailable <- wifiDirect_isAvailable ;;
     when wifiDirectAvailable (wifiDirect_startDiscovery ;; ret tt) ;;
     notifyListeners (networkingStarted true wifiDirectAvailable) ;;
     ret true)
    (λ error,
       notifyListeners (networkingError error) ;;
       ret false).

End Engine.

(** ** Vocabulary of the specifications *)

Definition run {A} (c : M A) (w : World) : World := (c w).2.

(** Worlds that differ from [w] by one more clock reading, by appended
    events, by appended sends, or by one more availability query. *)
Definition log_time (w : World) : World :=
  {| mesh := mesh w;
     bluetoothService := bluetoothService w;
     wifiDirectService := wifiDirectService w;
     clockReads := S (clockReads w);
     randomDraws := randomDraws w;
     availabilityQueries := availabilityQueries w;
     emitted := emitted w;
     sendLog := sendLog w |}.

Definition log_events (l : list MeshEvent) (w : World) : World :=
  {| mesh := mesh w;
     bluetoothService := bluetoothService w;
     wifiDirectService := wifiDirectService w;
     clockReads := clockReads w;
     randomDraws := randomDraws w;
     availabilityQueries := availabilityQueries w;
     emitted := emitted w ++ l;
     sendLog := sendLog w |}.

Definition log_sends (l : list SendAttempt) (w : World) : World :=
  {| mesh := mesh w;
     bluetoothService := bluetoothService w;
     wifiDirectService := wifiDirectService w;
     clockReads := clockReads w;
     randomDraws := randomDraws w;
     availabilityQueries := availabilityQueries w;
     emitted := emitted w;
     sendLog := sendLog w ++ l |}.

Definition log_query (w : World) : World :=
  {| mesh := mesh w;
     bluetoothService := bluetoothService w;
     wifiDirectService := wifiDirectService w;
     clockReads := clockReads w;
     randomDraws := randomDraws w;
     availabilityQueries := S (availabilityQueries w);
     emitted := emitted w;
     sendLog := sendLog w |}.

(** Whom a send attempt addresses, and how a registered node is reached. *)
Definition addressee (a : SendAttempt) : TransportKind * string := (via a, target a).
Definition reached (kv : string * Node) : TransportKind * string := (node_type kv.2, kv.1).

(** The registry in the order [broadcastMessage] walks it: the Bluetooth
    nodes, then the WiFi Direct nodes. *)
Definition fanoutOrder (ns : list (string * Node)) : list (string * Node) :=
  filter (λ kv, node_type kv.2 = bluetooth) ns
  ++ filter (λ kv, node_type kv.2 = wifiDirect) ns.

(** One of the two [forEach] loops of [broadcastMessage]. *)
Definition fanout_loop (env : Env) (k : TransportKind) (message : Message)
    (ns : list (string * Node)) : M unit :=
  forEach ns (λ node nodeId,
    when (bool_decide (node_type node = k))
      (match k with
       | bluetooth => bluetooth_sendMessage env nodeId message ;; ret tt
       | wifiDirect => wifiDirect_sendMessage env nodeId message ;; ret tt
       end)).

(** The events a received message of a given kind is delivered as. *)
Definition delivery (nodeId : string) (message : Message) : list MeshEvent :=
  if bool_decide (msg_type message = Some "message") then
    [messageReceived nodeId message]
  else if bool_decide (msg_type message = Some "location") then
    [locationReceived nodeId (msg_userId message) (msg_location message)]
  else if bool_decide (msg_type message = Some "user") then
    [userInfo nodeId (msg_userId message) (msg_username message)]
  else [].


(** The group test of the receiver lets a message through when it carries
    no group id, an empty one, or the active one. *)
Definition passesGroupCheck (message : Message) (this : MeshService) : bool :=
  negb (truthy (msg_groupId message)
        && bool_decide (msg_groupId message ≠ groupId this)).

(** A received message gets past the three early returns. *)
Definition accepts (message : Message) (this : MeshService) : bool :=
  identitySet this
  && passesGroupCheck message this
  && negb (truthy (msg_id message) && messages_has (msg_id message) this).

(** The world after the receiver's cache step. *)
Definition cached (env : Env) (message : Message) (w : World) : World :=
  if truthy (msg_id message) then
    with_mesh (messages_set (msg_id message)
                 {| entry_message := message;
                    expires := Date_now env (clockReads w) + messageTimeout |})
              (log_time w)
  else w.

(** The reading of [Date.now()] that the relay test of
    [handleMessageReceived] compares against: the second reading of the
    call when the cache step took one, the first otherwise. *)
Definition relayNow (env : Env) (message : Message) (w : World) : Z :=
  Date_now env (if truthy (msg_id message) then S (clockReads w) else clockReads w).

Definition relays (env : Env) (message : Message) (w : World) : bool :=
  truthy (msg_ttl message) && truthy (msg_timestamp message)
  && bool_decide (relayNow env message w - default 0 (msg_timestamp message)
                  < default 0 (msg_ttl message)).

(** What [wifiDirectService.isAvailable()] answers in [w]. *)
Definition wifiDirectReportsAvailable (env : Env) (w : World) : bool :=
  isInitialized (wifiDirectService w)
  && match module_isAvailable env (availabilityQueries w) with
     | Fulfilled b => b
     | Rejected _ => false
     end.

(** Whether [wifiDirectService.startDiscovery()] gets through its second
    availability query, its permission request and the native call. *)
Definition discoveryStarts (env : Env) (w : World) : bool :=
  match module_isAvailable env (S (availabilityQueries w)),
        module_requestPermissions env,
        module_startDiscovery env with
  | Fulfilled true, Fulfilled true, Fulfilled _ => true
  | _, _, _ => false
  end.

(** Whether [bluetoothService.startScan()] leaves the adapter scanning. *)
Definition scanStarts (env : Env) (w : World) : bool :=
  match (if Platform_android env then requestMultiple env
         else Fulfilled (true, true, true)) with
  | Fulfilled (a, b, c) =>
      a && b && c
      && (isScanning (bluetoothService w)
          || match startDeviceScan env with Fulfilled _ => true | Rejected _ => false end)
  | Rejected _ => false
  end.

(** ** A concrete session

    The scenario of the specification: the engine is initialised as user
    [u1] of group [g1], then one node connects over each transport. *)

Definition demoEnv : Env := {|
  Date_now := λ k, 1000 + Z.of_nat k;
  Math_random := λ _, "k3j9x0q1z";
  Platform_android := true;
  requestMultiple := Fulfilled (true, true, true);
  startDeviceScan := Fulfilled tt;
  writeCharacteristic := λ _, Rejected (Error "write failed");
  module_isAvailable := λ _, Fulfilled true;
  module_requestPermissions := Fulfilled false;
  module_startDiscovery := Fulfilled tt;
  module_sendMessage := λ _, Fulfilled tt;
|}.

(** The same environment within one millisecond: every reading of the
    clock is the same, and so is every random suffix. *)
Definition frozenEnv : Env := {|
  Date_now := λ _, 1000;
  Math_random := Math_random demoEnv;
  Platform_android := Platform_android demoEnv;
  requestMultiple := requestMultiple demoEnv;
  startDeviceScan := startDeviceScan demoEnv;
  writeCharacteristic := writeCharacteristic demoEnv;
  module_isAvailable := module_isAvailable demoEnv;
  module_requestPermissions := module_requestPermissions demoEnv;
  module_startDiscovery := module_startDiscovery demoEnv;
  module_sendMessage := module_sendMessage demoEnv;
|}.

Definition boot : World := {|
  mesh := constructor;
  bluetoothService := {| isScanning := false; connectedDevices := {["n1"]} |};
  wifiDirectService :=
    {| isInitialized := true; isDiscovering := false; connectedPeers := {["n2"]} |};
  clockReads := 0;
  randomDraws := 0;
  availabilityQueries := 0;
  emitted := [];
  sendLog := [];
|}.

Definition session : World :=
  run (handleNodeConnected demoEnv wifiDirect "n2" "{}")
    (run (handleNodeConnected demoEnv bluetooth "n1" "{}")
       (run (initialize (Some "u1") (Some "Alice") (Some "g1")) boot)).

(** [{id: "m1", type: "message", groupId: "g1", timestamp: 900, ttl: 5000}] *)
Definition chat_m1 : Message := {|
  msg_id := Some "m1";
  msg_type := Some "message";
  msg_userId := Some "u2";
  msg_username := Some "Bob";
  msg_groupId := Some "g1";
  msg_content := Some "hello";
  msg_location := None;
  msg_timestamp := Some 900;
  msg_ttl := Some 5000;
|}.

Definition with_groupId (g : option string) (m : Message) : Message :=
  {| msg_id := msg_id m; msg_type := msg_type m; msg_userId := msg_userId m;
     msg_username := msg_username m; msg_groupId := g;
     msg_content := msg_content m; msg_location := msg_location m;
     msg_timestamp := msg_timestamp m; msg_ttl := msg_ttl m |}.

Definition with_type (t : option string) (m : Message) : Message :=
  {| msg_id := msg_id m; msg_type := t; msg_userId := msg_userId m;
     msg_username := msg_username m; msg_groupId := msg_groupId m;
     msg_content := msg_content m; msg_location := msg_location m;
     msg_timestamp := msg_timestamp m; msg_ttl := msg_ttl m |}.

Definition with_ttl (t : option Z) (m : Message) : Message :=
  {| msg_id := msg_id m; msg_type := msg_type m; msg_userId := msg_userId m;
     msg_username := msg_username m; msg_groupId := msg_groupId m;
     msg_content := msg_content m; msg_location := msg_location m;
     msg_timestamp := msg_timestamp m; msg_ttl := t |}.

(** ** The node registry, read

    [this.nodes.get(k)], used to state what the registry holds. *)

(** [m.get(k)] *)
Fixpoint Map_get {V} (k : string) (m : list (string * V)) : option V :=
  match m with
  | [] => None
  | (k', v) :: m' => if decide (k' = k) then Some v else Map_get k m'
  end.

(** ** Messages the engine originates *)

(** The presence message of a greeting, stamped [t]. *)
Definition userInfoMessage (this : MeshService) (t : Z) : Message :=
  {| msg_id := None;
     msg_type := Some "user";
     msg_userId := userId this;
     msg_username := username this;
     msg_groupId := groupId this;
     msg_content := None;
     msg_location := None;
     msg_timestamp := Some t;
     msg_ttl := None |}.

(** The location message of a greeting or of [updateLocation], stamped [t]. *)
Definition locationMessage (this : MeshService) (loc : option Payload) (t : Z) : Message :=
  {| msg_id := None;
     msg_type := Some "location";
     msg_userId := userId this;
     msg_username := username this;
     msg_groupId := groupId this;
     msg_content := None;
     msg_location := loc;
     msg_timestamp := Some t;
     msg_ttl := None |}.

(** The message [sendMessage] builds from the readings of one call. *)
Definition chatMessage (env : Env) (content : Payload) (w : World) : Message :=
  {| msg_id :=
       Some (toString (userId (mesh w)) +:+ "-"
             +:+ pretty (Date_now env (clockReads w)) +:+ "-"
             +:+ Math_random env (randomDraws w));
     msg_type := Some "message";
     msg_userId := userId (mesh w);
     msg_username := username (mesh w);
     msg_groupId := groupId (mesh w);
     msg_content := Some content;
     msg_location := None;
     msg_timestamp := Some (Date_now env (S (clockReads w)));
     msg_ttl := Some messageTimeout |}.

(** ** Adapter events and the worlds they lead to *)

Definition set_connectedPeers (s : gset string) (wd : WiFiDirectService)
  : WiFiDirectService :=
  {| isInitialized := isInitialized wd; isDiscovering := isDiscovering wd;
     connectedPeers := s |}.

(** The ['onConnectionChanged'] handler of [setupEventListeners], followed
    by the engine listener that [initializeServices] registers for the
    event it emits ([peerConnected] or [peerDisconnected]). *)
Definition wifiDirect_onConnectionChanged (env : Env) (deviceAddress : string)
    (connected : bool) (info : Payload) : M unit :=
  if connected then
    (λ w, (Normal tt,
           with_wifiDirect
             (λ wd, set_connectedPeers ({[deviceAddress]} ∪ connectedPeers wd) wd) w)) ;;
    handleNodeConnected env wifiDirect deviceAddress info
  else
    (λ w, (Normal tt,
           with_wifiDirect
             (λ wd, set_connectedPeers (connectedPeers wd ∖ {[deviceAddress]}) wd) w)) ;;
    handleNodeDisconnected wifiDirect deviceAddress.

Definition set_connectedDevices (s : gset string) (bt : BluetoothService)
  : BluetoothService :=
  {| isScanning := isScanning bt; connectedDevices := s |}.

(** The end of [bluetoothService.connectToDevice(deviceId)] once the BLE
    manager has answered with a device whose [id] is [device_id]: the
    adapter records the connection and the engine listener of
    ['deviceConnected'] runs. *)
Definition bluetooth_onDeviceConnected (env : Env) (deviceId device_id : string)
    (device : Payload) : M unit :=
  (λ w, (Normal tt,
         with_bluetooth
           (λ bt, set_connectedDevices ({[deviceId]} ∪ connectedDevices bt) bt) w)) ;;
  handleNodeConnected env bluetooth device_id device.

(** The end of [bluetoothService.disconnectDevice(deviceId)] once the
    connection is cancelled, with the engine listener of
    ['deviceDisconnected']. *)
Definition bluetooth_onDeviceDisconnected (deviceId : string) : M unit :=
  (λ w, (Normal tt,
         with_bluetooth
           (λ bt, set_connectedDevices (connectedDevices bt ∖ {[deviceId]}) bt) w)) ;;
  handleNodeDisconnected bluetooth deviceId.

(** [bluetoothService.stopScan()], which the timer of [startScan] calls. *)
Definition bluetooth_stopScan : M unit :=
  λ w, (if isScanning (bluetoothService w)
        then (λ w, (Normal tt, with_bluetooth (set_isScanning false) w))
        else ret tt) w.

(** [wifiDirectService.stopDiscovery()], which the timer of
    [startDiscovery] calls; [stopped] is the answer of
    [wifiDirectModule.stopDiscovery()]. *)
Definition wifiDirect_stopDiscovery (stopped : Settled unit) : M unit :=
  λ w, (if negb (isInitialized (wifiDirectService w))
           || negb (isDiscovering (wifiDirectService w))
        then ret tt
        else
          try_catch
            (await stopped ;;
             (λ w, (Normal tt, with_wifiDirect (set_isDiscovering false) w)))
            (λ error, ret tt)) w.

(** What can happen to a running engine, from the construction of the
    singletons until [stopNetworking] or [cleanup] is called: calls of its
    public methods, the timers of the adapters, and adapter events
    delivered through the listeners of [initializeServices]. *)
Inductive Stimulus :=
  | CallInitialize (userId username groupId : option string)
  | CallStartNetworking
  | CallSendMessage (content : Payload)
  | CallUpdateLocation (location : option Payload)
  | CallCleanupMessages
  | BluetoothStopScan
  | BluetoothDeviceConnected (deviceId device_id : string) (device : Payload)
  | BluetoothDeviceDisconnected (deviceId : string)
  | BluetoothMessageReceived (deviceId : string) (message : Parsed)
  | WifiStopDiscovery (stopped : Settled unit)
  | WifiConnectionChanged (deviceAddress : string) (connected : bool) (info : Payload)
  | WifiMessageReceived (deviceAddress : string) (message : Parsed).

Definition react (env : Env) (s : Stimulus) : World → World :=
  match s with
  | CallInitialize u n g => run (initialize u n g)
  | CallStartNetworking => run (startNetworking env)
  | CallSendMessage content => run (sendMessage env content)
  | CallUpdateLocation loc => run (updateLocation env loc)
  | CallCleanupMessages => run (cleanupMessages env)
  | BluetoothStopScan => run bluetooth_stopScan
  | BluetoothDeviceConnected deviceId device_id device =>
      run (bluetooth_onDeviceConnected env deviceId device_id device)
  | BluetoothDeviceDisconnected deviceId =>
      run (bluetooth_onDeviceDisconnected deviceId)
  | BluetoothMessageReceived deviceId message =>
      run (handleMessageReceived env bluetooth deviceId message)
  | WifiStopDiscovery stopped => run (wifiDirect_stopDiscovery stopped)
  | WifiConnectionChanged deviceAddress connected info =>
      run (wifiDirect_onConnectionChanged env deviceAddress connected info)
  | WifiMessageReceived deviceAddress message =>
      run (handleMessageReceived env wifiDirect deviceAddress message)
  end.

(** WiFi Direct events exist only when the native module does: the
    handlers are installed by the constructor under [isInitialized]. *)
Definition enabled (s : Stimulus) (w : World) : Prop :=
  match s with
  | WifiConnectionChanged _ _ _ | WifiMessageReceived _ _ =>
      isInitialized (wifiDirectService w) = true
  | _ => True
  end.

(** The world when the three singletons have just been constructed. *)
Definition startup (wifiModule : bool) : World := {|
  mesh := constructor;
  bluetoothService := {| isScanning := false; connectedDevices := ∅ |};
  wifiDirectService :=
    {| isInitialized := wifiModule; isDiscovering := false; connectedPeers := ∅ |};
  clockReads := 0;
  randomDraws := 0;
  availabilityQueries := 0;
  emitted := [];
  sendLog := [];
|}.

Inductive reachable (env : Env) : World → Prop :=
  | reachable_startup wifiModule : reachable env (startup wifiModule)
  | reachable_step w s :
      reachable env w → enabled s w → reachable env (react env s w).

(** Every cache entry sits under the identifier of its own message. *)
Definition cacheKeyed (this : MeshService) : Prop :=
  ∀ i e, messages this !! i = Some e →
         msg_id (entry_message e) = Some i ∧ i ≠ "".

(** Every WiFi Direct node of the registry is a connected peer of the
    adapter. *)
Definition wifiNodesConnected (w : World) : Prop :=
  ∀ nodeId node,
    Map_get nodeId (nodes (mesh w)) = Some node → node_type node = wifiDirect →
    isInitialized (wifiDirectService w) = true
    ∧ nodeId ∈ connectedPeers (wifiDirectService w).


(** ** Frames *)

(** A computation that leaves some observation [f] of the world alone,
    however it completes. *)
Definition keeps {X A} (f : World → X) (c : M A) : Prop :=
  ∀ w, f (c w).2 = f w.

(** An observation that depends on the three singletons only, not on the
    logs or on how often the oracles were consulted. *)
Definition durable {X} (f : World → X) : Prop :=
  ∀ w w',
    mesh w = mesh w' →
    bluetoothService w = bluetoothService w' →
    wifiDirectService w = wifiDirectService w' →
    f w = f w'.

Definition adapters (w : World) : BluetoothService * WiFiDirectService :=
  (bluetoothService w, wifiDirectService w).

Definition registry (w : World) : list (string * Node) := nodes (mesh w).

(** How the promise of a WiFi Direct send settles once the adapter has let
    it through to [wifiDirectModule.sendMessage]. *)
Definition moduleOutcome (env : Env) (deviceAddress : string) : Settled bool :=
  match module_sendMessage env deviceAddress with
  | Fulfilled _ => Fulfilled true
  | Rejected e => Rejected e
  end.

(** ** A run from startup

    The engine of the concrete session, driven this time from the
    construction of the singletons: it is initialised as user [u1] of
    group [g1], then a Bluetooth device and a WiFi Direct peer connect. *)
Definition demoRun : World :=
  react demoEnv (WifiConnectionChanged "n2" true "{}")
    (react demoEnv (BluetoothDeviceConnected "n1" "n1" "{}")
       (react demoEnv (CallInitialize (Some "u1") (Some "Alice") (Some "g1"))
          (startup true))).

(** [{type: "message", groupId: "g1"}], a message without an id. *)
Definition chat_anonymous : Message := {|
  msg_id := None;
  msg_type := Some "message";
  msg_userId := Some "u2";
  msg_username := Some "Bob";
  msg_groupId := Some "g1";
  msg_content := Some "hello";
  msg_location := None;
  msg_timestamp := Some 900;
  msg_ttl := None;
|}.

(** ** The listener registry of [MeshService]

    [this.listeners] is a [Map] from event names to [Set]s of callbacks.
    A callback is a JavaScript function object, compared by identity: it
    is modelled by a number.  A [Set] iterates in insertion order and
    holds no element twice.  What a callback does when called is given by
    the environment; it may throw, and it does not touch the registry. *)
Module ListenerRegistry.

Definition Callback := nat.

(** [s.add(cb)] and [s.delete(cb)] on a [Set] *)
Definition Set_add (cb : Callback) (s : list Callback) : list Callback :=
  if bool_decide (cb ∈ s) then s else s ++ [cb].

Definition Set_delete (cb : Callback) (s : list Callback) : list Callback :=
  filter (λ c, c ≠ cb) s.

Abbreviation Listeners := (gmap string (list Callback)).

(** One call [callback(data)] and how it completed. *)
Record Invocation (D : Type) := {
  callee : Callback;
  argument : D;
  completion : Completion unit;
}.
Arguments callee {D} _.
Arguments argument {D} _.
Arguments completion {D} _.

(** Computations that call callbacks: the calls made so far are threaded
    through, and an exception ends the computation unless it is caught. *)
Definition Calls (D A : Type) : Type :=
  list (Invocation D) → Completion A * list (Invocation D).

Definition calls_ret {D A} (a : A) : Calls D A := λ log, (Normal a, log).

Definition calls_bind {D A B} (c : Calls D A) (k : A → Calls D B) : Calls D B :=
  λ log,
    match c log with
    | (Normal a, log') => k a log'
    | (Throw e, log') => (Throw e, log')
    end.

Definition calls_try {D A} (body : Calls D A) (handler : JsError → Calls D A)
  : Calls D A :=
  λ log,
    match body log with
    | (Normal a, log') => (Normal a, log')
    | (Throw e, log') => handler e log'
    end.

(** [callback(data)] *)
Definition call {D} (behaviour : Callback → D → Completion unit)
    (cb : Callback) (data : D) : Calls D unit :=
  λ log,
    (behaviour cb data,
     log ++ [ {| callee := cb; argument := data;
                 completion := behaviour cb data |} ]).

(** [s.forEach(callback => body)] *)
Fixpoint Set_forEach {D} (s : list Callback) (body : Callback → Calls D unit)
  : Calls D unit :=
  match s with
  | [] => calls_ret tt
  | cb :: s' => calls_bind (body cb) (λ _, Set_forEach s' body)
  end.

(** [addListener(event, callback)]: the registry afterwards.  The function
    it returns is [unsubscribe event callback] below. *)
Definition addListener (event : string) (callback : Callback)
    (listeners : Listeners) : Listeners :=
  let listeners' :=
    if bool_decide (is_Some (listeners !! event)) then listeners
    else <[event := []]> listeners in
  <[event := Set_add callback (default [] (listeners' !! event))]> listeners'.

(** The closure returned by [addListener]: it looks the event up again
    when it is called. *)
Definition unsubscribe (event : string) (callback : Callback)
    (listeners : Listeners) : Listeners :=
  match listeners !! event with
  | Some callbacks => <[event := Set_delete callback callbacks]> listeners
  | None => listeners
  end.

(** [removeListener(event, callback)] *)
Definition removeListener (event : string) (callback : Callback)
    (listeners : Listeners) : Listeners :=
  if bool_decide (is_Some (listeners !! event)) then
    <[event := Set_delete callback (default [] (listeners !! event))]> listeners
  else listeners.

(** [notifyListeners(event, data)] *)
Definition notifyListeners {D} (behaviour : Callback → D → Completion unit)
    (event : string) (data : D) (listeners : Listeners) : Calls D unit :=
  if bool_decide (is_Some (listeners !! event)) then
    Set_forEach (default [] (listeners !! event)) (λ callback,
      calls_try (call behaviour callback data) (λ error, calls_ret tt))
  else calls_ret tt.

(** The callbacks an event reaches. *)
Definition listenersOf (event : string) (listeners : Listeners) : list Callback :=
  default [] (listeners !! event).

(** Every [Set] of the registry holds each callback once. *)
Definition wellFormed (listeners : Listeners) : Prop :=
  ∀ event callbacks, listeners !! event = Some callbacks → NoDup callbacks.

(** A registry with two listeners of ['messageReceived'], the first of
    which throws. *)
Definition demoListeners : Listeners :=
  {[ "messageReceived" := [1%nat; 2%nat] ]}.

Definition demoBehaviour (cb : Callback) (data : Payload) : Completion unit :=
  if Nat.even cb then Normal tt else Throw (Error "listener failed").

End ListenerRegistry.

(** ** The group routes of the server ([server/routes/groups.js])

    The routes keep their groups in the module-level array [groups].  A
    handler is embedded as a function from the request's fields and the
    store to the response and the store.  Fields of [req.body] are optional
    strings; [uuidv4()], [new Date().toISOString()] and
    [Math.floor(Math.random() * chars.length)] are read from an oracle. *)
Module GroupRoutes.
Local Open Scope nat_scope.

Record Member := {
  member_id : option string;
  member_name : option string;
}.

Record Group := {
  group_id : string;
  group_name : option string;
  code : string;
  creatorId : option string;
  creatorName : option string;
  venueId : option string;
  members : list Member;
  createdAt : string;
}.

#[global] Instance Member_eq_dec : EqDecision Member.
Proof. solve_decision. Defined.

#[global] Instance Group_eq_dec : EqDecision Group.
Proof. solve_decision. Defined.

Record Oracle := {
  (** the k-th value of [uuidv4()] *)
  uuidv4 : nat → string;
  (** the k-th value of [new Date().toISOString()] *)
  toISOString : nat → string;
  (** the k-th value of [Math.floor(Math.random() * chars.length)] *)
  randomIndex : nat → nat;
}.

Record Store := {
  groups : list Group;
  uuids : nat;
  dates : nat;
  draws : nat;
}.

Inductive Body :=
  | JsonGroup (g : Group)
  | JsonMembers (ms : list Member)
  | JsonMessage (message : string).

Record Response := {
  status : nat;
  body : Body;
}.

(** [res.status(s).json({ message })] and [res.json(...)] *)
Definition failure (s : nat) (message : string) : Response :=
  {| status := s; body := JsonMessage message |}.

Definition ok (b : Body) : Response := {| status := 200; body := b |}.

Definition chars : string := "ABCDEFGHJKLMNPQRSTUVWXYZ23456789".

(** [s.charAt(i)]: the empty string when [i] is out of range. *)
Definition charAt (i : nat) (s : string) : string := String.substring i 1 s.

(** The [for] loop of [generateUniqueCode], from draw [k] on. *)
Fixpoint generateFrom (o : Oracle) (n : nat) (k : nat) (code : string) : string :=
  match n with
  | O => code
  | S n' => generateFrom o n' (S k) (code +:+ charAt (randomIndex o k) chars)
  end.

Definition generateUniqueCode (o : Oracle) (k : nat) : string :=
  generateFrom o 6 k "".

(** [groups.find(g => g.code === code)] and [groups.findIndex(...)] *)
Definition findByCode (c : string) (gs : list Group) : option Group :=
  snd <$> list_find (λ g, code g = c) gs.

Definition findById (i : string) (gs : list Group) : option Group :=
  snd <$> list_find (λ g, group_id g = i) gs.

(** The [while (!isUnique)] loop: [fuel] bounds the number of attempts,
    and [None] means that the loop is still running. *)
Fixpoint uniqueCode (o : Oracle) (fuel : nat) (gs : list Group) (k : nat)
  : option (string * nat) :=
  match fuel with
  | O => None
  | S fuel' =>
      let groupCode := generateUniqueCode o k in
      match findByCode groupCode gs with
      | Some _ => uniqueCode o fuel' gs (k + 6)
      | None => Some (groupCode, k + 6)
      end
  end.

(** [POST /api/groups] *)
Definition createGroup (o : Oracle) (fuel : nat)
    (name creatorId' creatorName' venueId' : option string) (st : Store)
  : option (Response * Store) :=
  if negb (truthy name) || negb (truthy creatorId') then
    Some (failure 400 "Name and creator ID are required", st)
  else
    match uniqueCode o fuel (groups st) (draws st) with
    | None => None
    | Some (groupCode, k) =>
        let newGroup :=
          {| group_id := uuidv4 o (uuids st);
             group_name := name;
             code := groupCode;
             creatorId := creatorId';
             creatorName := creatorName';
             venueId := venueId';
             members := [ {| member_id := creatorId';
                             member_name := creatorName' |} ];
             createdAt := toISOString o (dates st) |} in
        Some ({| status := 201; body := JsonGroup newGroup |},
              {| groups := groups st ++ [newGroup];
                 uuids := S (uuids st);
                 dates := S (dates st);
                 draws := k |})
    end.

(** [GET /api/groups/:code] *)
Definition getGroup (c : string) (st : Store) : Response * Store :=
  match findByCode c (groups st) with
  | None => (failure 404 "Group not found", st)
  | Some group => (ok (JsonGroup group), st)
  end.

Definition with_groups (gs : list Group) (st : Store) : Store :=
  {| groups := gs; uuids := uuids st; dates := dates st; draws := draws st |}.

Definition push_member (m : Member) (g : Group) : Group :=
  {| group_id := group_id g; group_name := group_name g; code := code g;
     creatorId := creatorId g; creatorName := creatorName g;
     venueId := venueId g; members := members g ++ [m];
     createdAt := createdAt g |}.

(** [group.members.some(member => member.id === userId)] *)
Definition isMember (userId : option string) (g : Group) : bool :=
  existsb (λ member, bool_decide (member_id member = userId)) (members g).

(** [POST /api/groups/join] *)
Definition joinGroup (c userId userName : option string) (st : Store)
  : Response * Store :=
  if negb (truthy c) || negb (truthy userId) || negb (truthy userName) then
    (failure 400 "Group code, user ID, and name are required", st)
  else
    match list_find (λ g, Some (code g) = c) (groups st) with
    | None => (failure 404 "Group not found", st)
    | Some (groupIndex, group) =>
        let group' :=
          if isMember userId group then group
          else push_member {| member_id := userId; member_name := userName |} group in
        (ok (JsonGroup group'),
         with_groups (<[groupIndex := group']> (groups st)) st)
    end.

(** [GET /api/groups/members/:groupId] *)
Definition getMembers (groupId : string) (st : Store) : Response * Store :=
  match findById groupId (groups st) with
  | None => (failure 404 "Group not found", st)
  | Some group => (ok (JsonMembers (members group)), st)
  end.

(** [DELETE /api/groups/:id] *)
Definition deleteGroup (i : string) (userId : option string) (st : Store)
  : Response * Store :=
  match findById i (groups st) with
  | None => (failure 404 "Group not found", st)
  | Some group =>
      if bool_decide (creatorId group ≠ userId) then
        (failure 403 "Not authorized to delete this group", st)
      else
        (ok (JsonMessage "Group deleted successfully"),
         with_groups (filter (λ g, group_id g ≠ i) (groups st)) st)
  end.

(** The code drawn by the [j]-th attempt of a [POST /api/groups]. *)
Definition attempt (o : Oracle) (st : Store) (j : nat) : string :=
  generateUniqueCode o (draws st + 6 * j).

Definition codeInUse (c : string) (st : Store) : Prop :=
  ∃ g, g ∈ groups st ∧ code g = c.

(** A request to the group routes. *)
Inductive Request :=
  | PostGroup (fuel : nat) (name creatorId creatorName venueId : option string)
  | GetGroup (code : string)
  | PostJoin (code userId userName : option string)
  | GetMembers (groupId : string)
  | DeleteGroup (id : string) (userId : option string).

Definition serve (o : Oracle) (r : Request) (st : Store) : option (Response * Store) :=
  match r with
  | PostGroup fuel n c cn v => createGroup o fuel n c cn v st
  | GetGroup c => Some (getGroup c st)
  | PostJoin c u n => Some (joinGroup c u n st)
  | GetMembers g => Some (getMembers g st)
  | DeleteGroup i u => Some (deleteGroup i u st)
  end.

(** The stores the server can be in: it starts with [let groups = []]. *)
Inductive served (o : Oracle) : Store → Prop :=
  | served_start : served o {| groups := []; uuids := 0; dates := 0; draws := 0 |}
  | served_request st r response st' :
      served o st → serve o r st = Some (response, st') → served o st'.

(** What every served store satisfies. *)
Definition consistent (st : Store) : Prop :=
  NoDup (code <$> groups st)
  ∧ Forall (λ g, NoDup (member_id <$> members g)
                 ∧ ∃ rest, members g
                           = {| member_id := creatorId g;
                                member_name := creatorName g |} :: rest
                 ) (groups st).

(** A concrete server: its oracle, and the store after Alice has created
    the group [Trip]. *)
Definition demoOracle : Oracle := {|
  uuidv4 := λ k, "uuid-" +:+ pretty k;
  toISOString := λ _, "2024-01-01T00:00:00.000Z";
  randomIndex := λ k, k mod 32;
|}.

Definition start : Store := {| groups := []; uuids := 0; dates := 0; draws := 0 |}.

Definition demoGroup : Group := {|
  group_id := "uuid-0";
  group_name := Some "Trip";
  code := "ABCDEF";
  creatorId := Some "u1";
  creatorName := Some "Alice";
  venueId := None;
  members := [ {| member_id := Some "u1"; member_name := Some "Alice" |} ];
  createdAt := "2024-01-01T00:00:00.000Z";
|}.

Definition demoStore : Store :=
  {| groups := [demoGroup]; uuids := 1; dates := 1; draws := 6 |}.

(** An oracle whose first two codes are both [ABCDEF]. *)
Definition retryOracle : Oracle := {|
  uuidv4 := λ k, "uuid-" +:+ pretty k;
  toISOString := λ _, "2024-01-01T00:00:00.000Z";
  randomIndex := λ k, if k <? 12 then k mod 6 else k mod 32;
|}.

End GroupRoutes.

(** ** Effect logs *)

Lemma log_sends_nil w : log_sends [] w = w.
Proof. destruct w; unfold log_sends; simpl. by rewrite app_nil_r. Qed.

Lemma log_sends_app l1 l2 w :
  log_sends l2 (log_sends l1 w) = log_sends (l1 ++ l2) w.
Proof. unfold log_sends; simpl. by rewrite app_assoc. Qed.

Lemma log_events_nil w : log_events [] w = w.
Proof. destruct w; unfold log_events; simpl. by rewrite app_nil_r. Qed.

(** ** The adapters' sends *)

Section Sends.
Variable env : Env.

(** An adapter send never throws into the engine and records exactly one
    attempt, whatever state its promise settles in. *)
Lemma bluetooth_sendMessage_logs deviceId message w :
  ∃ p, bluetooth_sendMessage env deviceId message w
       = (Normal p,
          log_sends [ {| via := bluetooth; target := deviceId;
                         payload := message; settled := p |} ] w).
Proof.
  unfold bluetooth_sendMessage, bind, promise_of, try_catch, record_send, ret.
  destruct (bool_decide _).
  - unfold await. destruct (writeCharacteristic env deviceId); simpl; eauto.
  - simpl. eauto.
Qed.

Lemma wifiDirect_sendMessage_logs deviceAddress message w :
  ∃ p, wifiDirect_sendMessage env deviceAddress message w
       = (Normal p,
          log_sends [ {| via := wifiDirect; target := deviceAddress;
                         payload := message; settled := p |} ] w).
Proof.
  unfold wifiDirect_sendMessage, bind, promise_of, try_catch, record_send, ret.
  destruct (negb (isInitialized _)); simpl; eauto.
  destruct (negb (bool_decide _)); simpl; eauto.
  unfold await. destruct (module_sendMessage env deviceAddress); simpl; eauto.
Qed.

Lemma send_step k nodeId message w :
  ∃ p, (match k with
        | bluetooth => bluetooth_sendMessage env nodeId message ;; ret tt
        | wifiDirect => wifiDirect_sendMessage env nodeId message ;; ret tt
        end) w
       = (Normal tt,
          log_sends [ {| via := k; target := nodeId;
                         payload := message; settled := p |} ] w).
Proof.
  destruct k.
  - destruct (bluetooth_sendMessage_logs nodeId message w) as [p Hp].
    exists p. unfold bind. by rewrite Hp.
  - destruct (wifiDirect_sendMessage_logs nodeId message w) as [p Hp].
    exists p. unfold bind. by rewrite Hp.
Qed.

Lemma fanout_loop_cons k message nodeId node ns :
  fanout_loop env k message ((nodeId, node) :: ns) =
  (when (bool_decide (node_type node = k))
     (match k with
      | bluetooth => bluetooth_sendMessage env nodeId message ;; ret tt
      | wifiDirect => wifiDirect_sendMessage env nodeId message ;; ret tt
      end) ;;
   fanout_loop env k message ns).
Proof. reflexivity. Qed.

(** A loop over the registry attempts one send per node of its kind, in
    registry order, and goes on after every attempt. *)
Lemma fanout_loop_sends k message ns w :
  ∃ l, fanout_loop env k message ns w = (Normal tt, log_sends l w)
       ∧ addressee <$> l = reached <$> filter (λ kv, node_type kv.2 = k) ns
       ∧ Forall (λ a, payload a = message) l.
Proof.
  revert w. induction ns as [|[nodeId node] ns IH]; intros w.
  - exists []. simpl. unfold ret. by rewrite log_sends_nil.
  - rewrite fanout_loop_cons, filter_cons. unfold bind at 1, when. simpl.
    case_bool_decide as Hk.
    + destruct (send_step k nodeId message w) as [p Hp]. rewrite Hp.
      destruct (IH (log_sends [ {| via := k; target := nodeId;
                                   payload := message; settled := p |} ] w))
        as (l & Hl & Ha & Hm).
      eexists (_ :: l). split_and!.
      * rewrite Hl. by rewrite log_sends_app.
      * rewrite decide_True by done. rewrite !fmap_cons, Ha.
        unfold reached, addressee. simpl. by rewrite Hk.
      * constructor; done.
    + rewrite decide_False by done. unfold ret at 1. apply IH.
Qed.

Lemma broadcastMessage_loops message :
  broadcastMessage env message =
  (this <- this_ ;;
   if negb (truthy (userId this)) || negb (truthy (groupId this)) then ret tt
   else
     when (truthy (msg_id message) && negb (messages_has (msg_id message) this))
       (now <- DateNow env ;;
        update (messages_set (msg_id message)
                  {| entry_message := message;
                     expires := now + messageTimeout |})) ;;
     fanout_loop env bluetooth message (nodes this) ;;
     fanout_loop env wifiDirect message (nodes this) ;;
     ret tt).
Proof. reflexivity. Qed.

(** The whole effect of [broadcastMessage] once identity is set: an
    optional cache insertion, then the sends. *)
Lemma broadcastMessage_effect message w :
  identitySet (mesh w) = true →
  ∃ l w1,
    broadcastMessage env message w = (Normal tt, log_sends l w1)
    ∧ addressee <$> l = reached <$> fanoutOrder (nodes (mesh w))
    ∧ Forall (λ a, payload a = message) l
    ∧ w1 = (if truthy (msg_id message)
               && negb (messages_has (msg_id message) (mesh w))
            then cached env message w else w).
Proof.
  intros Hid. unfold identitySet in Hid. apply andb_prop in Hid as [Hu Hg].
  rewrite broadcastMessage_loops. unfold bind at 1, this_. rewrite Hu, Hg. simpl.
  set (w1 := if truthy (msg_id message)
                && negb (messages_has (msg_id message) (mesh w))
             then cached env message w else w).
  assert (Hw1 :
    when (truthy (msg_id message) && negb (messages_has (msg_id message) (mesh w)))
      (now <- DateNow env ;;
       update (messages_set (msg_id message)
                 {| entry_message := message; expires := now + messageTimeout |})) w
    = (Normal tt, w1)).
  { unfold w1, when, cached. destruct (truthy (msg_id message)); [|done].
    destruct (negb _); done. }
  unfold bind at 1. rewrite Hw1.
  destruct (fanout_loop_sends bluetooth message (nodes (mesh w)) w1)
    as (l1 & H1 & A1 & P1).
  destruct (fanout_loop_sends wifiDirect message (nodes (mesh w)) (log_sends l1 w1))
    as (l2 & H2 & A2 & P2).
  exists (l1 ++ l2), w1. split_and!; [| | |done].
  - unfold bind at 1. rewrite H1. unfold bind at 1.
    rewrite H2. by rewrite log_sends_app.
  - unfold fanoutOrder. by rewrite !fmap_app, A1, A2.
  - by apply Forall_app.
Qed.
End Sends.

(** Walking the Bluetooth nodes and then the WiFi Direct nodes visits every
    registered node once. *)
Lemma fanoutOrder_all (ns : list (string * Node)) : fanoutOrder ns ≡ₚ ns.
Proof.
  unfold fanoutOrder.
  induction ns as [|[nodeId [[] info t]] ns IH]; simpl; [done| |].
  - rewrite !filter_cons. simpl. by constructor.
  - rewrite !filter_cons. simpl. rewrite <- Permutation_middle. by constructor.
Qed.

(** ** The receiver *)

Section Receiver.
Variable env : Env.

Lemma dispatch_delivery nodeId message w :
  dispatch nodeId message w = (Normal tt, log_events (delivery nodeId message) w).
Proof.
  unfold dispatch, delivery.
  repeat case_bool_decide; try reflexivity.
  unfold ret. by rewrite log_events_nil.
Qed.

Lemma delivery_length nodeId message : (length (delivery nodeId message) ≤ 1)%nat.
Proof. unfold delivery. repeat case_bool_decide; simpl; lia. Qed.

Lemma relayCondition_reads message w :
  relayCondition env message w =
  if truthy (msg_ttl message) && truthy (msg_timestamp message)
  then (Normal (bool_decide (Date_now env (clockReads w)
                             - default 0 (msg_timestamp message)
                             < default 0 (msg_ttl message))),
        log_time w)
  else (Normal false, w).
Proof. unfold relayCondition. by destruct (_ && _). Qed.

Lemma messages_has_set key entry this :
  truthy key = true → messages_has key (messages_set key entry this) = true.
Proof.
  destruct key as [i|]; [|done]. intros _. simpl.
  rewrite lookup_insert_eq. by apply bool_decide_eq_true.
Qed.

(** Any of the three early returns leaves the world as it was. *)
Lemma handleMessageReceived_rejected type nodeId message w :
  accepts message (mesh w) = false →
  handleMessageReceived env type nodeId message w = (Normal tt, w).
Proof.
  unfold accepts, passesGroupCheck, identitySet, handleMessageReceived, bind, this_.
  intros H.
  destruct (truthy (userId (mesh w))); [|done].
  destruct (truthy (groupId (mesh w))); [|done]. simpl in *.
  destruct (truthy (msg_groupId message) && _); [done|].
  destruct (truthy (msg_id message) && _); [done|]. done.
Qed.

(** [null] passes the identity guard only to fail at [message.groupId]:
    nothing has been written by then. *)
Lemma handleMessageReceived_null type nodeId w :
  handleMessageReceived env type nodeId JsonNull w
  = (if identitySet (mesh w) then Throw (TypeError "groupId") else Normal tt, w).
Proof.
  unfold identitySet, handleMessageReceived, bind, this_.
  destruct (truthy (userId (mesh w))); [|done].
  by destruct (truthy (groupId (mesh w))).
Qed.

(** Past the early returns: cache step, dispatch, relay. *)
Lemma handleMessageReceived_accepted type nodeId message w :
  accepts message (mesh w) = true →
  ∃ l w',
    handleMessageReceived env type nodeId message w = (Normal tt, w')
    ∧ mesh w' = mesh (cached env message w)
    ∧ emitted w' = emitted w ++ delivery nodeId message
    ∧ sendLog w' = sendLog w ++ l
    ∧ Forall (λ a, payload a = message) l
    ∧ (if relays env message w
       then addressee <$> l = reached <$> fanoutOrder (nodes (mesh w))
       else l = []).
Proof.
  unfold accepts, passesGroupCheck. intros H.
  apply andb_prop in H as [H Hdup]. apply andb_prop in H as [Hid Hgrp].
  apply negb_true_iff in Hdup, Hgrp.
  pose proof Hid as Hid'. unfold identitySet in Hid'.
  apply andb_prop in Hid' as [Hu Hg].
  unfold handleMessageReceived. unfold bind at 1, this_.
  rewrite Hu, Hg, Hgrp, Hdup. simpl.
  assert (Hc :
    when (truthy (msg_id message))
      (now <- DateNow env ;;
       update (messages_set (msg_id message)
                 {| entry_message := message; expires := now + messageTimeout |})) w
    = (Normal tt, cached env message w)).
  { unfold cached, when. by destruct (truthy (msg_id message)). }
  unfold bind at 1. rewrite Hc.
  unfold bind at 1. rewrite dispatch_delivery.
  set (w2 := log_events (delivery nodeId message) (cached env message w)).
  assert (Hmesh2 : mesh w2 = mesh (cached env message w)) by done.
  assert (Hnodes : nodes (mesh (cached env message w)) = nodes (mesh w)).
  { unfold cached. destruct (truthy (msg_id message)); [|done].
    simpl. by destruct (msg_id message). }
  assert (Hident : identitySet (mesh w2) = true).
  { rewrite Hmesh2. unfold cached. destruct (truthy (msg_id message)); [|done].
    simpl. by destruct (msg_id message). }
  assert (Hclock : clockReads w2
                   = if truthy (msg_id message) then S (clockReads w) else clockReads w).
  { unfold w2, cached. simpl. by destruct (truthy (msg_id message)). }
  assert (Hem : emitted w2 = emitted w ++ delivery nodeId message).
  { unfold w2, cached. simpl. by destruct (truthy (msg_id message)). }
  assert (Hsl : sendLog w2 = sendLog w).
  { unfold w2, cached. simpl. by destruct (truthy (msg_id message)). }
  assert (Hnodup : truthy (msg_id message)
                   && negb (messages_has (msg_id message) (mesh w2)) = false).
  { rewrite Hmesh2. unfold cached.
    destruct (truthy (msg_id message)) eqn:Ht; [|done].
    simpl. by rewrite messages_has_set. }
  unfold relays, relayNow. rewrite <- Hclock.
  unfold bind at 1. rewrite relayCondition_reads.
  destruct (truthy (msg_ttl message) && truthy (msg_timestamp message)).
  - rewrite andb_true_l. unfold when.
    destruct (bool_decide (_ < _)).
    + destruct (broadcastMessage_effect env message (log_time w2))
        as (l & w1 & Hb & Ha & Hp & Hw1); [done|].
      change (mesh (log_time w2)) with (mesh w2) in Hw1, Ha.
      rewrite Hnodup in Hw1. subst w1.
      exists l, (log_sends l (log_time w2)). split_and!; try done.
      * change (sendLog w2 ++ l = sendLog w ++ l). by rewrite Hsl.
      * by rewrite Hmesh2, Hnodes in Ha.
    + exists [], (log_time w2). split_and!; try done.
      change (sendLog w2 = sendLog w ++ []). by rewrite Hsl, app_nil_r.
  - exists [], w2. split_and!; try done. by rewrite Hsl, app_nil_r.
Qed.

(** What the cache holds after the cache step. *)
Lemma cached_lookup message w i :
  msg_id message = Some i → i ≠ "" →
  messages (mesh (cached env message w)) !! i
  = Some {| entry_message := message;
            expires := Date_now env (clockReads w) + messageTimeout |}.
Proof.
  intros Hi Hne. unfold cached. rewrite Hi.
  unfold truthy, truthy_string. rewrite bool_decide_eq_true_2 by done.
  simpl. apply lookup_insert_eq.
Qed.

Lemma cached_identity message w :
  identitySet (mesh (cached env message w)) = identitySet (mesh w).
Proof.
  unfold cached. destruct (truthy (msg_id message)); [|done].
  simpl. by destruct (msg_id message).
Qed.

Lemma cached_groupId message w :
  groupId (mesh (cached env message w)) = groupId (mesh w).
Proof.
  unfold cached. destruct (truthy (msg_id message)); [|done].
  simpl. by destruct (msg_id message).
Qed.
End Receiver.

(** ** Properties of [handleMessageReceived] *)

Section ReceiverClaims.
Variable env : Env.

Lemma delivery_message nodeId message :
  msg_type message = Some "message" →
  delivery nodeId message = [messageReceived nodeId message].
Proof. intros H. unfold delivery. by rewrite H. Qed.

Lemma delivery_location nodeId message :
  msg_type message = Some "location" →
  delivery nodeId message
  = [locationReceived nodeId (msg_userId message) (msg_location message)].
Proof. intros H. unfold delivery. by rewrite H. Qed.

Lemma delivery_user nodeId message :
  msg_type message = Some "user" →
  delivery nodeId message
  = [userInfo nodeId (msg_userId message) (msg_username message)].
Proof. intros H. unfold delivery. by rewrite H. Qed.


Lemma accepts_fresh message this i :
  identitySet this = true →
  passesGroupCheck message this = true →
  msg_id message = Some i →
  messages this !! i = None →
  accepts message this = true.
Proof.
  intros Hid Hg Hi Hm. unfold accepts. rewrite Hid, Hg, Hi. simpl.
  rewrite Hm. rewrite bool_decide_eq_false_2; [by rewrite andb_false_r|].
  by intros [? ?].
Qed.

Lemma accepts_cached message this i e :
  msg_id message = Some i → i ≠ "" →
  messages this !! i = Some e →
  accepts message this = false.
Proof.
  intros Hi Hne Hm. unfold accepts. rewrite Hi. simpl.
  rewrite Hm. unfold truthy, truthy_string.
  rewrite !bool_decide_eq_true_2 by eauto. simpl. by rewrite andb_false_r.
Qed.

(** C1, as amended.  A message that carries a non-empty identifier not
    yet in the cache is handed to [handleMessageReceived] twice while
    identity is set (the two arrivals may come from different nodes).
    The second invocation changes nothing: it emits no event and issues
    no send.  In total at most one event is emitted, and when the message
    passes the group check and its type is ['message'], ['location'] or
    ['user'], exactly one event is emitted, [messageReceived],
    [locationReceived] or [userInfo] respectively. *)
Theorem handleMessageReceived_dedup
    type1 nodeId1 type2 nodeId2 message w i :
  identitySet (mesh w) = true →
  msg_id message = Some i →
  i ≠ "" →
  messages (mesh w) !! i = None →
  ∃ w1 evs,
    handleMessageReceived env type1 nodeId1 message w = (Normal tt, w1)
    ∧ handleMessageReceived env type2 nodeId2 message w1 = (Normal tt, w1)
    ∧ emitted w1 = emitted w ++ evs
    ∧ (length evs ≤ 1)%nat
    ∧ (passesGroupCheck message (mesh w) = true →
       (msg_type message = Some "message" →
        evs = [messageReceived nodeId1 message])
       ∧ (msg_type message = Some "location" →
          evs = [locationReceived nodeId1 (msg_userId message)
                   (msg_location message)])
       ∧ (msg_type message = Some "user" →
          evs = [userInfo nodeId1 (msg_userId message)
                   (msg_username message)])).
Proof.
  intros Hid Hi Hne Hfresh.
  destruct (passesGroupCheck message (mesh w)) eqn:Hg.
  - destruct (handleMessageReceived_accepted env type1 nodeId1 message w)
      as (l & w1 & H1 & Hmesh & Hem & _); [by eapply accepts_fresh|].
    exists w1, (delivery nodeId1 message). split_and!; try done.
    + apply handleMessageReceived_rejected.
      eapply accepts_cached; [done..|].
      rewrite Hmesh. by apply cached_lookup.
    + apply delivery_length.
    + intros _. split_and!; intros Ht.
      * by apply delivery_message.
      * by apply delivery_location.
      * by apply delivery_user.
  - assert (Hrej : accepts message (mesh w) = false).
    { unfold accepts. rewrite Hg. by rewrite andb_false_r. }
    exists w, []. split_and!; try done.
    + by apply handleMessageReceived_rejected.
    + by apply handleMessageReceived_rejected.
    + by rewrite app_nil_r.
    + simpl. lia.
Qed.

(** C2, as amended.  A received message whose groupId is a non-empty
    string different from the engine's active groupId leaves the world
    as it was: no event, no cache insertion, no send. *)
Theorem handleMessageReceived_group_isolation type nodeId message w g :
  msg_groupId message = Some g →
  g ≠ "" →
  Some g ≠ groupId (mesh w) →
  handleMessageReceived env type nodeId message w = (Normal tt, w).
Proof.
  intros Hg Hne Hother. apply handleMessageReceived_rejected.
  unfold accepts, passesGroupCheck. rewrite Hg.
  unfold truthy at 1, truthy_string.
  rewrite !bool_decide_eq_true_2 by done. simpl. by rewrite andb_false_r.
Qed.

(** C3, as amended.  An invocation of [handleMessageReceived] issues no
    send when [timestamp + ttl] lies before the clock reading of the relay
    test, and none when [timestamp] or [ttl] is missing.  Sends are issued
    only when both fields are present and the reading minus [timestamp] is
    below [ttl].  Delivery does not depend on the TTL but on acceptance:
    one invocation emits at most one event, the one of the message's kind
    when the message is accepted and none when it is not (the world is
    then unchanged).  A message that carries an identifier is delivered by
    no later invocation; an accepted message without identifier is
    delivered again by every later invocation. *)
Theorem handleMessageReceived_ttl_blocks_relay type nodeId message w :
  ∃ w' evs,
    handleMessageReceived env type nodeId message w = (Normal tt, w')
    ∧ emitted w' = emitted w ++ evs
    ∧ (length evs ≤ 1)%nat
    ∧ (accepts message (mesh w) = true → evs = delivery nodeId message)
    ∧ (truthy (msg_id message) = true →
       ∀ type' nodeId',
         handleMessageReceived env type' nodeId' message w' = (Normal tt, w'))
    ∧ (∀ ts ttl,
         msg_timestamp message = Some ts → msg_ttl message = Some ttl →
         ts + ttl < relayNow env message w →
         sendLog w' = sendLog w)
    ∧ (msg_timestamp message = None ∨ msg_ttl message = None →
       sendLog w' = sendLog w)
    ∧ (sendLog w' ≠ sendLog w →
       ∃ ts ttl,
         msg_timestamp message = Some ts ∧ msg_ttl message = Some ttl
         ∧ relayNow env message w - ts < ttl)
    ∧ (accepts message (mesh w) = false → evs = [] ∧ w' = w)
    ∧ (accepts message (mesh w) = true →
       truthy (msg_id message) = false →
       ∀ type' nodeId',
         ∃ w'',
           handleMessageReceived env type' nodeId' message w' = (Normal tt, w'')
           ∧ emitted w'' = emitted w' ++ delivery nodeId' message).
Proof.
  destruct (accepts message (mesh w)) eqn:Hacc.
  - destruct (handleMessageReceived_accepted env type nodeId message w Hacc)
      as (l & w' & H & Hmesh & Hem & Hsl & _ & Hrelay).
    exists w', (delivery nodeId message).
    split_and!; try done.
    + apply delivery_length.
    + intros Hidt type' nodeId'. apply handleMessageReceived_rejected.
      destruct (msg_id message) as [i|] eqn:Hi; [|done].
      apply bool_decide_eq_true in Hidt.
      eapply accepts_cached; [done..|].
      rewrite Hmesh. by apply cached_lookup.
    + intros ts ttl Hts Httl Hlate.
      unfold relays in Hrelay. rewrite Hts, Httl in Hrelay. simpl in Hrelay.
      rewrite (bool_decide_eq_false_2 (_ < _)) in Hrelay by lia.
      rewrite andb_false_r in Hrelay. subst l. by rewrite Hsl, app_nil_r.
    + intros Hmissing. unfold relays in Hrelay.
      assert (truthy (msg_ttl message) && truthy (msg_timestamp message) = false)
        as Hf.
      { destruct Hmissing as [-> | ->]; [by rewrite andb_false_r|done]. }
      rewrite Hf in Hrelay. simpl in Hrelay. subst l.
      by rewrite Hsl, app_nil_r.
    + intros Hsent. unfold relays in Hrelay.
      destruct (msg_timestamp message) as [ts|];
        [|rewrite andb_false_r in Hrelay; simpl in Hrelay; subst l;
          by rewrite Hsl, app_nil_r in Hsent].
      destruct (msg_ttl message) as [ttl|];
        [|simpl in Hrelay; subst l; by rewrite Hsl, app_nil_r in Hsent].
      exists ts, ttl. split_and!; try done.
      simpl in Hrelay. destruct (bool_decide (_ < _)) eqn:Hlt.
      * by apply bool_decide_eq_true in Hlt.
      * rewrite andb_false_r in Hrelay. subst l.
        by rewrite Hsl, app_nil_r in Hsent.
    + intros _ Hnoid type' nodeId'.
      assert (Hsame : mesh w' = mesh w).
      { rewrite Hmesh. unfold cached. by rewrite Hnoid. }
      destruct (handleMessageReceived_accepted env type' nodeId' message w')
        as (l' & w'' & H' & _ & Hem' & _); [by rewrite Hsame|].
      by exists w''.
  - exists w, []. split_and!; try done.
    + by apply handleMessageReceived_rejected.
    + by rewrite app_nil_r.
    + simpl. lia.
    + intros _ type' nodeId'. by apply handleMessageReceived_rejected.
Qed.

(** C4, as amended.  When [handleMessageReceived] accepts a message that
    carries an identifier, the cache entry it creates expires at the
    clock reading of the cache step plus the engine's fixed
    [messageTimeout] of 60000 ms, whatever the message's own ttl. *)
Theorem handleMessageReceived_cache_expiry type nodeId message w i :
  identitySet (mesh w) = true →
  passesGroupCheck message (mesh w) = true →
  msg_id message = Some i →
  i ≠ "" →
  messages (mesh w) !! i = None →
  ∃ w',
    handleMessageReceived env type nodeId message w = (Normal tt, w')
    ∧ messages (mesh w') !! i
      = Some {| entry_message := message;
                expires := Date_now env (clockReads w) + 60000 |}.
Proof.
  intros Hid Hg Hi Hne Hfresh.
  destruct (handleMessageReceived_accepted env type nodeId message w)
    as (l & w' & H & Hmesh & _); [by eapply accepts_fresh|].
  exists w'. split; [done|]. rewrite Hmesh. by apply cached_lookup.
Qed.


End ReceiverClaims.

(** ** Properties of [broadcastMessage] and [sendMessage] *)

Section SenderClaims.
Variable env : Env.

Lemma identitySet_guard this :
  identitySet this = true →
  negb (truthy (userId this)) || negb (truthy (groupId this)) = false.
Proof.
  unfold identitySet. intros H. apply andb_prop in H as [-> ->]. done.
Qed.

Lemma identityUnset_guard this :
  identitySet this = false →
  negb (truthy (userId this)) || negb (truthy (groupId this)) = true.
Proof.
  unfold identitySet.
  destruct (truthy (userId this)), (truthy (groupId this)); done.
Qed.

Lemma append_nonempty (a b : string) : a ≠ "" → a +:+ b ≠ "".
Proof. by destruct a. Qed.

(** The identifier built by [sendMessage] is a truthy string. *)
Lemma truthy_toString (o : option string) (rest : string) :
  truthy o = true → truthy (Some (toString o +:+ rest)) = true.
Proof.
  destruct o as [u|]; [|done]. unfold truthy, truthy_string. simpl.
  intros H. apply bool_decide_eq_true in H.
  apply bool_decide_eq_true. by apply append_nonempty.
Qed.

(** Two identifiers built for the same user at the same reading differ
    as soon as their random suffixes differ. *)
Lemma identifier_suffix_injective (stem r1 r2 : string) :
  stem +:+ r1 = stem +:+ r2 → r1 = r2.
Proof. induction stem as [|c stem IH]; simpl; [done|]. intros [=]. auto. Qed.

(** C5, as amended.  With identity unset, [sendMessage] throws
    ['Mesh network not initialized'] and leaves the world, the Message
    Cache included, as it was; [broadcastMessage] raises no error: it
    returns normally, having sent nothing and cached nothing. *)
Theorem not_initialized_gate content message w :
  identitySet (mesh w) = false →
  sendMessage env content w = (Throw (Error "Mesh network not initialized"), w)
  ∧ broadcastMessage env message w = (Normal tt, w).
Proof.
  intros Hid. apply identityUnset_guard in Hid.
  unfold sendMessage, broadcastMessage, bind, this_. by rewrite Hid.
Qed.

(** C8.  With identity set and N nodes in the registry,
    [broadcastMessage] returns normally after exactly N send attempts,
    one per registered node over that node's transport, each carrying
    the message.  The attempts are those of the registry walked in
    fan-out order whatever the adapters answer, so a send that fails
    takes no attempt away from the nodes after it. *)
Theorem broadcastMessage_fan_out message w :
  identitySet (mesh w) = true →
  ∃ w' l,
    broadcastMessage env message w = (Normal tt, w')
    ∧ sendLog w' = sendLog w ++ l
    ∧ length l = length (nodes (mesh w))
    ∧ addressee <$> l ≡ₚ reached <$> nodes (mesh w)
    ∧ addressee <$> l = reached <$> fanoutOrder (nodes (mesh w))
    ∧ Forall (λ a, payload a = message) l.
Proof.
  intros Hid.
  destruct (broadcastMessage_effect env message w Hid)
    as (l & w1 & H & Ha & Hp & Hw1).
  assert (Hperm : addressee <$> l ≡ₚ reached <$> nodes (mesh w)).
  { rewrite Ha. apply fmap_Permutation, fanoutOrder_all. }
  exists (log_sends l w1), l. split_and!; try done.
  - subst w1. unfold cached.
    destruct (truthy (msg_id message) && _); [|done].
    by destruct (truthy (msg_id message)).
  - apply Permutation_length in Hperm. by rewrite !length_fmap in Hperm.
Qed.

(** C7, as amended.  With identity set, [sendMessage(content)] builds a
    message of type ['message'] whose identifier is made of the user id,
    the current clock reading and a random suffix drawn for this call,
    whose timestamp is the current clock reading and whose ttl is 60000.
    It stores the message in the cache under that identifier with expiry
    = clock reading + 60000, whatever the cache held there, and leaves
    every other entry alone; it attempts one send per registered node,
    emits [messageSent] with the message, and returns the identifier.
    The identifier is not checked against earlier ones: it is new as far
    as the reading or the suffix is, and at one reading two identifiers
    of the user differ exactly when their suffixes do. *)
Theorem sendMessage_postcondition content w :
  identitySet (mesh w) = true →
  let t0 := Date_now env (clockReads w) in
  let t1 := Date_now env (S (clockReads w)) in
  let t2 := Date_now env (S (S (clockReads w))) in
  let id := toString (userId (mesh w)) +:+ "-" +:+ pretty t0 +:+ "-"
            +:+ Math_random env (randomDraws w) in
  let messageData :=
    {| msg_id := Some id;
       msg_type := Some "message";
       msg_userId := userId (mesh w);
       msg_username := username (mesh w);
       msg_groupId := groupId (mesh w);
       msg_content := Some content;
       msg_location := None;
       msg_timestamp := Some t1;
       msg_ttl := Some 60000 |} in
  ∃ w' l,
    sendMessage env content w = (Normal id, w')
    ∧ messages (mesh w') !! id
      = Some {| entry_message := messageData; expires := t2 + 60000 |}
    ∧ sendLog w' = sendLog w ++ l
    ∧ length l = length (nodes (mesh w))
    ∧ addressee <$> l ≡ₚ reached <$> nodes (mesh w)
    ∧ Forall (λ a, payload a = messageData) l
    ∧ emitted w' = emitted w ++ [messageSent messageData]
    ∧ (∀ j, j ≠ id → messages (mesh w') !! j = messages (mesh w) !! j)
    ∧ (∀ r, toString (userId (mesh w)) +:+ "-" +:+ pretty t0 +:+ "-" +:+ r = id
            ↔ r = Math_random env (randomDraws w)).
Proof.
  intros Hid t0 t1 t2 id messageData.
  unfold sendMessage. unfold bind at 1, this_.
  rewrite (identitySet_guard _ Hid).
  unfold bind at 1, DateNow. unfold bind at 1, randomSuffix.
  unfold bind at 1. cbn [clockReads randomDraws mesh].
  fold t0 t1. fold id.
  unfold bind at 1. cbn [clockReads]. fold t2.
  unfold bind at 1, update.
  change messageTimeout with 60000. fold messageData.
  set (wA := with_mesh _ _).
  assert (HidA : identitySet (mesh wA) = true) by (by destruct w as [[]]).
  destruct (broadcastMessage_effect env messageData wA HidA)
    as (l & w1 & H & Ha & Hp & Hw1).
  assert (HhasA : messages_has (msg_id messageData) (mesh wA) = true).
  { unfold wA. cbn [mesh with_mesh]. apply messages_has_set.
    apply truthy_toString. unfold identitySet in Hid.
    by apply andb_prop in Hid as [? ?]. }
  rewrite HhasA, andb_false_r in Hw1. subst w1.
  assert (Hperm : addressee <$> l ≡ₚ reached <$> nodes (mesh w)).
  { rewrite Ha. apply fmap_Permutation.
    change (nodes (mesh wA)) with (nodes (mesh w)). apply fanoutOrder_all. }
  unfold bind at 1. rewrite H. unfold bind, notifyListeners, ret.
  eexists _, l. split_and!; try done.
  - cbn [mesh log_sends]. unfold wA.
    cbn [mesh with_mesh messages_set msg_id messageData].
    cbn. apply lookup_insert_eq.
  - apply Permutation_length in Hperm. by rewrite !length_fmap in Hperm.
  - intros j Hj. cbn [mesh log_sends]. unfold wA.
    cbn [mesh with_mesh messages_set msg_id messageData].
    cbn. by apply lookup_insert_ne.
  - intros r. split; [|by intros ->].
    unfold id. intros Heq.
    by do 4 apply identifier_suffix_injective in Heq.
Qed.
End SenderClaims.

(** ** Properties of [startNetworking] *)

Section NetworkingClaims.
Variable env : Env.

Lemma scanning_already w :
  isScanning (bluetoothService w) = true →
  with_bluetooth (set_isScanning true) w = w.
Proof. destruct w as [? [[] ?] ? ? ? ? ? ?]; done. Qed.

(** [startScan] never throws; it leaves the adapter scanning or not. *)
Lemma bluetooth_startScan_outcome w :
  bluetooth_startScan env w
  = (Normal tt, with_bluetooth (set_isScanning (scanStarts env w)) w).
Proof.
  unfold bluetooth_startScan, bluetooth_requestPermissions, scanStarts,
    try_catch, bind, await, ret, throw.
  destruct (Platform_android env).
  - destruct (requestMultiple env) as [[[a b] c]|e]; [|done].
    simpl. destruct (a && b && c); simpl; [|done].
    destruct (isScanning (bluetoothService w)) eqn:Hs; simpl.
    + by rewrite scanning_already.
    + by destruct (startDeviceScan env) as [[]|?].
  - simpl. destruct (isScanning (bluetoothService w)) eqn:Hs; simpl.
    + by rewrite scanning_already.
    + by destruct (startDeviceScan env) as [[]|?].
Qed.

Lemma wifiDirect_isAvailable_outcome w :
  wifiDirect_isAvailable env w
  = (Normal (wifiDirectReportsAvailable env w),
     if isInitialized (wifiDirectService w) then log_query w else w).
Proof.
  unfold wifiDirect_isAvailable, wifiDirectReportsAvailable, native_isAvailable,
    try_catch, await, ret, throw.
  destruct (isInitialized (wifiDirectService w)); simpl; [|done].
  by destruct (module_isAvailable env (availabilityQueries w)).
Qed.

Lemma wifiDirect_startDiscovery_outcome w :
  isInitialized (wifiDirectService w) = true →
  match module_isAvailable env (availabilityQueries w),
        module_requestPermissions env,
        module_startDiscovery env with
  | Fulfilled true, Fulfilled true, Fulfilled _ =>
      wifiDirect_startDiscovery env w
      = (Normal true, with_wifiDirect (set_isDiscovering true) (log_query w))
  | _, _, _ =>
      ∃ error,
        wifiDirect_startDiscovery env w
        = (Throw error, with_wifiDirect (set_isDiscovering false) (log_query w))
  end.
Proof.
  intros Hinit.
  destruct (module_isAvailable env (availabilityQueries w)) as [[]|e0] eqn:Ha;
    destruct (module_requestPermissions env) as [[]|e1] eqn:Hp;
    destruct (module_startDiscovery env) as [[]|e2] eqn:Hs;
    try eexists;
    unfold wifiDirect_startDiscovery, wifiDirect_isAvailable, native_isAvailable,
      wifiDirect_requestPermissions, try_catch, bind, await, ret, throw;
    repeat (first [rewrite Hinit | rewrite Ha | rewrite Hp | rewrite Hs]; simpl);
    reflexivity.
Qed.

Lemma startNetworking_run w :
  startNetworking env w =
  let wb := with_bluetooth (set_isScanning (scanStarts env w)) w in
  if wifiDirectReportsAvailable env w then
    match wifiDirect_startDiscovery env (log_query wb) with
    | (Normal _, wd) => (Normal true, log_events [networkingStarted true true] wd)
    | (Throw error, wd) => (Normal false, log_events [networkingError error] wd)
    end
  else
    (Normal true,
     log_events [networkingStarted true false]
       (if isInitialized (wifiDirectService w) then log_query wb else wb)).
Proof.
  unfold startNetworking, try_catch. unfold bind at 1.
  rewrite bluetooth_startScan_outcome. cbv zeta.
  set (wb := with_bluetooth (set_isScanning (scanStarts env w)) w).
  unfold bind at 1. rewrite wifiDirect_isAvailable_outcome.
  change (wifiDirectReportsAvailable env wb)
    with (wifiDirectReportsAvailable env w).
  change (isInitialized (wifiDirectService wb))
    with (isInitialized (wifiDirectService w)).
  destruct (wifiDirectReportsAvailable env w) eqn:Hav.
  - assert (Hinit : isInitialized (wifiDirectService w) = true).
    { unfold wifiDirectReportsAvailable in Hav.
      by apply andb_prop in Hav as [? ?]. }
    rewrite Hinit. unfold when, bind.
    by destruct (wifiDirect_startDiscovery env (log_query wb)) as [[|] ?].
  - reflexivity.
Qed.

(** C6, as amended.  Whether the Bluetooth scan started or failed,
    [startNetworking] emits exactly one event.  When WiFi Direct reports
    itself unavailable it returns true and emits [networkingStarted] with
    the map [{bluetooth: true, wifiDirect: false}]; when WiFi Direct
    reports itself available and its discovery starts it returns true and
    emits [networkingStarted] with [{bluetooth: true, wifiDirect: true}];
    when WiFi Direct reports itself available and its discovery fails to
    start it returns false and emits [networkingError]. *)
Theorem startNetworking_outcome w :
  ∃ w',
    isScanning (bluetoothService w') = scanStarts env w
    ∧ (wifiDirectReportsAvailable env w = false →
       startNetworking env w = (Normal true, w')
       ∧ emitted w' = emitted w ++ [networkingStarted true false])
    ∧ (wifiDirectReportsAvailable env w = true →
       discoveryStarts env w = true →
       startNetworking env w = (Normal true, w')
       ∧ emitted w' = emitted w ++ [networkingStarted true true])
    ∧ (wifiDirectReportsAvailable env w = true →
       discoveryStarts env w = false →
       ∃ error,
         startNetworking env w = (Normal false, w')
         ∧ emitted w' = emitted w ++ [networkingError error]).
Proof.
  exists (startNetworking env w).2.
  rewrite startNetworking_run. cbv zeta.
  set (wb := with_bluetooth (set_isScanning (scanStarts env w)) w).
  destruct (wifiDirectReportsAvailable env w) eqn:Hav.
  - assert (Hinit : isInitialized (wifiDirectService w) = true).
    { unfold wifiDirectReportsAvailable in Hav.
      by apply andb_prop in Hav as [? ?]. }
    pose proof (wifiDirect_startDiscovery_outcome (log_query wb) Hinit) as Hd.
    change (availabilityQueries (log_query wb))
      with (S (availabilityQueries w)) in Hd.
    unfold discoveryStarts.
    destruct (module_isAvailable env (S (availabilityQueries w))) as [[]|e0];
      destruct (module_requestPermissions env) as [[]|e1];
      destruct (module_startDiscovery env) as [[]|e2];
      simpl in Hd;
      try (lazymatch type of Hd with ex _ => destruct Hd as [error Hd] end);
      rewrite Hd; simpl; split_and!; intros; try congruence; eauto.
  - simpl. split_and!; intros; try congruence.
    + by destruct (isInitialized (wifiDirectService w)).
    + split; [done|]. by destruct (isInitialized (wifiDirectService w)).
Qed.
End NetworkingClaims.

(** ** The session scenario: instances and counterexamples *)

(** C1 as stated fails.  In the session of user [u1] in group [g1], the
    uncached message [m1] tagged with group [g2], and the uncached message
    [m1] of type ['status'] in group [g1], are each delivered twice with
    identity set: no event at all is emitted, not exactly one. *)
Lemma dedup_exactly_one_fails :
  let foreign := with_groupId (Some "g2") chat_m1 in
  let status := with_type (Some "status") chat_m1 in
  let twice m :=
    run (handleMessageReceived demoEnv wifiDirect "n2" m)
      (run (handleMessageReceived demoEnv bluetooth "n1" m) session) in
  identitySet (mesh session) = true
  ∧ msg_id foreign = Some "m1"
  ∧ msg_id status = Some "m1"
  ∧ messages (mesh session) !! "m1" = None
  ∧ emitted (twice foreign) = emitted session
  ∧ emitted (twice status) = emitted session.
Proof. vm_compute. by split_and!. Qed.

Lemma handleMessageReceived_dedup_witness :
  ∃ w1,
    handleMessageReceived demoEnv bluetooth "n1" chat_m1 session = (Normal tt, w1)
    ∧ handleMessageReceived demoEnv wifiDirect "n2" chat_m1 w1 = (Normal tt, w1)
    ∧ emitted w1 = emitted session ++ [messageReceived "n1" chat_m1].
Proof.
  destruct (handleMessageReceived_dedup demoEnv bluetooth "n1" wifiDirect "n2"
              chat_m1 session "m1")
    as (w1 & evs & H1 & H2 & Hem & _ & Hkind);
    [by vm_compute | reflexivity | done | by vm_compute |].
  exists w1. split_and!; [done | done |].
  rewrite Hem. f_equal. by apply Hkind.
Defined.

(** C2 as stated fails.  The groupId field of this message is present (the
    empty string) and differs from the active group [g1], yet the message
    is delivered, cached and relayed to both nodes. *)
Lemma group_isolation_empty_groupId :
  let m := with_groupId (Some "") chat_m1 in
  let w' := run (handleMessageReceived demoEnv bluetooth "n1" m) session in
  msg_groupId m = Some ""
  ∧ groupId (mesh session) = Some "g1"
  ∧ emitted w' = emitted session ++ [messageReceived "n1" m]
  ∧ messages (mesh session) !! "m1" = None
  ∧ messages (mesh w') !! "m1" = Some {| entry_message := m; expires := 61004 |}
  ∧ addressee <$> drop (length (sendLog session)) (sendLog w')
    = [(bluetooth, "n1"); (wifiDirect, "n2")].
Proof. vm_compute. by split_and!. Qed.

Lemma handleMessageReceived_group_isolation_witness :
  handleMessageReceived demoEnv bluetooth "n1"
    (with_groupId (Some "g2") chat_m1) session
  = (Normal tt, session).
Proof.
  apply (handleMessageReceived_group_isolation demoEnv bluetooth "n1"
           (with_groupId (Some "g2") chat_m1) session "g2");
    [reflexivity | done | by vm_compute].
Defined.

Lemma handleMessageReceived_ttl_blocks_relay_witness :
  let expired := with_ttl (Some 50) chat_m1 in
  900 + 50 < relayNow demoEnv expired session
  ∧ ∃ w',
      handleMessageReceived demoEnv bluetooth "n1" expired session = (Normal tt, w')
      ∧ emitted w' = emitted session ++ [messageReceived "n1" expired]
      ∧ sendLog w' = sendLog session.
Proof.
  intros expired.
  assert (Hlate : 900 + 50 < relayNow demoEnv expired session) by (by vm_compute).
  split; [done|].
  destruct (handleMessageReceived_ttl_blocks_relay demoEnv bluetooth "n1"
              expired session)
    as (w' & evs & H & Hem & _ & Hacc & _ & Hexp & _).
  exists w'. split_and!; [done | |].
  - rewrite Hem, Hacc; [done | by vm_compute].
  - by apply (Hexp 900 50).
Defined.

(** C3 as stated fails.  The message has no identifier and its
    [timestamp + ttl] = 950 lies before every reading of the clock: it is
    in the scope of the claim, it is relayed to no one, and yet it is
    delivered twice, once per arrival, because nothing is cached for a
    message without identifier. *)
Lemma expired_message_without_id_is_delivered_twice :
  let expired := with_ttl (Some 50) chat_anonymous in
  let w1 := run (handleMessageReceived demoEnv bluetooth "n1" expired) session in
  let w2 := run (handleMessageReceived demoEnv wifiDirect "n2" expired) w1 in
  msg_timestamp expired = Some 900
  ∧ msg_ttl expired = Some 50
  ∧ 900 + 50 < relayNow demoEnv expired session
  ∧ emitted w2
    = emitted session
      ++ [messageReceived "n1" expired; messageReceived "n2" expired]
  ∧ sendLog w2 = sendLog session.
Proof. vm_compute. by split_and!. Qed.

(** C4 as stated fails.  The accepted message declares a ttl of 5000 and is
    processed at clock reading 1004; its cache entry expires at
    1004 + 60000, not at 1004 + 5000. *)
Lemma cache_expiry_ignores_message_ttl :
  let w' := run (handleMessageReceived demoEnv bluetooth "n1" chat_m1) session in
  msg_ttl chat_m1 = Some 5000
  ∧ Date_now demoEnv (clockReads session) = 1004
  ∧ messages (mesh session) !! "m1" = None
  ∧ messages (mesh w') !! "m1"
    = Some {| entry_message := chat_m1; expires := 61004 |}
  ∧ 61004 ≠ 1004 + 5000.
Proof. vm_compute. by split_and!. Qed.

Lemma handleMessageReceived_cache_expiry_witness :
  ∃ w',
    handleMessageReceived demoEnv bluetooth "n1" chat_m1 session = (Normal tt, w')
    ∧ messages (mesh w') !! "m1"
      = Some {| entry_message := chat_m1;
                expires := Date_now demoEnv (clockReads session) + 60000 |}.
Proof.
  apply (handleMessageReceived_cache_expiry demoEnv bluetooth "n1" chat_m1
           session "m1");
    [by vm_compute | by vm_compute | reflexivity | done | by vm_compute].
Defined.

(** C5 as stated fails.  Before [initialize], [broadcastMessage] completes
    normally: no NotInitialized error is raised. *)
Lemma broadcast_before_initialize_returns :
  identitySet (mesh boot) = false
  ∧ broadcastMessage demoEnv chat_m1 boot = (Normal tt, boot)
  ∧ ∀ error, (broadcastMessage demoEnv chat_m1 boot).1 ≠ Throw error.
Proof. vm_compute. by split_and!. Qed.

Lemma not_initialized_gate_witness :
  identitySet (mesh boot) = false
  ∧ sendMessage demoEnv "hi" boot
    = (Throw (Error "Mesh network not initialized"), boot)
  ∧ broadcastMessage demoEnv chat_m1 boot = (Normal tt, boot).
Proof.
  split; [reflexivity|].
  apply (not_initialized_gate demoEnv "hi" chat_m1 boot). reflexivity.
Defined.

(** C6 as stated fails.  Bluetooth permissions are granted and the scan
    starts; WiFi Direct reports itself available but is denied its
    permissions.  One adapter has started, yet [startNetworking] returns
    false and emits [networkingError], not [networkingStarted]. *)
Lemma partial_failure_is_reported_as_error :
  let w' := run (startNetworking demoEnv) boot in
  requestMultiple demoEnv = Fulfilled (true, true, true)
  ∧ startDeviceScan demoEnv = Fulfilled tt
  ∧ isScanning (bluetoothService w') = true
  ∧ module_requestPermissions demoEnv = Fulfilled false
  ∧ (startNetworking demoEnv boot).1 = Normal false
  ∧ emitted w'
    = [networkingError (Error "WiFi Direct permissions not granted")].
Proof. vm_compute. by split_and!. Qed.

Lemma startNetworking_outcome_witness :
  wifiDirectReportsAvailable demoEnv boot = true
  ∧ discoveryStarts demoEnv boot = false
  ∧ ∃ w' error,
      isScanning (bluetoothService w') = true
      ∧ startNetworking demoEnv boot = (Normal false, w')
      ∧ emitted w' = emitted boot ++ [networkingError error].
Proof.
  split; [reflexivity|]. split; [reflexivity|].
  destruct (startNetworking_outcome demoEnv boot) as (w' & Hscan & _ & _ & Hfail).
  destruct Hfail as (error & Hrun & Hem); [reflexivity | reflexivity |].
  exists w', error. split_and!; [|done|done].
  rewrite Hscan. reflexivity.
Defined.

Lemma sendMessage_postcondition_witness :
  let messageData :=
    {| msg_id := Some "u1-1004-k3j9x0q1z";
       msg_type := Some "message";
       msg_userId := Some "u1";
       msg_username := Some "Alice";
       msg_groupId := Some "g1";
       msg_content := Some "hi";
       msg_location := None;
       msg_timestamp := Some 1005;
       msg_ttl := Some 60000 |} in
  identitySet (mesh session) = true
  ∧ ∃ w' l,
      sendMessage demoEnv "hi" session = (Normal "u1-1004-k3j9x0q1z", w')
      ∧ messages (mesh w') !! "u1-1004-k3j9x0q1z"
        = Some {| entry_message := messageData; expires := 1006 + 60000 |}
      ∧ sendLog w' = sendLog session ++ l
      ∧ length l = 2%nat
      ∧ Forall (λ a, payload a = messageData) l
      ∧ emitted w' = emitted session ++ [messageSent messageData].
Proof.
  intros messageData.
  assert (Hid : identitySet (mesh session) = true) by (by vm_compute).
  split; [done|].
  destruct (sendMessage_postcondition demoEnv "hi" session Hid)
    as (w' & l & Hrun & Hcache & Hlog & Hlen & _ & Hpay & Hem & _).
  exists w', l. split_and!.
  - etrans; [exact Hrun|]. by vm_compute.
  - etrans; [|etrans; [exact Hcache|]]; by vm_compute.
  - done.
  - etrans; [exact Hlen|]. by vm_compute.
  - eapply Forall_impl; [exact Hpay|]. intros a ->. by vm_compute.
  - etrans; [exact Hem|]. by vm_compute.
Defined.

Lemma broadcastMessage_fan_out_witness :
  identitySet (mesh session) = true
  ∧ ∃ w' l,
      broadcastMessage demoEnv chat_m1 session = (Normal tt, w')
      ∧ sendLog w' = sendLog session ++ l
      ∧ length l = 2%nat
      ∧ addressee <$> l = [(bluetooth, "n1"); (wifiDirect, "n2")].
Proof.
  assert (Hid : identitySet (mesh session) = true) by (by vm_compute).
  split; [done|].
  destruct (broadcastMessage_fan_out demoEnv chat_m1 session Hid)
    as (w' & l & Hrun & Hlog & Hlen & _ & Hord & _).
  exists w', l. split_and!; [done | done | |].
  - etrans; [exact Hlen|]. by vm_compute.
  - etrans; [exact Hord|]. by vm_compute.
Defined.

(** C7 as stated fails.  Two sends of user [u1] within one millisecond
    that draw the same random suffix get the same identifier: it is not
    fresh, and the second message takes the cache entry of the first. *)
Lemma sendMessage_identifier_is_not_always_fresh :
  let w1 := run (sendMessage frozenEnv "hi") session in
  let w2 := run (sendMessage frozenEnv "again") w1 in
  identitySet (mesh session) = true
  ∧ (sendMessage frozenEnv "hi" session).1 = Normal "u1-1000-k3j9x0q1z"
  ∧ (sendMessage frozenEnv "again" w1).1 = Normal "u1-1000-k3j9x0q1z"
  ∧ (msg_content ∘ entry_message <$> messages (mesh w1) !! "u1-1000-k3j9x0q1z")
    = Some (Some "hi")
  ∧ (msg_content ∘ entry_message <$> messages (mesh w2) !! "u1-1000-k3j9x0q1z")
    = Some (Some "again")
  ∧ size (messages (mesh w2)) = 1%nat.
Proof. vm_compute. by split_and!. Qed.




(** ** The node registry *)

Section JsMapFacts.
Context {V : Type}.
Implicit Types (m : list (string * V)) (k : string) (v : V).

Lemma Map_get_set_eq k v m : Map_get k (Map_set k v m) = Some v.
Proof.
  induction m as [|[k' v'] m IH]; csimpl.
  - by rewrite decide_True.
  - case_decide; csimpl; [by rewrite decide_True|]. by rewrite decide_False.
Qed.

Lemma Map_get_set_ne k k' v m : k ≠ k' → Map_get k' (Map_set k v m) = Map_get k' m.
Proof.
  intros Hne. induction m as [|[k0 v0] m IH]; csimpl.
  - by rewrite decide_False.
  - case_decide as H0; csimpl.
    + subst k0. by rewrite !decide_False.
    + case_decide; [done|]. exact IH.
Qed.

Lemma Map_set_keys_new k v m : k ∉ m.*1 → (Map_set k v m).*1 = m.*1 ++ [k].
Proof.
  induction m as [|[k' v'] m IH]; csimpl; [done|].
  intros Hk. apply not_elem_of_cons in Hk as [Hne Hk].
  rewrite decide_False by done. csimpl. by rewrite IH.
Qed.

Lemma Map_set_keys_old k v m : k ∈ m.*1 → (Map_set k v m).*1 = m.*1.
Proof.
  induction m as [|[k' v'] m IH]; csimpl; [by intros ?%elem_of_nil|].
  intros Hk. case_decide as H0; csimpl; [by subst|].
  apply elem_of_cons in Hk as [->|Hk]; [done|]. by rewrite IH.
Qed.

Lemma Map_set_NoDup k v m : NoDup m.*1 → NoDup (Map_set k v m).*1.
Proof.
  intros Hnd. destruct (decide (k ∈ m.*1)).
  - by rewrite Map_set_keys_old.
  - rewrite Map_set_keys_new by done.
    apply NoDup_app. split_and!; [done| |apply NoDup_singleton].
    intros x Hx ->%list_elem_of_singleton. done.
Qed.

Lemma Map_has_true k m : Map_has k m = true ↔ k ∈ m.*1.
Proof. unfold Map_has. apply bool_decide_eq_true. Qed.

Lemma Map_has_get k m : Map_has k m = true ↔ is_Some (Map_get k m).
Proof.
  rewrite Map_has_true. induction m as [|[k' v'] m IH]; csimpl.
  - split; [by intros ?%elem_of_nil|by intros [? ?]].
  - case_decide as H0.
    + subst. split; [eauto|]. intros _. apply elem_of_cons. by left.
    + rewrite <- IH. rewrite elem_of_cons. split; [by intros [?|?]|by right].
Qed.

Lemma Map_get_delete_eq k m : Map_get k (Map_delete k m) = None.
Proof.
  unfold Map_delete. induction m as [|[k' v'] m IH]; csimpl; [done|].
  rewrite filter_cons. csimpl. destruct (decide (k' ≠ k)); csimpl; [|done].
  by rewrite decide_False.
Qed.

Lemma Map_get_delete_ne k k' m : k ≠ k' → Map_get k' (Map_delete k m) = Map_get k' m.
Proof.
  intros Hne. unfold Map_delete. induction m as [|[k0 v0] m IH]; csimpl; [done|].
  rewrite filter_cons. csimpl. destruct (decide (k0 ≠ k)) as [H0|H0]; csimpl.
  - by rewrite IH.
  - apply dec_stable in H0. subst k0. by rewrite decide_False.
Qed.

Lemma Map_delete_absent k m : k ∉ m.*1 → Map_delete k m = m.
Proof.
  unfold Map_delete. induction m as [|[k' v'] m IH]; csimpl; [done|].
  intros Hk. apply not_elem_of_cons in Hk as [Hne Hk].
  rewrite filter_cons. csimpl. rewrite decide_True by done. by rewrite IH.
Qed.

Lemma Map_delete_set_new k v m : k ∉ m.*1 → Map_delete k (Map_set k v m) = m.
Proof.
  induction m as [|[k' v'] m IH]; csimpl.
  - intros _. unfold Map_delete. rewrite filter_cons. csimpl.
    by rewrite decide_False by (by intros H; apply H).
  - intros Hk. apply not_elem_of_cons in Hk as [Hne Hk].
    rewrite decide_False by done. unfold Map_delete. rewrite filter_cons. csimpl.
    rewrite decide_True by done. f_equal. by apply IH.
Qed.

Lemma Map_delete_keys k m : (Map_delete k m).*1 = filter (λ x, x ≠ k) m.*1.
Proof.
  unfold Map_delete. induction m as [|[k' v'] m IH]; csimpl; [done|].
  rewrite !filter_cons. csimpl. destruct (decide (k' ≠ k)); csimpl; by rewrite IH.
Qed.

Lemma Map_delete_NoDup k m : NoDup m.*1 → NoDup (Map_delete k m).*1.
Proof. rewrite Map_delete_keys. apply NoDup_filter. Qed.
End JsMapFacts.

Lemma Map_set_length {V} k (v : V) m :
  length (Map_set k v m) = if Map_has k m then length m else S (length m).
Proof.
  rewrite <- !(length_fmap fst). unfold Map_has. case_bool_decide.
  - by rewrite Map_set_keys_old.
  - rewrite Map_set_keys_new by done. rewrite length_app. simpl. lia.
Qed.

Section Registry.
Variable env : Env.

Lemma sendVia_step type nodeId message w :
  ∃ p, sendVia env type nodeId message w
       = (Normal tt,
          log_sends [ {| via := type; target := nodeId;
                         payload := message; settled := p |} ] w).
Proof. apply send_step. Qed.

Lemma handleNodeConnected_effect type nodeId info w :
  ∃ l w',
    handleNodeConnected env type nodeId info w = (Normal tt, w')
    ∧ mesh w'
      = set_nodes (Map_set nodeId
                     {| node_type := type; node_info := info;
                        connectedAt := Date_now env (clockReads w) |}
                     (nodes (mesh w))) (mesh w)
    ∧ bluetoothService w' = bluetoothService w
    ∧ wifiDirectService w' = wifiDirectService w
    ∧ emitted w' = emitted w ++ [nodeConnected type nodeId info]
    ∧ sendLog w' = sendLog w ++ l
    ∧ Forall (λ a, addressee a = (type, nodeId)) l
    ∧ payload <$> l
      = (if identitySet (mesh w) then
           userInfoMessage (mesh w) (Date_now env (S (clockReads w)))
           :: (if truthy (location (mesh w))
               then [locationMessage (mesh w) (location (mesh w))
                       (Date_now env (S (S (clockReads w))))]
               else [])
         else []).
Proof.
  unfold handleNodeConnected.
  unfold bind at 1, DateNow. unfold bind at 1, update.
  unfold bind at 1, notifyListeners. unfold bind at 1, this_.
  cbn [mesh with_mesh clockReads emitted sendLog].
  set (this' := set_nodes _ (mesh w)).
  change (userId this') with (userId (mesh w)).
  change (groupId this') with (groupId (mesh w)).
  change (username this') with (username (mesh w)).
  change (location this') with (location (mesh w)).
  fold (identitySet (mesh w)).
  destruct (identitySet (mesh w)) eqn:Hid; unfold when.
  - unfold bind at 1. cbn [clockReads].
    unfold bind at 1.
    match goal with |- context [sendVia env type nodeId ?m ?ww] =>
      destruct (sendVia_step type nodeId m ww) as [p Hp]; rewrite Hp end.
    destruct (truthy (location (mesh w))).
    + unfold bind at 1. cbn [clockReads log_sends].
      match goal with |- context [sendVia env type nodeId ?m ?ww] =>
        destruct (sendVia_step type nodeId m ww) as [q Hq]; rewrite Hq end.
      eexists [ {| via := type; target := nodeId; payload := _; settled := p |};
                {| via := type; target := nodeId; payload := _; settled := q |} ], _.
      split; [reflexivity|].
      cbn. split_and!; try reflexivity.
      * by rewrite <- app_assoc.
      * by repeat constructor.
    + eexists [ {| via := type; target := nodeId; payload := _; settled := p |} ], _.
      split; [reflexivity|]. cbn. split_and!; try done. by repeat constructor.
  - eexists [], _. split; [reflexivity|]. cbn. rewrite app_nil_r. by split_and!.
Qed.
End Registry.

Section RegistryFacts.
Variable env : Env.

(** X1. [handleNodeConnected] always returns normally and emits exactly
    one [nodeConnected] event for the node.  With identity set it greets
    the new node, and only that node, over the node's own transport: first
    a [userInfo] message, then, when a location is known, a [location]
    message; with identity unset it sends nothing.  The greeting is not
    cached. *)
Theorem handleNodeConnected_greets type nodeId info w :
  ∃ w' l,
    handleNodeConnected env type nodeId info w = (Normal tt, w')
    ∧ emitted w' = emitted w ++ [nodeConnected type nodeId info]
    ∧ messages (mesh w') = messages (mesh w)
    ∧ sendLog w' = sendLog w ++ l
    ∧ Forall (λ a, addressee a = (type, nodeId)) l
    ∧ payload <$> l
      = (if identitySet (mesh w) then
           userInfoMessage (mesh w) (Date_now env (S (clockReads w)))
           :: (if truthy (location (mesh w))
               then [locationMessage (mesh w) (location (mesh w))
                       (Date_now env (S (S (clockReads w))))]
               else [])
         else []).
Proof.
  destruct (handleNodeConnected_effect env type nodeId info w)
    as (l & w' & H & Hmesh & _ & _ & Hem & Hlog & Haddr & Hpay).
  exists w', l. split_and!; try done. by rewrite Hmesh.
Qed.

(** X2. After [handleNodeConnected] the registry holds the node under
    its identifier with the given transport and info, stamped with the
    [Date.now()] reading of the call; every other entry is as before, and
    the registry grows by one exactly when the identifier was new: a
    reconnecting node replaces its entry. *)
Theorem handleNodeConnected_registers type nodeId info w :
  ∃ w',
    handleNodeConnected env type nodeId info w = (Normal tt, w')
    ∧ Map_get nodeId (nodes (mesh w'))
      = Some {| node_type := type; node_info := info;
                connectedAt := Date_now env (clockReads w) |}
    ∧ (∀ k, k ≠ nodeId →
            Map_get k (nodes (mesh w')) = Map_get k (nodes (mesh w)))
    ∧ (NoDup (nodes (mesh w)).*1 → NoDup (nodes (mesh w')).*1)
    ∧ length (nodes (mesh w'))
      = (if Map_has nodeId (nodes (mesh w)) then length (nodes (mesh w))
         else S (length (nodes (mesh w)))).
Proof.
  destruct (handleNodeConnected_effect env type nodeId info w)
    as (l & w' & H & Hmesh & _).
  exists w'. rewrite Hmesh. cbn [nodes set_nodes]. split_and!; [done|..].
  - apply Map_get_set_eq.
  - intros k Hk. by apply Map_get_set_ne.
  - apply Map_set_NoDup.
  - apply Map_set_length.
Qed.

Lemma handleNodeDisconnected_effect type nodeId w :
  handleNodeDisconnected type nodeId w =
  if Map_has nodeId (nodes (mesh w)) then
    (Normal tt,
     log_events [nodeDisconnected type nodeId]
       (with_mesh (λ this, set_nodes (Map_delete nodeId (nodes this)) this) w))
  else (Normal tt, w).
Proof.
  unfold handleNodeDisconnected, bind, this_, when.
  by destruct (Map_has nodeId (nodes (mesh w))).
Qed.

(** X3. [handleNodeDisconnected] removes the node from the registry and
    leaves every other node, the cache and the adapters' send log alone.
    It emits [nodeDisconnected] exactly when the node was registered; for
    an unknown node nothing at all changes. *)
Theorem handleNodeDisconnected_removes type nodeId w :
  ∃ w',
    handleNodeDisconnected type nodeId w = (Normal tt, w')
    ∧ Map_get nodeId (nodes (mesh w')) = None
    ∧ (∀ k, k ≠ nodeId →
            Map_get k (nodes (mesh w')) = Map_get k (nodes (mesh w)))
    ∧ (NoDup (nodes (mesh w)).*1 → NoDup (nodes (mesh w')).*1)
    ∧ messages (mesh w') = messages (mesh w)
    ∧ sendLog w' = sendLog w
    ∧ (if Map_has nodeId (nodes (mesh w))
       then emitted w' = emitted w ++ [nodeDisconnected type nodeId]
       else w' = w).
Proof.
  rewrite handleNodeDisconnected_effect.
  destruct (Map_has nodeId (nodes (mesh w))) eqn:Hhas.
  - eexists. split; [reflexivity|]. cbn. split_and!; try done.
    + apply Map_get_delete_eq.
    + intros k Hk. by apply Map_get_delete_ne.
    + apply Map_delete_NoDup.
  - exists w. split_and!; try done.
    destruct (Map_get nodeId (nodes (mesh w))) eqn:Hget; [|done].
    assert (Map_has nodeId (nodes (mesh w)) = true) by (apply Map_has_get; eauto).
    congruence.
Qed.

(** X4. Connecting a node that was not registered and then
    disconnecting it gives back the registry as it was, whatever transport
    the disconnection names: [handleNodeDisconnected] never looks at its
    [type] argument to find the entry. *)
Theorem connect_disconnect_round_trip type type' nodeId info w :
  Map_has nodeId (nodes (mesh w)) = false →
  nodes (mesh (run (handleNodeDisconnected type' nodeId)
                 (run (handleNodeConnected env type nodeId info) w)))
  = nodes (mesh w).
Proof.
  intros Hnew.
  destruct (handleNodeConnected_effect env type nodeId info w)
    as (l & w' & H & Hmesh & _).
  unfold run at 2. rewrite H. cbn [snd].
  unfold run. rewrite handleNodeDisconnected_effect, Hmesh. cbn [nodes set_nodes].
  assert (Hhas : Map_has nodeId (Map_set nodeId
            {| node_type := type; node_info := info;
               connectedAt := Date_now env (clockReads w) |} (nodes (mesh w))) = true).
  { apply Map_has_get. rewrite Map_get_set_eq. eauto. }
  rewrite Hhas. cbn. rewrite Hmesh. cbn.
  apply Map_delete_set_new.
  intros Hin. apply Map_has_true in Hin. congruence.
Qed.

(** X5. Once a node is disconnected, a broadcast addresses no send
    to it. *)
Theorem disconnected_node_not_addressed type nodeId message w :
  identitySet (mesh w) = true →
  ∃ w1 w2 l,
    handleNodeDisconnected type nodeId w = (Normal tt, w1)
    ∧ broadcastMessage env message w1 = (Normal tt, w2)
    ∧ sendLog w2 = sendLog w ++ l
    ∧ Forall (λ a, target a ≠ nodeId) l.
Proof.
  intros Hid. rewrite handleNodeDisconnected_effect.
  assert (∀ w1,
    identitySet (mesh w1) = true → nodeId ∉ (nodes (mesh w1)).*1 →
    ∃ w2 l, broadcastMessage env message w1 = (Normal tt, w2)
            ∧ sendLog w2 = sendLog w1 ++ l
            ∧ Forall (λ a, target a ≠ nodeId) l) as Hb.
  { intros w1 Hid1 Habs.
    destruct (broadcastMessage_effect env message w1 Hid1)
      as (l & w1' & H & Ha & _ & Hw1').
    exists (log_sends l w1'), l. split_and!; [done| |].
    - subst w1'. unfold cached.
      destruct (_ && _); [|done]. by destruct (truthy (msg_id message)).
    - apply Forall_forall. intros a Hin Heq.
      apply (list_elem_of_fmap_2 addressee) in Hin. rewrite Ha in Hin.
      apply list_elem_of_fmap in Hin as ([k nd] & Hak & Hin).
      rewrite (fanoutOrder_all (nodes (mesh w1))) in Hin.
      apply Habs. apply list_elem_of_fmap. exists (k, nd). split; [|done].
      unfold addressee, reached in Hak. simpl in *. congruence. }
  destruct (Map_has nodeId (nodes (mesh w))) eqn:Hhas.
  - set (w1 := log_events _ _).
    destruct (Hb w1) as (w2 & l & H2 & Hl & Hf).
    + by destruct w as [[]].
    + cbn. rewrite Map_delete_keys. intros Hin.
      apply list_elem_of_filter in Hin as [? _]. done.
    + by exists w1, w2, l.
  - destruct (Hb w) as (w2 & l & H2 & Hl & Hf); [done| |by exists w, w2, l].
    intros Hin. apply Map_has_true in Hin. congruence.
Qed.
End RegistryFacts.

(** ** The message cache *)

Section CacheFacts.
Variable env : Env.

Lemma cleanupMessages_effect w :
  cleanupMessages env w =
  (Normal tt,
   with_mesh (λ this,
     set_messages
       (filter (λ kv, ¬ (expires kv.2 ≠ 0
                         ∧ expires kv.2 < Date_now env (clockReads w)))
               (messages this)) this) (log_time w)).
Proof. reflexivity. Qed.

(** X6. [cleanupMessages] takes one reading of the clock and keeps
    exactly the cache entries that have not expired at that reading: an
    entry goes when its [expires] is non-zero and strictly less than now.
    Nodes, identity, events and sends are untouched. *)
Theorem cleanupMessages_sweeps w :
  ∃ w',
    cleanupMessages env w = (Normal tt, w')
    ∧ (∀ i e,
         messages (mesh w') !! i = Some e
         ↔ messages (mesh w) !! i = Some e
           ∧ ¬ (expires e ≠ 0 ∧ expires e < Date_now env (clockReads w)))
    ∧ nodes (mesh w') = nodes (mesh w)
    ∧ identitySet (mesh w') = identitySet (mesh w)
    ∧ emitted w' = emitted w
    ∧ sendLog w' = sendLog w.
Proof.
  rewrite cleanupMessages_effect. eexists. split; [reflexivity|].
  cbn. split_and!; try done.
  intros i e. by rewrite map_lookup_filter_Some.
Qed.

(** The mesh after an accepted message: the same engine with at most one
    more cache entry, under a key that was free. *)
Lemma cached_mesh message w :
  accepts message (mesh w) = true →
  mesh (cached env message w)
  = (if truthy (msg_id message)
     then messages_set (msg_id message)
            {| entry_message := message;
               expires := Date_now env (clockReads w) + messageTimeout |} (mesh w)
     else mesh w).
Proof. intros _. unfold cached. by destruct (truthy (msg_id message)). Qed.



(** X8. Deduplication holds as long as the cache entry lives.  After a
    fresh message is accepted and [cleanupMessages] runs, a further copy is
    dropped without any effect when the sweep read a time not after the
    entry's expiry; when the sweep read a later time the entry is gone, and
    a further copy is accepted and delivered again. *)
Theorem dedup_lasts_until_swept type1 nodeId1 message w i :
  identitySet (mesh w) = true →
  passesGroupCheck message (mesh w) = true →
  msg_id message = Some i →
  i ≠ "" →
  messages (mesh w) !! i = None →
  ∃ w1 w2,
    handleMessageReceived env type1 nodeId1 message w = (Normal tt, w1)
    ∧ cleanupMessages env w1 = (Normal tt, w2)
    ∧ (Date_now env (clockReads w) + 60000 = 0
       ∨ Date_now env (clockReads w1) ≤ Date_now env (clockReads w) + 60000 →
       ∀ type nodeId,
         handleMessageReceived env type nodeId message w2 = (Normal tt, w2))
    ∧ (Date_now env (clockReads w) + 60000 ≠ 0 →
       Date_now env (clockReads w) + 60000 < Date_now env (clockReads w1) →
       ∀ type nodeId,
         ∃ w3,
           handleMessageReceived env type nodeId message w2 = (Normal tt, w3)
           ∧ emitted w3 = emitted w2 ++ delivery nodeId message).
Proof.
  intros Hid Hg Hi Hne Hfresh.
  assert (Hacc : accepts message (mesh w) = true) by (by eapply accepts_fresh).
  destruct (handleMessageReceived_accepted env type1 nodeId1 message w Hacc)
    as (l & w1 & H1 & Hmesh & _).
  exists w1. rewrite cleanupMessages_effect. eexists. split_and!; [done|reflexivity|..].
  - intros Hkeep type nodeId. apply handleMessageReceived_rejected.
    eapply accepts_cached; [done..|]. cbn.
    apply map_lookup_filter_Some. split.
    + rewrite Hmesh. by apply cached_lookup.
    + cbn. change messageTimeout with 60000. lia.
  - intros Hnz Hlate type nodeId.
    match goal with |- context [handleMessageReceived _ _ _ _ ?ww] => set (w2 := ww) end.
    assert (Hacc2 : accepts message (mesh w2) = true).
    { eapply accepts_fresh; [| |done|].
      - unfold w2. cbn. rewrite Hmesh.
        change (identitySet (mesh (cached env message w)) = true).
        by rewrite cached_identity.
      - unfold passesGroupCheck, w2. cbn. rewrite Hmesh.
        change (groupId _) with (groupId (mesh (cached env message w))).
        rewrite cached_groupId. exact Hg.
      - unfold w2. cbn. apply map_lookup_filter_None. right.
        intros e He. rewrite Hmesh, (cached_lookup env message w i) in He by done.
        injection He as <-. cbn. change messageTimeout with 60000.
        intros Hn. apply Hn. lia. }
    destruct (handleMessageReceived_accepted env type nodeId message w2 Hacc2)
      as (l3 & w3 & H3 & _ & Hem3 & _).
    by exists w3.
Qed.
End CacheFacts.

(** ** Sending *)

Section SenderFacts.
Variable env : Env.

Lemma sendMessage_effect content w :
  identitySet (mesh w) = true →
  ∃ w' l i,
    msg_id (chatMessage env content w) = Some i ∧ i ≠ ""
    ∧ sendMessage env content w = (Normal i, w')
    ∧ mesh w'
      = set_messages
          (<[i := {| entry_message := chatMessage env content w;
                     expires := Date_now env (S (S (clockReads w)))
                                + messageTimeout |}]> (messages (mesh w)))
          (mesh w)
    ∧ sendLog w' = sendLog w ++ l
    ∧ addressee <$> l = reached <$> fanoutOrder (nodes (mesh w))
    ∧ Forall (λ a, payload a = chatMessage env content w) l
    ∧ emitted w' = emitted w ++ [messageSent (chatMessage env content w)].
Proof.
  intros Hid.
  assert (Htr : truthy (msg_id (chatMessage env content w)) = true).
  { apply truthy_toString. unfold identitySet in Hid.
    by apply andb_prop in Hid as [? ?]. }
  unfold sendMessage. unfold bind at 1, this_.
  rewrite (identitySet_guard _ Hid).
  unfold bind at 1, DateNow. unfold bind at 1, randomSuffix.
  unfold bind at 1. cbn [clockReads randomDraws mesh].
  fold (chatMessage env content w).
  unfold bind at 1. cbn [clockReads].
  unfold bind at 1, update.
  set (wA := with_mesh _ _).
  assert (HidA : identitySet (mesh wA) = true) by (by destruct w as [[]]).
  destruct (broadcastMessage_effect env (chatMessage env content w) wA HidA)
    as (l & w1 & H & Ha & Hp & Hw1).
  assert (HhasA : messages_has (msg_id (chatMessage env content w)) (mesh wA) = true).
  { unfold wA. cbn [mesh with_mesh]. by apply messages_has_set. }
  rewrite HhasA, andb_false_r in Hw1. subst w1.
  unfold bind at 1. rewrite H. unfold bind, notifyListeners, ret.
  eexists _, l, _. split_and!; try done.
  apply bool_decide_eq_true in Htr. exact Htr.
Qed.

Lemma foreign_rejected type nodeId message w :
  truthy (msg_groupId message) = true →
  msg_groupId message ≠ groupId (mesh w) →
  handleMessageReceived env type nodeId message w = (Normal tt, w).
Proof.
  intros Ht Hne. apply handleMessageReceived_rejected.
  unfold accepts, passesGroupCheck. rewrite Ht.
  rewrite bool_decide_eq_true_2 by done. simpl. by rewrite andb_false_r.
Qed.

(** X9. A message the engine has sent itself is dropped without any
    effect when a neighbour relays it back: [sendMessage] has cached it
    under its id. *)
Theorem own_echo_ignored content w type nodeId :
  identitySet (mesh w) = true →
  ∃ i w',
    sendMessage env content w = (Normal i, w')
    ∧ handleMessageReceived env type nodeId (chatMessage env content w) w'
      = (Normal tt, w').
Proof.
  intros Hid.
  destruct (sendMessage_effect content w Hid)
    as (w' & l & i & Hi & Hne & H & Hmesh & _).
  exists i, w'. split; [done|].
  apply handleMessageReceived_rejected.
  eapply accepts_cached; [done..|]. rewrite Hmesh. cbn. apply lookup_insert_eq.
Qed.

Lemma updateLocation_effect loc w :
  ∃ w' l,
    updateLocation env loc w = (Normal tt, w')
    ∧ mesh w' = set_location loc (mesh w)
    ∧ emitted w' = emitted w ++ [locationUpdated (userId (mesh w)) loc]
    ∧ sendLog w' = sendLog w ++ l
    ∧ Forall (λ a, payload a
                   = locationMessage (mesh w) loc (Date_now env (clockReads w))) l
    ∧ (if identitySet (mesh w)
       then addressee <$> l = reached <$> fanoutOrder (nodes (mesh w))
       else l = []).
Proof.
  unfold updateLocation. unfold bind at 1, update.
  unfold bind at 1, this_. unfold bind at 1, DateNow.
  cbn [mesh with_mesh clockReads].
  change (userId (set_location loc (mesh w))) with (userId (mesh w)).
  change (groupId (set_location loc (mesh w))) with (groupId (mesh w)).
  change (username (set_location loc (mesh w))) with (username (mesh w)).
  fold (locationMessage (mesh w) loc (Date_now env (clockReads w))).
  match goal with |- context [bind (broadcastMessage env _) _ ?ww] => set (wA := ww) end.
  destruct (identitySet (mesh w)) eqn:Hid.
  - assert (HidA : identitySet (mesh wA) = true) by (by destruct w as [[]]).
    destruct (broadcastMessage_effect env
                (locationMessage (mesh w) loc (Date_now env (clockReads w))) wA HidA)
      as (l & w1 & H & Ha & Hp & Hw1).
    cbn in Hw1. subst w1.
    unfold bind. rewrite H. unfold notifyListeners.
    eexists _, l. split_and!; try done.
  - assert (Hb : broadcastMessage env
                   (locationMessage (mesh w) loc (Date_now env (clockReads w))) wA
                 = (Normal tt, wA)).
    { unfold broadcastMessage, bind, this_.
      change (userId (mesh wA)) with (userId (mesh w)).
      change (groupId (mesh wA)) with (groupId (mesh w)).
      by rewrite (identityUnset_guard _ Hid). }
    unfold bind. rewrite Hb. unfold notifyListeners.
    eexists _, []. split_and!; try done. cbn. by rewrite app_nil_r.
Qed.

(** X10. [updateLocation] stores the location, emits one
    [locationUpdated] event and, with identity set, addresses one
    [location] message, stamped with the reading of the call and carrying
    the new location, to every registered node; the message has no id and
    is not cached.  With identity unset the location is stored, the event
    is emitted and nothing is sent. *)
Theorem updateLocation_broadcasts loc w :
  ∃ w' l,
    updateLocation env loc w = (Normal tt, w')
    ∧ location (mesh w') = loc
    ∧ messages (mesh w') = messages (mesh w)
    ∧ nodes (mesh w') = nodes (mesh w)
    ∧ emitted w' = emitted w ++ [locationUpdated (userId (mesh w)) loc]
    ∧ sendLog w' = sendLog w ++ l
    ∧ Forall (λ a, payload a
                   = locationMessage (mesh w) loc (Date_now env (clockReads w))) l
    ∧ (if identitySet (mesh w)
       then addressee <$> l ≡ₚ reached <$> nodes (mesh w)
       else l = []).
Proof.
  destruct (updateLocation_effect loc w) as (w' & l & H & Hmesh & Hem & Hlog & Hp & Hl).
  exists w', l. rewrite Hmesh. split_and!; try done.
  destruct (identitySet (mesh w)); [|done].
  rewrite Hl. apply fmap_Permutation, fanoutOrder_all.
Qed.

(** X11. A message without an id (or with an empty one) is never
    deduplicated: two arrivals of the same accepted message are both
    delivered, and the cache is left as it was. *)
Theorem unidentified_messages_redelivered type1 nodeId1 type2 nodeId2 message w :
  truthy (msg_id message) = false →
  accepts message (mesh w) = true →
  ∃ w1 w2,
    handleMessageReceived env type1 nodeId1 message w = (Normal tt, w1)
    ∧ handleMessageReceived env type2 nodeId2 message w1 = (Normal tt, w2)
    ∧ messages (mesh w2) = messages (mesh w)
    ∧ emitted w2
      = emitted w ++ delivery nodeId1 message ++ delivery nodeId2 message.
Proof.
  intros Hno Hacc.
  destruct (handleMessageReceived_accepted env type1 nodeId1 message w Hacc)
    as (l1 & w1 & H1 & Hmesh1 & Hem1 & _).
  rewrite cached_mesh, Hno in Hmesh1 by done.
  assert (Hacc1 : accepts message (mesh w1) = true) by (by rewrite Hmesh1).
  destruct (handleMessageReceived_accepted env type2 nodeId2 message w1 Hacc1)
    as (l2 & w2 & H2 & Hmesh2 & Hem2 & _).
  rewrite cached_mesh, Hno in Hmesh2 by done.
  exists w1, w2. split_and!; try done.
  - by rewrite Hmesh2, Hmesh1.
  - by rewrite Hem2, Hem1, app_assoc.
Qed.

(** X12. With identity set, [broadcastMessage] emits no event, keeps
    every cache entry, and caches the message under its id only when that
    id is non-empty and absent, with expiry one minute after the reading of
    the call; a message without id leaves the cache alone. *)
Theorem broadcastMessage_caches_once message w :
  identitySet (mesh w) = true →
  ∃ w',
    broadcastMessage env message w = (Normal tt, w')
    ∧ emitted w' = emitted w
    ∧ (∀ i e, messages (mesh w) !! i = Some e →
              messages (mesh w') !! i = Some e)
    ∧ (∀ i, msg_id message = Some i → i ≠ "" →
            messages (mesh w) !! i = None →
            messages (mesh w') !! i
            = Some {| entry_message := message;
                      expires := Date_now env (clockReads w) + 60000 |})
    ∧ (truthy (msg_id message) = false →
       messages (mesh w') = messages (mesh w)).
Proof.
  intros Hid.
  destruct (broadcastMessage_effect env message w Hid)
    as (l & w1 & H & _ & _ & Hw1).
  exists (log_sends l w1). split; [done|].
  change (mesh (log_sends l w1)) with (mesh w1).
  change (emitted (log_sends l w1)) with (emitted w1).
  subst w1.
  destruct (msg_id message) as [i|] eqn:Hi; [|by split_and!].
  destruct (truthy (Some i)) eqn:Ht; [|cbn; split_and!; try done].
  - assert (Hne : i ≠ "") by (by apply bool_decide_eq_true in Ht).
    cbn [andb messages_has].
    destruct (messages (mesh w) !! i) as [e0|] eqn:Hm.
    + rewrite bool_decide_eq_true_2 by eauto. cbn.
      split_and!; try done. congruence.
    + rewrite bool_decide_eq_false_2 by (by intros [? ?]). cbn [negb].
      unfold cached. rewrite Hi, Ht. cbn.
      split_and!; try done.
      * intros j e Hj. rewrite lookup_insert_ne; [done|congruence].
      * intros j [= <-] _ _. apply lookup_insert_eq.
  - intros j [= <-] Hne. apply bool_decide_eq_false in Ht. by destruct Ht.
Qed.
End SenderFacts.

(** ** Sessions *)

Section SessionFacts.
Variable env : Env.

Lemma initialize_effect u n g w :
  initialize u n g w =
  (Normal true,
   log_events [initialized u n g]
     (with_mesh (λ this,
        {| nodes := []; messages := ∅;
           userId := u; groupId := g; username := n;
           location := location this; locationUpdateTimer := true |}) w)).
Proof. reflexivity. Qed.

(** X13. [initialize] with a truthy user and group empties the
    registry and the cache and keeps the location.  Right after it any
    message that names the new group, or no group, is accepted and
    delivered, whatever was cached before; nothing is sent, since no node
    is registered. *)
Theorem initialize_forgets_cache u n g type nodeId message w :
  truthy u = true →
  truthy g = true →
  (truthy (msg_groupId message) = true → msg_groupId message = g) →
  ∃ w1 w2,
    initialize u n g w = (Normal true, w1)
    ∧ nodes (mesh w1) = []
    ∧ messages (mesh w1) = ∅
    ∧ location (mesh w1) = location (mesh w)
    ∧ handleMessageReceived env type nodeId message w1 = (Normal tt, w2)
    ∧ emitted w2 = emitted w ++ [initialized u n g] ++ delivery nodeId message
    ∧ sendLog w2 = sendLog w.
Proof.
  intros Hu Hg Hgrp. rewrite initialize_effect.
  set (w1 := log_events _ _).
  assert (Hacc : accepts message (mesh w1) = true).
  { unfold accepts, identitySet, passesGroupCheck. cbn. rewrite Hu, Hg. cbn.
    assert (truthy (msg_groupId message) && bool_decide (msg_groupId message ≠ g) = false) as ->.
    { destruct (truthy (msg_groupId message)) eqn:Ht; [|done].
      rewrite bool_decide_eq_false_2; [done|]. intros Hne. by apply Hne, Hgrp. }
    cbn. destruct (msg_id message) as [i|]; [|by rewrite andb_false_r].
    cbn. rewrite lookup_empty.
    rewrite (bool_decide_eq_false_2 (is_Some _)); [by rewrite andb_false_r|].
    by intros [? ?]. }
  destruct (handleMessageReceived_accepted env type nodeId message w1 Hacc)
    as (l & w2 & H2 & _ & Hem & Hlog & _ & Hrelay).
  exists w1, w2. split_and!; try done.
  - rewrite Hem. cbn. by rewrite <- app_assoc.
  - rewrite Hlog. cbn.
    assert (l = []) as ->; [|by rewrite app_nil_r].
    destruct (relays env message w1); [|done].
    cbn in Hrelay. by apply fmap_nil_inv in Hrelay.
Qed.

(** X14. [initialize] does not check its arguments: it returns [true]
    also when the user or the group is missing or empty, and the engine
    then behaves as uninitialised: [sendMessage] throws, received messages
    are dropped and broadcasts do nothing. *)
Theorem initialize_with_falsy_identity u n g content type nodeId message w :
  truthy u && truthy g = false →
  ∃ w1,
    initialize u n g w = (Normal true, w1)
    ∧ sendMessage env content w1
      = (Throw (Error "Mesh network not initialized"), w1)
    ∧ handleMessageReceived env type nodeId message w1 = (Normal tt, w1)
    ∧ broadcastMessage env message w1 = (Normal tt, w1).
Proof.
  intros Hfalsy. rewrite initialize_effect.
  set (w1 := log_events _ _).
  assert (Hid : identitySet (mesh w1) = false) by exact Hfalsy.
  exists w1. split_and!; [done|..].
  - unfold sendMessage, bind, this_. by rewrite (identityUnset_guard _ Hid).
  - apply handleMessageReceived_rejected. unfold accepts. by rewrite Hid.
  - unfold broadcastMessage, bind, this_. by rewrite (identityUnset_guard _ Hid).
Qed.

Lemma startNetworking_frame w :
  ∃ b w' e,
    startNetworking env w = (Normal b, w')
    ∧ mesh w' = mesh w
    ∧ sendLog w' = sendLog w
    ∧ emitted w' = emitted w ++ [e].
Proof.
  rewrite startNetworking_run. cbv zeta.
  set (wb := with_bluetooth _ w).
  destruct (wifiDirectReportsAvailable env w) eqn:Hav.
  - assert (Hinit : isInitialized (wifiDirectService w) = true).
    { unfold wifiDirectReportsAvailable in Hav. by apply andb_prop in Hav as [? ?]. }
    pose proof (wifiDirect_startDiscovery_outcome env (log_query wb) Hinit) as Hd.
    destruct (module_isAvailable env (availabilityQueries (log_query wb))) as [[]|e0];
      destruct (module_requestPermissions env) as [[]|e1];
      destruct (module_startDiscovery env) as [[]|e2];
      try (lazymatch type of Hd with ex _ => destruct Hd as [error Hd] end);
      rewrite Hd; eexists _, _, _; by split_and!.
  - eexists _, _, _. split; [reflexivity|].
    destruct (isInitialized (wifiDirectService w)); by split_and!.
Qed.

(** X15. The join flow of the screens, [initialize] followed by
    [startNetworking], returns normally whatever the adapters answer and
    leaves the engine with the identity it was given, so that a following
    [sendMessage] returns an id and emits [messageSent]. *)
Theorem join_flow_initializes u n g content w :
  truthy u = true →
  truthy g = true →
  ∃ b w2 i w3,
    (initialize u n g ;; startNetworking env) w = (Normal b, w2)
    ∧ userId (mesh w2) = u
    ∧ groupId (mesh w2) = g
    ∧ identitySet (mesh w2) = true
    ∧ sendMessage env content w2 = (Normal i, w3)
    ∧ emitted w3 = emitted w2 ++ [messageSent (chatMessage env content w2)].
Proof.
  intros Hu Hg. unfold bind at 1. rewrite initialize_effect.
  set (w1 := log_events _ _).
  destruct (startNetworking_frame w1) as (b & w2 & e & H2 & Hmesh & Hlog & Hem).
  rewrite H2.
  assert (Hid : identitySet (mesh w2) = true).
  { rewrite Hmesh. unfold identitySet. cbn. by rewrite Hu, Hg. }
  destruct (sendMessage_effect env content w2 Hid)
    as (w3 & l & i & _ & _ & H3 & _ & _ & _ & _ & Hem3).
  exists b, w2, i, w3. split_and!; try done; by rewrite Hmesh.
Qed.

(** X16. Every message an engine originates ([sendMessage],
    [updateLocation], the greeting of [handleNodeConnected]) carries the
    engine's group: an engine of any other group drops each of them without
    any effect. *)
Theorem originated_messages_group_scoped content loc type nodeId info w :
  identitySet (mesh w) = true →
  ∀ env' type' nodeId' wB,
    groupId (mesh wB) ≠ groupId (mesh w) →
    (∃ i w' l,
       sendMessage env content w = (Normal i, w')
       ∧ sendLog w' = sendLog w ++ l
       ∧ Forall (λ a, handleMessageReceived env' type' nodeId' (payload a) wB
                      = (Normal tt, wB)) l)
    ∧ (∃ w' l,
         updateLocation env loc w = (Normal tt, w')
         ∧ sendLog w' = sendLog w ++ l
         ∧ Forall (λ a, handleMessageReceived env' type' nodeId' (payload a) wB
                        = (Normal tt, wB)) l)
    ∧ (∃ w' l,
         handleNodeConnected env type nodeId info w = (Normal tt, w')
         ∧ sendLog w' = sendLog w ++ l
         ∧ Forall (λ a, handleMessageReceived env' type' nodeId' (payload a) wB
                        = (Normal tt, wB)) l).
Proof.
  intros Hid env' type' nodeId' wB Hother.
  assert (Hg : truthy (groupId (mesh w)) = true).
  { unfold identitySet in Hid. by apply andb_prop in Hid as [? ?]. }
  assert (Hdrop : ∀ m, msg_groupId m = groupId (mesh w) →
            handleMessageReceived env' type' nodeId' m wB = (Normal tt, wB)).
  { intros m Hm. apply foreign_rejected; rewrite Hm; [done|congruence]. }
  split_and!.
  - destruct (sendMessage_effect env content w Hid)
      as (w' & l & i & _ & _ & H & _ & Hlog & _ & Hp & _).
    exists i, w', l. split_and!; [done..|].
    eapply Forall_impl; [exact Hp|]. intros a ->. by apply Hdrop.
  - destruct (updateLocation_effect env loc w) as (w' & l & H & _ & _ & Hlog & Hp & _).
    exists w', l. split_and!; [done..|].
    eapply Forall_impl; [exact Hp|]. intros a ->. by apply Hdrop.
  - destruct (handleNodeConnected_effect env type nodeId info w)
      as (l & w' & H & _ & _ & _ & _ & Hlog & _ & Hp).
    exists w', l. split_and!; [done..|].
    rewrite Hid in Hp. apply Forall_forall. intros a Ha.
    apply Hdrop. apply (list_elem_of_fmap_2 payload) in Ha. rewrite Hp in Ha.
    apply elem_of_cons in Ha as [->|Ha]; [done|].
    destruct (truthy (location (mesh w))); [|by apply elem_of_nil in Ha].
    by apply list_elem_of_singleton in Ha as ->.
Qed.
End SessionFacts.

(** ** What a computation leaves alone *)

Section Keeps.
Context {X : Type} (f : World → X).

Lemma keeps_ret {A} (a : A) : keeps f (ret a).
Proof. by intros w. Qed.

Lemma keeps_throw {A} e : keeps f (@throw A e).
Proof. by intros w. Qed.

Lemma keeps_bind {A B} (c : M A) (k : A → M B) :
  keeps f c → (∀ a, keeps f (k a)) → keeps f (bind c k).
Proof.
  intros Hc Hk w. unfold bind. specialize (Hc w).
  destruct (c w) as [[a|e] w1]; simpl in *; [|done].
  by rewrite Hk.
Qed.

Lemma keeps_try_catch {A} (c : M A) (h : JsError → M A) :
  keeps f c → (∀ e, keeps f (h e)) → keeps f (try_catch c h).
Proof.
  intros Hc Hh w. unfold try_catch. specialize (Hc w).
  destruct (c w) as [[a|e] w1]; simpl in *; [done|].
  by rewrite Hh.
Qed.

Lemma keeps_promise_of {A} (c : M A) : keeps f c → keeps f (promise_of c).
Proof.
  intros Hc w. unfold promise_of. specialize (Hc w).
  by destruct (c w) as [[a|e] w1].
Qed.

Lemma keeps_when (b : bool) (c : M unit) : keeps f c → keeps f (when b c).
Proof. intros Hc. destruct b; [done|apply keeps_ret]. Qed.

Lemma keeps_if {A} (b : bool) (c1 c2 : M A) :
  keeps f c1 → keeps f c2 → keeps f (if b then c1 else c2).
Proof. by destruct b. Qed.

Lemma keeps_await {A} (p : Settled A) : keeps f (await p).
Proof. destruct p; [apply keeps_ret|apply keeps_throw]. Qed.

Lemma keeps_forEach {V} (m : list (string * V)) (body : V → string → M unit) :
  (∀ v k, keeps f (body v k)) → keeps f (forEach m body).
Proof.
  intros Hb. induction m as [|[k v] m IH]; simpl; [apply keeps_ret|].
  apply keeps_bind; [apply Hb|]. by intros _.
Qed.

Lemma keeps_this : keeps f this_.
Proof. by intros w. Qed.
End Keeps.

Section Durable.
Context {X : Type} (f : World → X).
Hypothesis f_durable : durable f.
Hypothesis f_cache : ∀ c w, f (with_mesh (set_messages c) w) = f w.
Hypothesis f_location : ∀ l w, f (with_mesh (set_location l) w) = f w.
Variable env : Env.

Lemma keeps_notifyListeners e : keeps f (notifyListeners e).
Proof. intros w. by apply f_durable. Qed.

Lemma keeps_record_send a : keeps f (record_send a).
Proof. intros w. by apply f_durable. Qed.

Lemma keeps_DateNow : keeps f (DateNow env).
Proof. intros w. by apply f_durable. Qed.

Lemma keeps_randomSuffix : keeps f (randomSuffix env).
Proof. intros w. by apply f_durable. Qed.

Lemma keeps_messages_set key entry : keeps f (update (messages_set key entry)).
Proof.
  intros w. unfold update. cbn [snd]. destruct key as [i|]; cbn [messages_set].
  - apply (f_cache (<[i:=entry]> (messages (mesh w))) w).
  - apply f_durable; by destruct w as [[]].
Qed.

Lemma keeps_bluetooth_sendMessage deviceId message :
  keeps f (bluetooth_sendMessage env deviceId message).
Proof.
  intros w. destruct (bluetooth_sendMessage_logs env deviceId message w) as [p ->].
  by apply f_durable.
Qed.

Lemma keeps_wifiDirect_sendMessage deviceAddress message :
  keeps f (wifiDirect_sendMessage env deviceAddress message).
Proof.
  intros w. destruct (wifiDirect_sendMessage_logs env deviceAddress message w) as [p ->].
  by apply f_durable.
Qed.

Lemma keeps_broadcastMessage message : keeps f (broadcastMessage env message).
Proof.
  unfold broadcastMessage.
  apply keeps_bind; [apply keeps_this|]. intros this.
  apply keeps_if; [apply keeps_ret|].
  apply keeps_bind.
  { apply keeps_when, keeps_bind; [apply keeps_DateNow|].
    intros now. apply keeps_messages_set. }
  intros _. apply keeps_bind.
  { apply keeps_forEach. intros v k. apply keeps_when, keeps_bind;
      [apply keeps_bluetooth_sendMessage|]. intros _. apply keeps_ret. }
  intros _. apply keeps_bind.
  { apply keeps_forEach. intros v k. apply keeps_when, keeps_bind;
      [apply keeps_wifiDirect_sendMessage|]. intros _. apply keeps_ret. }
  intros _. apply keeps_ret.
Qed.

Lemma keeps_sendMessage content : keeps f (sendMessage env content).
Proof.
  unfold sendMessage.
  apply keeps_bind; [apply keeps_this|]. intros this.
  apply keeps_if; [apply keeps_throw|].
  apply keeps_bind; [apply keeps_DateNow|]. intros t0.
  apply keeps_bind; [apply keeps_randomSuffix|]. intros r.
  apply keeps_bind; [apply keeps_DateNow|]. intros t1. cbv zeta.
  apply keeps_bind; [apply keeps_DateNow|]. intros t2.
  apply keeps_bind; [apply keeps_messages_set|]. intros _.
  apply keeps_bind; [apply keeps_broadcastMessage|]. intros _.
  apply keeps_bind; [apply keeps_notifyListeners|]. intros _.
  apply keeps_ret.
Qed.

Lemma keeps_dispatch nodeId message : keeps f (dispatch nodeId message).
Proof.
  unfold dispatch.
  repeat (apply keeps_if; [apply keeps_notifyListeners|]). apply keeps_ret.
Qed.

Lemma keeps_relayCondition message : keeps f (relayCondition env message).
Proof.
  unfold relayCondition. apply keeps_if; [|apply keeps_ret].
  apply keeps_bind; [apply keeps_DateNow|]. intros now. apply keeps_ret.
Qed.

Lemma keeps_handleMessageReceived type nodeId (message : Parsed) :
  keeps f (handleMessageReceived env type nodeId message).
Proof.
  unfold handleMessageReceived.
  apply keeps_bind; [apply keeps_this|]. intros this.
  apply keeps_if; [apply keeps_ret|].
  destruct message as [|message]; [apply keeps_throw|].
  repeat (apply keeps_if; [apply keeps_ret|]).
  apply keeps_bind.
  { apply keeps_when, keeps_bind; [apply keeps_DateNow|].
    intros now. apply keeps_messages_set. }
  intros _. apply keeps_bind; [apply keeps_dispatch|]. intros _.
  apply keeps_bind; [apply keeps_relayCondition|]. intros relay.
  apply keeps_when, keeps_broadcastMessage.
Qed.

Lemma keeps_updateLocation loc : keeps f (updateLocation env loc).
Proof.
  unfold updateLocation.
  apply keeps_bind. { intros w. apply f_location. } intros _.
  apply keeps_bind; [apply keeps_this|]. intros this.
  apply keeps_bind; [apply keeps_DateNow|]. intros now.
  apply keeps_bind; [apply keeps_broadcastMessage|]. intros _.
  apply keeps_notifyListeners.
Qed.

Lemma keeps_cleanupMessages : keeps f (cleanupMessages env).
Proof.
  unfold cleanupMessages.
  apply keeps_bind; [apply keeps_DateNow|]. intros now.
  intros w. apply f_cache.
Qed.
End Durable.

Lemma adapters_durable : durable adapters.
Proof. intros w w' _ Hb Hw. unfold adapters. by rewrite Hb, Hw. Qed.

Lemma registry_durable : durable registry.
Proof. intros w w' Hm _ _. unfold registry. by rewrite Hm. Qed.

(** ** Invariants of a running engine *)

Lemma Map_get_elem {V} k (v : V) m :
  NoDup m.*1 → (k, v) ∈ m → Map_get k m = Some v.
Proof.
  induction m as [|[k0 v0] m IH]; csimpl; [by intros _ ?%elem_of_nil|].
  intros [Hk0 Hnd]%NoDup_cons [[= -> ->]|Hin]%elem_of_cons.
  - by rewrite decide_True.
  - rewrite decide_False; [by apply IH|].
    intros ->. apply Hk0. apply list_elem_of_fmap. by exists (k, v).
Qed.

Section Invariants.
Variable env : Env.

Lemma handleNodeDisconnected_mesh type nodeId w :
  mesh (run (handleNodeDisconnected type nodeId) w)
  = set_nodes (Map_delete nodeId (nodes (mesh w))) (mesh w).
Proof.
  unfold run. rewrite handleNodeDisconnected_effect.
  destruct (Map_has nodeId (nodes (mesh w))) eqn:Hhas; [done|].
  cbn [snd]. rewrite Map_delete_absent; [by destruct w as [[]]|].
  intros Hin. apply Map_has_true in Hin. congruence.
Qed.

Lemma handleNodeDisconnected_adapters type nodeId w :
  adapters (run (handleNodeDisconnected type nodeId) w) = adapters w.
Proof.
  unfold run. rewrite handleNodeDisconnected_effect.
  by destruct (Map_has nodeId (nodes (mesh w))).
Qed.

Lemma handleNodeConnected_mesh type nodeId info w :
  mesh (run (handleNodeConnected env type nodeId info) w)
  = set_nodes (Map_set nodeId
                 {| node_type := type; node_info := info;
                    connectedAt := Date_now env (clockReads w) |}
                 (nodes (mesh w))) (mesh w)
  ∧ adapters (run (handleNodeConnected env type nodeId info) w) = adapters w.
Proof.
  destruct (handleNodeConnected_effect env type nodeId info w)
    as (l & w' & H & Hmesh & Hbt & Hwd & _).
  unfold run, adapters. rewrite H. cbn [snd]. by rewrite Hmesh, Hbt, Hwd.
Qed.

Lemma handleMessageReceived_mesh type nodeId message w :
  mesh (run (handleMessageReceived env type nodeId message) w)
  = if accepts message (mesh w) then mesh (cached env message w) else mesh w.
Proof.
  unfold run. destruct (accepts message (mesh w)) eqn:Hacc.
  - destruct (handleMessageReceived_accepted env type nodeId message w Hacc)
      as (l & w' & H & Hmesh & _). by rewrite H.
  - by rewrite handleMessageReceived_rejected.
Qed.

Lemma handleMessageReceived_null_run type nodeId w :
  run (handleMessageReceived env type nodeId JsonNull) w = w.
Proof.
  unfold run. rewrite handleMessageReceived_null.
  by destruct (identitySet (mesh w)).
Qed.

Lemma sendMessage_mesh content w :
  mesh (run (sendMessage env content) w)
  = if identitySet (mesh w)
    then messages_set (msg_id (chatMessage env content w))
           {| entry_message := chatMessage env content w;
              expires := Date_now env (S (S (clockReads w))) + messageTimeout |}
           (mesh w)
    else mesh w.
Proof.
  unfold run. destruct (identitySet (mesh w)) eqn:Hid.
  - destruct (sendMessage_effect env content w Hid)
      as (w' & l & i & Hi & _ & H & Hmesh & _).
    rewrite H. cbn [snd]. by rewrite Hmesh, Hi.
  - unfold sendMessage, bind, this_. by rewrite (identityUnset_guard _ Hid).
Qed.

Lemma updateLocation_mesh loc w :
  mesh (run (updateLocation env loc) w) = set_location loc (mesh w).
Proof.
  destruct (updateLocation_effect env loc w) as (w' & l & H & Hmesh & _).
  unfold run. by rewrite H.
Qed.

Lemma startNetworking_mesh w :
  mesh (run (startNetworking env) w) = mesh w.
Proof.
  destruct (startNetworking_frame env w) as (b & w' & e & H & Hmesh & _).
  unfold run. by rewrite H.
Qed.

Lemma startNetworking_peers w :
  isInitialized (wifiDirectService (run (startNetworking env) w))
  = isInitialized (wifiDirectService w)
  ∧ connectedPeers (wifiDirectService (run (startNetworking env) w))
    = connectedPeers (wifiDirectService w).
Proof.
  unfold run. rewrite startNetworking_run. cbv zeta.
  set (wb := with_bluetooth _ w).
  destruct (wifiDirectReportsAvailable env w) eqn:Hav.
  - assert (Hinit : isInitialized (wifiDirectService w) = true).
    { unfold wifiDirectReportsAvailable in Hav. by apply andb_prop in Hav as [? ?]. }
    pose proof (wifiDirect_startDiscovery_outcome env (log_query wb) Hinit) as Hd.
    destruct (module_isAvailable env (availabilityQueries (log_query wb))) as [[]|e0];
      destruct (module_requestPermissions env) as [[]|e1];
      destruct (module_startDiscovery env) as [[]|e2];
      try (lazymatch type of Hd with ex _ => destruct Hd as [error Hd] end);
      rewrite Hd; by cbn.
  - destruct (isInitialized (wifiDirectService w)) eqn:E; cbn; by rewrite ?E.
Qed.

Lemma wifiDirect_onConnectionChanged_run deviceAddress connected info w :
  run (wifiDirect_onConnectionChanged env deviceAddress connected info) w
  = if connected then
      run (handleNodeConnected env wifiDirect deviceAddress info)
        (with_wifiDirect
           (λ wd, set_connectedPeers ({[deviceAddress]} ∪ connectedPeers wd) wd) w)
    else
      run (handleNodeDisconnected wifiDirect deviceAddress)
        (with_wifiDirect
           (λ wd, set_connectedPeers (connectedPeers wd ∖ {[deviceAddress]}) wd) w).
Proof. by destruct connected. Qed.

Lemma bluetooth_onDeviceConnected_run deviceId device_id device w :
  run (bluetooth_onDeviceConnected env deviceId device_id device) w
  = run (handleNodeConnected env bluetooth device_id device)
      (with_bluetooth
         (λ bt, set_connectedDevices ({[deviceId]} ∪ connectedDevices bt) bt) w).
Proof. reflexivity. Qed.

Lemma bluetooth_onDeviceDisconnected_run deviceId w :
  run (bluetooth_onDeviceDisconnected deviceId) w
  = run (handleNodeDisconnected bluetooth deviceId)
      (with_bluetooth
         (λ bt, set_connectedDevices (connectedDevices bt ∖ {[deviceId]}) bt) w).
Proof. reflexivity. Qed.

Lemma bluetooth_stopScan_run w :
  run bluetooth_stopScan w
  = if isScanning (bluetoothService w)
    then with_bluetooth (set_isScanning false) w else w.
Proof.
  unfold run, bluetooth_stopScan. by destruct (isScanning (bluetoothService w)).
Qed.

Lemma wifiDirect_stopDiscovery_run stopped w :
  run (wifiDirect_stopDiscovery stopped) w
  = match stopped with
    | Fulfilled _ =>
        if isInitialized (wifiDirectService w) && isDiscovering (wifiDirectService w)
        then with_wifiDirect (set_isDiscovering false) w else w
    | Rejected _ => w
    end.
Proof.
  unfold run, wifiDirect_stopDiscovery.
  destruct (isInitialized (wifiDirectService w)),
    (isDiscovering (wifiDirectService w)), stopped as [[]|e]; reflexivity.
Qed.

(** The registry after any stimulus. *)
Lemma react_registry s w :
  registry (react env s w)
  = match s with
    | CallInitialize _ _ _ => []
    | BluetoothDeviceConnected _ nodeId info =>
        Map_set nodeId {| node_type := bluetooth; node_info := info;
                          connectedAt := Date_now env (clockReads w) |} (registry w)
    | WifiConnectionChanged nodeId true info =>
        Map_set nodeId {| node_type := wifiDirect; node_info := info;
                          connectedAt := Date_now env (clockReads w) |} (registry w)
    | BluetoothDeviceDisconnected nodeId
    | WifiConnectionChanged nodeId false _ => Map_delete nodeId (registry w)
    | _ => registry w
    end.
Proof.
  unfold registry.
  destruct s as [u n g| |c|loc| | |d d' i|d|d m|o|a [] i|a m]; cbn [react].
  - done.
  - by rewrite startNetworking_mesh.
  - rewrite sendMessage_mesh. destruct (identitySet (mesh w)); [|done].
    unfold messages_set. by destruct (msg_id _).
  - by rewrite updateLocation_mesh.
  - done.
  - rewrite bluetooth_stopScan_run. by destruct (isScanning _).
  - rewrite bluetooth_onDeviceConnected_run.
    by rewrite (proj1 (handleNodeConnected_mesh _ _ _ _)).
  - rewrite bluetooth_onDeviceDisconnected_run.
    by rewrite handleNodeDisconnected_mesh.
  - destruct m as [|m]; [by rewrite handleMessageReceived_null_run|].
    rewrite handleMessageReceived_mesh. destruct (accepts m (mesh w)); [|done].
    unfold cached. destruct (truthy (msg_id m)); [|done]. cbn.
    by destruct (msg_id m).
  - rewrite wifiDirect_stopDiscovery_run.
    destruct o as [[]|e]; [|done]. by destruct (_ && _).
  - rewrite wifiDirect_onConnectionChanged_run.
    by rewrite (proj1 (handleNodeConnected_mesh _ _ _ _)).
  - rewrite wifiDirect_onConnectionChanged_run.
    by rewrite handleNodeDisconnected_mesh.
  - destruct m as [|m]; [by rewrite handleMessageReceived_null_run|].
    rewrite handleMessageReceived_mesh. destruct (accepts m (mesh w)); [|done].
    unfold cached. destruct (truthy (msg_id m)); [|done]. cbn.
    by destruct (msg_id m).
Qed.

Lemma reachable_NoDup w :
  reachable env w → NoDup (nodes (mesh w)).*1.
Proof.
  induction 1 as [wifiModule|w s Hw IH Hen]; [by constructor|].
  change (NoDup (registry (react env s w)).*1). rewrite react_registry.
  destruct s as [u n g| |c|loc| | |d d' i|d|d m|o|a [] i|a m]; try done.
  - by constructor.
  - by apply Map_set_NoDup.
  - by apply Map_delete_NoDup.
  - by apply Map_set_NoDup.
  - by apply Map_delete_NoDup.
Qed.
End Invariants.

Section Invariants2.
Variable env : Env.

Lemma adapters_cache c w : adapters (with_mesh (set_messages c) w) = adapters w.
Proof. reflexivity. Qed.

Lemma adapters_location l w : adapters (with_mesh (set_location l) w) = adapters w.
Proof. reflexivity. Qed.

(** The WiFi Direct adapter after any stimulus. *)
Lemma react_wifiDirect s w :
  isInitialized (wifiDirectService (react env s w))
  = isInitialized (wifiDirectService w)
  ∧ connectedPeers (wifiDirectService (react env s w))
    = match s with
      | WifiConnectionChanged a true _ =>
          {[a]} ∪ connectedPeers (wifiDirectService w)
      | WifiConnectionChanged a false _ =>
          connectedPeers (wifiDirectService w) ∖ {[a]}
      | _ => connectedPeers (wifiDirectService w)
      end.
Proof.
  assert (Hkeep : ∀ w', adapters w' = adapters w →
            isInitialized (wifiDirectService w') = isInitialized (wifiDirectService w)
            ∧ connectedPeers (wifiDirectService w')
              = connectedPeers (wifiDirectService w)).
  { intros w' [= _ ->]. done. }
  destruct s as [u n g| |c|loc| | |d d' i|d|d m|o|a [] i|a m]; cbn [react].
  - done.
  - apply startNetworking_peers.
  - apply Hkeep.
    apply (keeps_sendMessage adapters adapters_durable adapters_cache env).
  - apply Hkeep.
    apply (keeps_updateLocation adapters adapters_durable adapters_cache
             adapters_location env).
  - apply Hkeep.
    apply (keeps_cleanupMessages adapters adapters_durable adapters_cache env).
  - rewrite bluetooth_stopScan_run. by destruct (isScanning _).
  - rewrite bluetooth_onDeviceConnected_run.
    set (w0 := with_bluetooth _ w).
    destruct (handleNodeConnected_mesh env bluetooth d' i w0) as [_ [= _ ->]].
    done.
  - rewrite bluetooth_onDeviceDisconnected_run.
    set (w0 := with_bluetooth _ w).
    pose proof (handleNodeDisconnected_adapters bluetooth d w0) as [= _ ->].
    done.
  - apply Hkeep.
    apply (keeps_handleMessageReceived adapters adapters_durable adapters_cache env).
  - rewrite wifiDirect_stopDiscovery_run.
    destruct o as [[]|e]; [|done]. by destruct (_ && _).
  - rewrite wifiDirect_onConnectionChanged_run.
    set (w0 := with_wifiDirect _ w).
    destruct (handleNodeConnected_mesh env wifiDirect a i w0) as [_ [= _ ->]].
    done.
  - rewrite wifiDirect_onConnectionChanged_run.
    set (w0 := with_wifiDirect _ w).
    pose proof (handleNodeDisconnected_adapters wifiDirect a w0) as [= _ ->].
    done.
  - apply Hkeep.
    apply (keeps_handleMessageReceived adapters adapters_durable adapters_cache env).
Qed.

Lemma reachable_wifiNodesConnected w :
  reachable env w → wifiNodesConnected w.
Proof.
  induction 1 as [wifiModule|w s Hw IH Hen]; [by intros nodeId node [=]|].
  intros nodeId node Hget Hty.
  change (nodes (mesh (react env s w))) with (registry (react env s w)) in Hget.
  rewrite react_registry in Hget.
  destruct (react_wifiDirect s w) as [-> ->].
  unfold wifiNodesConnected, registry in *.
  destruct s as [u n g| |c|loc| | |d d' i|d|d m|o|a [] i|a m]; cbn [enabled] in Hen;
    try (by eapply IH).
  - destruct (decide (d' = nodeId)) as [->|Hne].
    + rewrite Map_get_set_eq in Hget. injection Hget as <-. done.
    + rewrite Map_get_set_ne in Hget by done. by eapply IH.
  - destruct (decide (d = nodeId)) as [->|Hne].
    + by rewrite Map_get_delete_eq in Hget.
    + rewrite Map_get_delete_ne in Hget by done. by eapply IH.
  - split; [done|].
    destruct (decide (a = nodeId)) as [->|Hne].
    { by apply elem_of_union_l, elem_of_singleton. }
    rewrite Map_get_set_ne in Hget by done.
    destruct (IH nodeId node Hget Hty). by apply elem_of_union_r.
  - destruct (decide (a = nodeId)) as [->|Hne].
    + by rewrite Map_get_delete_eq in Hget.
    + rewrite Map_get_delete_ne in Hget by done.
      destruct (IH nodeId node Hget Hty). split; [done|].
      apply elem_of_difference. split; [done|].
      rewrite elem_of_singleton. congruence.
Qed.

(** The cache after an accepted message, and after a sent one, gains at
    most one entry, under the message's own identifier. *)
Lemma messages_set_keyed message x this :
  cacheKeyed this →
  truthy (msg_id message) = true →
  cacheKeyed (messages_set (msg_id message)
                {| entry_message := message; expires := x |} this).
Proof.
  intros Hk Ht. destruct (msg_id message) as [i|] eqn:Hi; [|done].
  apply bool_decide_eq_true in Ht.
  intros j e. cbn. destruct (decide (i = j)) as [->|Hne].
  - rewrite lookup_insert_eq. by intros [= <-].
  - rewrite lookup_insert_ne by done. apply Hk.
Qed.

(** X17. In every world reached from startup by calls of
    [initialize], [startNetworking], [sendMessage], [updateLocation],
    [cleanupMessages], by the adapters' timers and by adapter events, each
    run to completion, every cache entry sits under the non-empty id of
    its own message. *)
Theorem cache_entries_keyed_by_id w :
  reachable env w → cacheKeyed (mesh w).
Proof.
  induction 1 as [wifiModule|w s Hw IH Hen]; [by intros i e [=]|].
  destruct s as [u n g| |c|loc| | |d d' i|d|d m|o|a [] i|a m]; cbn [react].
  - by intros i e [=].
  - by rewrite startNetworking_mesh.
  - rewrite sendMessage_mesh. destruct (identitySet (mesh w)) eqn:Hid; [|done].
    apply messages_set_keyed; [done|].
    apply truthy_toString. unfold identitySet in Hid. by apply andb_prop in Hid as [? ?].
  - rewrite updateLocation_mesh. exact IH.
  - intros i e. cbn. intros [He _]%map_lookup_filter_Some. by apply IH.
  - rewrite bluetooth_stopScan_run. by destruct (isScanning _).
  - rewrite bluetooth_onDeviceConnected_run.
    rewrite (proj1 (handleNodeConnected_mesh _ _ _ _ _)). exact IH.
  - rewrite bluetooth_onDeviceDisconnected_run.
    rewrite handleNodeDisconnected_mesh. exact IH.
  - destruct m as [|m]; [by rewrite handleMessageReceived_null_run|].
    rewrite handleMessageReceived_mesh. destruct (accepts m (mesh w)); [|done].
    unfold cached. destruct (truthy (msg_id m)) eqn:Ht; [|done].
    cbn. by apply messages_set_keyed.
  - rewrite wifiDirect_stopDiscovery_run.
    destruct o as [[]|e]; [|done]. by destruct (_ && _).
  - rewrite wifiDirect_onConnectionChanged_run.
    rewrite (proj1 (handleNodeConnected_mesh _ _ _ _ _)). exact IH.
  - rewrite wifiDirect_onConnectionChanged_run.
    rewrite handleNodeDisconnected_mesh. exact IH.
  - destruct m as [|m]; [by rewrite handleMessageReceived_null_run|].
    rewrite handleMessageReceived_mesh. destruct (accepts m (mesh w)); [|done].
    unfold cached. destruct (truthy (msg_id m)) eqn:Ht; [|done].
    cbn. by apply messages_set_keyed.
Qed.
End Invariants2.

Section WifiSends.
Variable env : Env.

Lemma wifiDirect_sendMessage_connected deviceAddress message w :
  isInitialized (wifiDirectService w) = true →
  deviceAddress ∈ connectedPeers (wifiDirectService w) →
  wifiDirect_sendMessage env deviceAddress message w
  = (Normal (moduleOutcome env deviceAddress),
     log_sends [ {| via := wifiDirect; target := deviceAddress;
                    payload := message;
                    settled := moduleOutcome env deviceAddress |} ] w).
Proof.
  intros Hinit Hin.
  unfold wifiDirect_sendMessage, moduleOutcome, bind, promise_of, try_catch,
    record_send, ret, await, throw.
  rewrite Hinit. rewrite bool_decide_eq_true_2 by done. simpl.
  by destruct (module_sendMessage env deviceAddress).
Qed.

Lemma wifi_loop_settles message ns w :
  (∀ k n, (k, n) ∈ ns → node_type n = wifiDirect →
          isInitialized (wifiDirectService w) = true
          ∧ k ∈ connectedPeers (wifiDirectService w)) →
  ∃ l, fanout_loop env wifiDirect message ns w = (Normal tt, log_sends l w)
       ∧ addressee <$> l = reached <$> filter (λ kv, node_type kv.2 = wifiDirect) ns
       ∧ Forall (λ a, settled a = moduleOutcome env (target a)) l.
Proof.
  revert w. induction ns as [|[nodeId node] ns IH]; intros w Hpeers.
  - exists []. simpl. unfold ret. by rewrite log_sends_nil.
  - rewrite fanout_loop_cons, filter_cons. unfold bind at 1, when. cbn [snd].
    case_bool_decide as Hk.
    + destruct (Hpeers nodeId node) as [Hinit Hin]; [apply elem_of_cons; by left|done|].
      unfold bind at 1.
      rewrite wifiDirect_sendMessage_connected by done.
      unfold ret at 1.
      set (a := {| via := wifiDirect; target := nodeId; payload := message;
                   settled := moduleOutcome env nodeId |}).
      destruct (IH (log_sends [a] w)) as (l & Hl & Ha & Hf).
      { intros k n Hin'. apply Hpeers. apply elem_of_cons. by right. }
      exists (a :: l). split_and!.
      * rewrite Hl. by rewrite log_sends_app.
      * rewrite decide_True by done. rewrite !fmap_cons, Ha.
        unfold reached, addressee. simpl. by rewrite Hk.
      * by constructor.
    + rewrite decide_False by done. unfold ret at 1. apply IH.
      intros k n Hin. apply Hpeers. apply elem_of_cons. by right.
Qed.

Lemma broadcastMessage_settles message w :
  identitySet (mesh w) = true →
  NoDup (nodes (mesh w)).*1 →
  wifiNodesConnected w →
  ∃ w' l,
    broadcastMessage env message w = (Normal tt, w')
    ∧ sendLog w' = sendLog w ++ l
    ∧ addressee <$> l = reached <$> fanoutOrder (nodes (mesh w))
    ∧ Forall (λ a, via a = wifiDirect →
                   settled a = moduleOutcome env (target a)) l.
Proof.
  intros Hid Hnd Hwifi. pose proof Hid as Hid'.
  unfold identitySet in Hid'. apply andb_prop in Hid' as [Hu Hg].
  rewrite broadcastMessage_loops. unfold bind at 1, this_. rewrite Hu, Hg. simpl.
  set (w1 := if truthy (msg_id message)
                && negb (messages_has (msg_id message) (mesh w))
             then cached env message w else w).
  assert (Hw1 :
    when (truthy (msg_id message) && negb (messages_has (msg_id message) (mesh w)))
      (now <- DateNow env ;;
       update (messages_set (msg_id message)
                 {| entry_message := message; expires := now + messageTimeout |})) w
    = (Normal tt, w1)).
  { unfold w1, when, cached. destruct (truthy (msg_id message)); [|done].
    destruct (negb _); done. }
  assert (Hsame : wifiDirectService w1 = wifiDirectService w ∧ sendLog w1 = sendLog w).
  { unfold w1, cached. destruct (_ && _); [|done].
    by destruct (truthy (msg_id message)). }
  destruct Hsame as [Hwd Hsl].
  unfold bind at 1. rewrite Hw1.
  destruct (fanout_loop_sends env bluetooth message (nodes (mesh w)) w1)
    as (l1 & H1 & A1 & _).
  destruct (wifi_loop_settles message (nodes (mesh w)) (log_sends l1 w1))
    as (l2 & H2 & A2 & F2).
  { intros k n Hin Hty. change (wifiDirectService (log_sends l1 w1))
      with (wifiDirectService w1). rewrite Hwd.
    eapply Hwifi; [|done]. by apply Map_get_elem. }
  exists (log_sends (l1 ++ l2) w1), (l1 ++ l2). split_and!.
  - unfold bind at 1. rewrite H1. unfold bind at 1.
    rewrite H2. by rewrite log_sends_app.
  - cbn. by rewrite Hsl.
  - unfold fanoutOrder. by rewrite !fmap_app, A1, A2.
  - apply Forall_app. split.
    + apply Forall_forall. intros a Ha Hvia.
      apply (list_elem_of_fmap_2 addressee) in Ha. rewrite A1 in Ha.
      apply list_elem_of_fmap in Ha as ([k n] & Heq & [Hbt _]%list_elem_of_filter).
      unfold addressee, reached in Heq. simpl in *. congruence.
    + eapply Forall_impl; [exact F2|]. by intros a ? _.
Qed.

(** X18. In every world a running engine reaches ([reachable]), a
    broadcast never fails the WiFi Direct
    adapter's own checks ('not initialized', 'Peer not connected'): each
    WiFi Direct send settles as the native [sendMessage] does, because the
    connection handler records a peer before the engine registers it and
    forgets it before the engine removes it. *)
Theorem wifi_sends_reach_the_module message w :
  reachable env w →
  identitySet (mesh w) = true →
  ∃ w' l,
    broadcastMessage env message w = (Normal tt, w')
    ∧ sendLog w' = sendLog w ++ l
    ∧ Forall (λ a, via a = wifiDirect →
                   settled a = moduleOutcome env (target a)) l.
Proof.
  intros Hreach Hid.
  destruct (broadcastMessage_settles message w Hid)
    as (w' & l & H & Hlog & _ & Hf).
  - by apply (reachable_NoDup env).
  - by apply (reachable_wifiNodesConnected env).
  - by exists w', l.
Qed.

(** X19. In every world a running engine reaches ([reachable]), with
    identity set, a broadcast addresses each registered node exactly once
    and no one else. *)
Theorem broadcast_reaches_each_node_once message w :
  reachable env w →
  identitySet (mesh w) = true →
  ∃ w' l,
    broadcastMessage env message w = (Normal tt, w')
    ∧ sendLog w' = sendLog w ++ l
    ∧ NoDup (target <$> l)
    ∧ (∀ nodeId, nodeId ∈ target <$> l ↔ Map_has nodeId (nodes (mesh w)) = true).
Proof.
  intros Hreach Hid.
  destruct (broadcastMessage_effect env message w Hid)
    as (l & w1 & H & Ha & _ & Hw1).
  assert (Htargets : target <$> l ≡ₚ (nodes (mesh w)).*1).
  { transitivity ((reached <$> fanoutOrder (nodes (mesh w))).*2).
    - rewrite <- Ha. rewrite <- list_fmap_compose. done.
    - rewrite <- list_fmap_compose. apply fmap_Permutation, fanoutOrder_all. }
  exists (log_sends l w1), l. split_and!; [done| | |].
  - subst w1. unfold cached.
    destruct (truthy (msg_id message) && _); [|done].
    by destruct (truthy (msg_id message)).
  - rewrite Htargets. by apply (reachable_NoDup env).
  - intros nodeId. rewrite Htargets. symmetry. apply Map_has_true.
Qed.
End WifiSends.

(** ** The listener registry *)

Section ListenerFacts.
Import ListenerRegistry.
Context {D : Type} (behaviour : Callback → D → Completion unit).

Lemma Set_forEach_calls_all (s : list Callback) (data : D) log :
  Set_forEach s (λ callback,
    calls_try (call behaviour callback data) (λ error, calls_ret tt)) log
  = (Normal tt,
     log ++ ((λ cb, {| callee := cb; argument := data;
                       completion := behaviour cb data |}) <$> s)).
Proof.
  revert log. induction s as [|cb s IH]; intros log; simpl.
  - unfold calls_ret. by rewrite app_nil_r.
  - unfold calls_bind, calls_try, call.
    destruct (behaviour cb data) as [[]|e]; unfold calls_ret;
      rewrite IH; by rewrite <- app_assoc.
Qed.

Lemma notifyListeners_run event data listeners log :
  notifyListeners behaviour event data listeners log
  = (Normal tt,
     log ++ ((λ cb, {| callee := cb; argument := data;
                       completion := behaviour cb data |})
             <$> listenersOf event listeners)).
Proof.
  unfold notifyListeners, listenersOf. case_bool_decide as Hev.
  - apply Set_forEach_calls_all.
  - unfold calls_ret. destruct (listeners !! event) eqn:He.
    + exfalso. apply Hev. eauto.
    + simpl. by rewrite app_nil_r.
Qed.

(** X20. [notifyListeners] calls every callback registered for the
    event once, in registration order, each with the event's data, and
    returns normally even when callbacks throw: a throwing callback does
    not keep the later ones from being called. *)
Theorem notifyListeners_calls_every_listener event data listeners log :
  ∃ calls,
    notifyListeners behaviour event data listeners log = (Normal tt, log ++ calls)
    ∧ callee <$> calls = listenersOf event listeners
    ∧ Forall (λ c, argument c = data
                   ∧ completion c = behaviour (callee c) data) calls.
Proof.
  rewrite notifyListeners_run. eexists. split; [reflexivity|]. split.
  - rewrite <- list_fmap_compose. apply list_fmap_id.
  - apply Forall_fmap, Forall_true. by intros cb.
Qed.
End ListenerFacts.

Section SubscriptionFacts.
Import ListenerRegistry.

Lemma Set_add_NoDup cb s : NoDup s → NoDup (Set_add cb s).
Proof.
  intros Hnd. unfold Set_add. case_bool_decide; [done|].
  apply NoDup_app. split_and!; [done| |apply NoDup_singleton].
  by intros x Hx ->%list_elem_of_singleton.
Qed.

Lemma Set_delete_add cb s : cb ∉ s → Set_delete cb (Set_add cb s) = s.
Proof.
  intros Hcb. unfold Set_add, Set_delete. rewrite bool_decide_eq_false_2 by done.
  rewrite filter_app, filter_cons, filter_nil.
  rewrite decide_False by (by intros H; apply H).
  rewrite app_nil_r.
  induction s as [|c s IH]; [done|].
  apply not_elem_of_cons in Hcb as [Hne Hcb].
  rewrite filter_cons, decide_True by done. by rewrite IH.
Qed.

Lemma addListener_lookup event cb listeners :
  addListener event cb listeners !! event
  = Some (Set_add cb (listenersOf event listeners)).
Proof.
  unfold listenersOf, addListener. cbv zeta.
  rewrite lookup_insert_eq. do 2 f_equal. case_bool_decide as Hev; [done|].
  rewrite lookup_insert_eq.
  destruct (listeners !! event) eqn:He; [|done]. exfalso. apply Hev. eauto.
Qed.

Lemma listenersOf_addListener event cb listeners e :
  listenersOf e (addListener event cb listeners)
  = if decide (e = event)
    then Set_add cb (listenersOf event listeners)
    else listenersOf e listeners.
Proof.
  unfold listenersOf, addListener. cbv zeta.
  destruct (decide (e = event)) as [->|Hne].
  - rewrite lookup_insert_eq. case_bool_decide as Hev; [done|].
    rewrite lookup_insert_eq.
    destruct (listeners !! event) eqn:He; [|done]. exfalso. apply Hev. eauto.
  - rewrite lookup_insert_ne by done. case_bool_decide; [done|].
    by rewrite lookup_insert_ne.
Qed.

Lemma listenersOf_unsubscribe event cb listeners e :
  listenersOf e (unsubscribe event cb listeners)
  = if decide (e = event)
    then Set_delete cb (listenersOf event listeners)
    else listenersOf e listeners.
Proof.
  unfold listenersOf, unsubscribe.
  destruct (listeners !! event) as [s|] eqn:He.
  - destruct (decide (e = event)) as [->|Hne].
    + by rewrite lookup_insert_eq.
    + by rewrite lookup_insert_ne.
  - destruct (decide (e = event)) as [->|Hne]; [|done]. by rewrite He.
Qed.

(** X21. [addListener] adds the callback to the end of the event's
    set unless it is already there, leaves the other events alone, and
    registering the same callback twice is the same as registering it
    once. *)
Theorem addListener_registers_once event callback listeners :
  wellFormed listeners →
  wellFormed (addListener event callback listeners)
  ∧ listenersOf event (addListener event callback listeners)
    = (if bool_decide (callback ∈ listenersOf event listeners)
       then listenersOf event listeners
       else listenersOf event listeners ++ [callback])
  ∧ (∀ e, e ≠ event →
          listenersOf e (addListener event callback listeners)
          = listenersOf e listeners)
  ∧ addListener event callback (addListener event callback listeners)
    = addListener event callback listeners.
Proof.
  intros Hwf. split_and!.
  - intros e s. unfold addListener. cbv zeta.
    destruct (decide (e = event)) as [->|Hne].
    + rewrite lookup_insert_eq. intros [= <-]. apply Set_add_NoDup.
      case_bool_decide as Hev.
      * destruct (listeners !! event) eqn:He; [|constructor]. by eapply Hwf.
      * rewrite lookup_insert_eq. constructor.
    + rewrite lookup_insert_ne by done. case_bool_decide.
      * apply Hwf.
      * rewrite lookup_insert_ne by done. apply Hwf.
  - by rewrite listenersOf_addListener, decide_True.
  - intros e Hne. by rewrite listenersOf_addListener, decide_False.
  - unfold addListener at 1. cbv zeta.
    pose proof (addListener_lookup event callback listeners) as Hsome.
    rewrite bool_decide_eq_true_2 by (rewrite Hsome; eauto).
    rewrite Hsome. simpl.
    assert (Set_add callback (Set_add callback (listenersOf event listeners))
            = Set_add callback (listenersOf event listeners)) as ->.
    { unfold Set_add at 1. rewrite bool_decide_eq_true_2; [done|].
      unfold Set_add. case_bool_decide; [done|].
      apply elem_of_app. right. by apply list_elem_of_singleton. }
    by apply insert_id.
Qed.

(** X22. The function returned by [addListener] removes the callback
    from the event's set and only from it; it does nothing when the event
    has no set (after [listeners.clear()]), and [removeListener] has the
    same effect. *)
Theorem unsubscribe_removes event callback listeners :
  (listenersOf event (unsubscribe event callback listeners)
   = filter (λ c, c ≠ callback) (listenersOf event listeners))
  ∧ (callback ∉ listenersOf event (unsubscribe event callback listeners))
  ∧ (∀ e, e ≠ event →
          listenersOf e (unsubscribe event callback listeners)
          = listenersOf e listeners)
  ∧ (wellFormed listeners → wellFormed (unsubscribe event callback listeners))
  ∧ (listeners !! event = None →
     unsubscribe event callback listeners = listeners)
  ∧ removeListener event callback listeners
    = unsubscribe event callback listeners.
Proof.
  split_and!.
  - by rewrite listenersOf_unsubscribe, decide_True.
  - rewrite listenersOf_unsubscribe, decide_True by done.
    unfold Set_delete. intros [Hne _]%list_elem_of_filter. by apply Hne.
  - intros e Hne. by rewrite listenersOf_unsubscribe, decide_False.
  - intros Hwf e s. unfold unsubscribe.
    destruct (listeners !! event) as [s0|] eqn:He; [|apply Hwf].
    destruct (decide (e = event)) as [->|Hne].
    + rewrite lookup_insert_eq. intros [= <-]. apply NoDup_filter. by eapply Hwf.
    + rewrite lookup_insert_ne by done. apply Hwf.
  - intros He. unfold unsubscribe. by rewrite He.
  - unfold removeListener, unsubscribe.
    destruct (listeners !! event) as [s|] eqn:He.
    + by rewrite bool_decide_eq_true_2 by eauto.
    + rewrite bool_decide_eq_false_2; [done|]. by intros [? ?].
Qed.

(** X23. Subscribing a callback that was not registered and calling
    the returned function restores what every notification does. *)
Theorem subscribe_unsubscribe_round_trip {D}
    (behaviour : Callback → D → Completion unit)
    event callback listeners e data log :
  callback ∉ listenersOf event listeners →
  notifyListeners behaviour e data
    (unsubscribe event callback (addListener event callback listeners)) log
  = notifyListeners behaviour e data listeners log.
Proof.
  intros Hnew.
  rewrite !notifyListeners_run.
  rewrite listenersOf_unsubscribe, !listenersOf_addListener.
  destruct (decide (e = event)) as [->|Hne]; [|done].
  rewrite decide_True by done. by rewrite Set_delete_add.
Qed.
End SubscriptionFacts.

(** ** The group routes *)

Section GroupRouteFacts.
Import GroupRoutes.
Local Open Scope nat_scope.
Variable o : Oracle.

Lemma findByCode_None c gs :
  findByCode c gs = None ↔ ∀ g, g ∈ gs → code g ≠ c.
Proof.
  unfold findByCode. rewrite fmap_None, list_find_None, Forall_forall. done.
Qed.

Lemma findByCode_Some c gs g :
  findByCode c gs = Some g → g ∈ gs ∧ code g = c.
Proof.
  unfold findByCode. intros [[i g'] [Hf ->]]%fmap_Some.
  apply list_find_Some in Hf as (Hi & Hc & _). split; [|done].
  by eapply list_elem_of_lookup_2.
Qed.

(** The loop returns the first attempt whose code is free. *)
Lemma uniqueCode_first_free fuel gs k j :
  findByCode (generateUniqueCode o (k + 6 * j)) gs = None →
  (∀ j', j' < j → findByCode (generateUniqueCode o (k + 6 * j')) gs ≠ None) →
  j < fuel →
  uniqueCode o fuel gs k
  = Some (generateUniqueCode o (k + 6 * j), k + 6 * S j).
Proof.
  revert k j. induction fuel as [|fuel IH]; intros k j Hfree Hused Hj; [lia|].
  cbn [uniqueCode]. cbv zeta. destruct j as [|j].
  - rewrite Nat.mul_0_r, Nat.add_0_r in Hfree. rewrite Nat.mul_0_r, Nat.add_0_r.
    rewrite Hfree. do 2 f_equal.
  - destruct (findByCode (generateUniqueCode o k) gs) eqn:H0.
    + replace (k + 6 * S j) with (k + 6 + 6 * j) by lia.
      replace (k + 6 * S (S j)) with (k + 6 + 6 * S j) by lia.
      apply IH; [| |lia].
      * by replace (k + 6 + 6 * j) with (k + 6 * S j) by lia.
      * intros j' Hj'. replace (k + 6 + 6 * j') with (k + 6 * S j') by lia.
        apply Hused. lia.
    + exfalso. apply (Hused 0); [lia|]. by rewrite Nat.mul_0_r, Nat.add_0_r.
Qed.

(** Whatever the loop returns is a code no group uses. *)
Lemma uniqueCode_free fuel gs k c k' :
  uniqueCode o fuel gs k = Some (c, k') → findByCode c gs = None.
Proof.
  revert k. induction fuel as [|fuel IH]; intros k; simpl; [done|].
  destruct (findByCode (generateUniqueCode o k) gs) eqn:H0.
  - apply IH.
  - by intros [= <- _].
Qed.

Lemma charAt_chars i :
  i < 32 → ∃ c, charAt i chars = String c "" ∧ c ∈ String.list_ascii_of_string chars.
Proof.
  intros Hi.
  do 32 (destruct i as [|i];
         [eexists; split; [reflexivity|]; apply list_elem_of_In; simpl; tauto|]).
  lia.
Qed.

Lemma generateFrom_format n k prefix :
  (∀ k, randomIndex o k < 32) →
  String.length (generateFrom o n k prefix) = String.length prefix + n
  ∧ (Forall (λ c, c ∈ String.list_ascii_of_string chars) (String.list_ascii_of_string prefix) →
     Forall (λ c, c ∈ String.list_ascii_of_string chars)
            (String.list_ascii_of_string (generateFrom o n k prefix))).
Proof.
  intros Hr. revert k prefix. induction n as [|n IH]; intros k prefix; simpl.
  - split; [lia|done].
  - destruct (charAt_chars (randomIndex o k) (Hr k)) as (c & -> & Hc).
    destruct (IH (S k) (prefix +:+ String c "")) as [Hlen Hall].
    split.
    + rewrite Hlen.
      assert (String.length (prefix +:+ String c "") = S (String.length prefix)) as ->; [|lia].
      clear. induction prefix; simpl; [done|]. by f_equal.
    + intros Hp. apply Hall.
      assert (String.list_ascii_of_string (prefix +:+ String c "")
              = String.list_ascii_of_string prefix ++ [c]) as ->.
      { clear. induction prefix; simpl; [done|]. by f_equal. }
      apply Forall_app. split; [done|]. by constructor.
Qed.

(** X24. [POST /api/groups] with a name and a creator retries codes
    until the first one that no group uses.  It answers 201 with the new
    group, appended to the store with the creator as its only member; the
    code has six characters, all of the 32-character alphabet, and differs
    from the code of every older group. *)
Theorem createGroup_creates fuel name cid cname venue st j :
  (∀ k, randomIndex o k < 32) →
  truthy name = true →
  truthy cid = true →
  ¬ codeInUse (attempt o st j) st →
  (∀ j', j' < j → codeInUse (attempt o st j') st) →
  j < fuel →
  let g := {| group_id := uuidv4 o (uuids st);
              group_name := name;
              code := attempt o st j;
              creatorId := cid;
              creatorName := cname;
              venueId := venue;
              members := [ {| member_id := cid; member_name := cname |} ];
              createdAt := toISOString o (dates st) |} in
  createGroup o fuel name cid cname venue st
  = Some ({| status := 201; body := JsonGroup g |},
          {| groups := groups st ++ [g];
             uuids := S (uuids st);
             dates := S (dates st);
             draws := draws st + 6 * S j |})
  ∧ String.length (code g) = 6
  ∧ Forall (λ c, c ∈ String.list_ascii_of_string chars) (String.list_ascii_of_string (code g))
  ∧ Forall (λ g', code g' ≠ code g) (groups st).
Proof.
  intros Hr Hn Hc Hfree Hused Hj g.
  assert (Hnone : findByCode (attempt o st j) (groups st) = None).
  { apply findByCode_None. intros g' Hin Hcode. apply Hfree. by exists g'. }
  split_and!.
  - unfold createGroup. rewrite Hn, Hc. simpl.
    rewrite (uniqueCode_first_free fuel (groups st) (draws st) j); [done|done| |done].
    intros j' Hj' Hno. destruct (Hused j' Hj') as (g' & Hin & Hcode).
    fold (attempt o st j') in Hno.
    eapply findByCode_None in Hno; [|exact Hin]. done.
  - apply (generateFrom_format 6 _ "" Hr).
  - apply (generateFrom_format 6 _ "" Hr). constructor.
  - apply Forall_forall. intros g' Hin. by apply (proj1 (findByCode_None _ _) Hnone).
Qed.

Lemma list_find_snoc {A} (P : A → Prop) `{∀ x, Decision (P x)} (l : list A) x :
  (∀ y, y ∈ l → ¬ P y) → P x →
  list_find P (l ++ [x]) = Some (length l, x).
Proof.
  intros Hl Hx. apply list_find_Some. split_and!.
  - by rewrite lookup_app_r, Nat.sub_diag.
  - done.
  - intros i y Hy Hi. rewrite lookup_app_l in Hy by done.
    apply Hl. by eapply list_elem_of_lookup_2.
Qed.

(** X25. A group just created is what [GET /api/groups/:code] answers
    for its code, and, when its id is new, its members are what
    [GET /api/groups/members/:groupId] answers. *)
Theorem created_group_is_found fuel name cid cname venue st response st' :
  createGroup o fuel name cid cname venue st = Some (response, st') →
  status response = 201 →
  ∃ g,
    body response = JsonGroup g
    ∧ groups st' = groups st ++ [g]
    ∧ members g = [ {| member_id := cid; member_name := cname |} ]
    ∧ getGroup (code g) st' = (ok (JsonGroup g), st')
    ∧ ((∀ g', g' ∈ groups st → group_id g' ≠ group_id g) →
       getMembers (group_id g) st' = (ok (JsonMembers (members g)), st')).
Proof.
  unfold createGroup. destruct (negb (truthy name) || negb (truthy cid)).
  { intros [= <- <-]. done. }
  destruct (uniqueCode o fuel (groups st) (draws st)) as [[c k]|] eqn:Hu; [|done].
  cbv zeta.
  set (g := {| group_id := uuidv4 o (uuids st); group_name := name; code := c;
               creatorId := cid; creatorName := cname; venueId := venue;
               members := [ {| member_id := cid; member_name := cname |} ];
               createdAt := toISOString o (dates st) |}).
  intros [= <- <-] _. exists g. split_and!; try reflexivity.
  - apply uniqueCode_free in Hu.
    unfold getGroup, findByCode. cbn [groups].
    rewrite (list_find_snoc (λ g0, code g0 = code g)); [done| |done].
    intros y Hy. by apply (proj1 (findByCode_None _ _) Hu).
  - intros Hfresh. unfold getMembers, findById. cbn [groups].
    by rewrite (list_find_snoc (λ g0, group_id g0 = group_id g)).
Qed.
End GroupRouteFacts.

Section GroupRouteFacts2.
Import GroupRoutes.
Local Open Scope nat_scope.
Variable o : Oracle.

Lemma list_find_insert {A} (P : A → Prop) `{∀ x, Decision (P x)} (l : list A) i x y :
  list_find P l = Some (i, x) → P y →
  list_find P (<[i := y]> l) = Some (i, y).
Proof.
  intros (Hi & Hx & Hbefore)%list_find_Some Hy. apply list_find_Some. split_and!.
  - apply list_lookup_insert_eq. by eapply lookup_lt_Some.
  - done.
  - intros j z Hz Hj. rewrite list_lookup_insert_ne in Hz by lia. by eapply Hbefore.
Qed.

Lemma isMember_elem userId g :
  isMember userId g = true ↔ userId ∈ member_id <$> members g.
Proof.
  unfold isMember. rewrite existsb_exists, list_elem_of_fmap. split.
  - intros (m & Hin & Hm). apply bool_decide_eq_true in Hm.
    exists m. split; [done|]. by apply list_elem_of_In.
  - intros (m & -> & Hin). exists m. split; [by apply list_elem_of_In|].
    by apply bool_decide_eq_true.
Qed.

Lemma joinGroup_found c userId userName st i g :
  truthy c = true → truthy userId = true → truthy userName = true →
  list_find (λ g, Some (code g) = c) (groups st) = Some (i, g) →
  joinGroup c userId userName st
  = let g' := if isMember userId g then g
              else push_member {| member_id := userId; member_name := userName |} g in
    (ok (JsonGroup g'), with_groups (<[i := g']> (groups st)) st).
Proof.
  intros Hc Hu Hn Hf. unfold joinGroup. rewrite Hc, Hu, Hn, Hf. reflexivity.
Qed.

(** X26. [POST /api/groups/join] is idempotent: repeating a request
    gives the same response and the same store. *)
Theorem joinGroup_idempotent c userId userName st :
  joinGroup c userId userName (joinGroup c userId userName st).2
  = joinGroup c userId userName st.
Proof.
  destruct (negb (truthy c) || negb (truthy userId) || negb (truthy userName)) eqn:Hv.
  { unfold joinGroup. by rewrite Hv. }
  apply orb_false_elim in Hv as [Hv Hn]. apply orb_false_elim in Hv as [Hc Hu].
  apply negb_false_iff in Hc, Hu, Hn.
  destruct (list_find (λ g, Some (code g) = c) (groups st)) as [[i g]|] eqn:Hf.
  - rewrite (joinGroup_found c userId userName st i g) by done. cbv zeta.
    set (g' := if isMember userId g then g else push_member _ g).
    assert (Hcode : Some (code g') = c).
    { apply list_find_Some in Hf as (_ & Hcg & _). unfold g'.
      by destruct (isMember userId g). }
    assert (Hmem : isMember userId g' = true).
    { unfold g'. destruct (isMember userId g) eqn:Hm; [done|].
      apply isMember_elem. cbn. rewrite fmap_app. apply elem_of_app. right.
      by apply list_elem_of_singleton. }
    cbn [snd].
    rewrite (joinGroup_found c userId userName _ i g'); [|done..|].
    + cbv zeta. rewrite Hmem. cbn [groups with_groups].
      by rewrite list_insert_insert_eq.
    + cbn [groups with_groups]. eapply list_find_insert; [exact Hf|exact Hcode].
  - unfold joinGroup. rewrite Hc, Hu, Hn, Hf. cbn. by rewrite ?Hf.
Qed.

(** X27. A successful join answers with the first group that carries
    the code; that group keeps its id, code and creator, and has the user
    as a member afterwards: appended when the user id was not yet among its
    members, unchanged otherwise. *)
Theorem joinGroup_adds_member c userId userName st response st' :
  joinGroup c userId userName st = (response, st') →
  status response = 200 →
  ∃ i g g',
    body response = JsonGroup g'
    ∧ groups st !! i = Some g
    ∧ Some (code g) = c
    ∧ (∀ j h, j < i → groups st !! j = Some h → Some (code h) ≠ c)
    ∧ groups st' = <[i := g']> (groups st)
    ∧ group_id g' = group_id g ∧ code g' = code g ∧ creatorId g' = creatorId g
    ∧ userId ∈ member_id <$> members g'
    ∧ members g'
      = (if bool_decide (userId ∈ member_id <$> members g) then members g
         else members g ++ [ {| member_id := userId; member_name := userName |} ]).
Proof.
  unfold joinGroup.
  destruct (negb (truthy c) || negb (truthy userId) || negb (truthy userName));
    [by intros [= <- <-]|].
  destruct (list_find (λ g, Some (code g) = c) (groups st)) as [[i g]|] eqn:Hf;
    [|by intros [= <- <-]].
  cbv zeta. intros [= <- <-] _.
  apply list_find_Some in Hf as (Hi & Hcg & Hbefore).
  eexists i, g, _. split_and!; try done.
  - intros j h Hj Hh. by eapply Hbefore.
  - by destruct (isMember userId g).
  - by destruct (isMember userId g).
  - by destruct (isMember userId g).
  - destruct (isMember userId g) eqn:Hm; [by apply isMember_elem|].
    cbn. rewrite fmap_app. apply elem_of_app. right. by apply list_elem_of_singleton.
  - destruct (isMember userId g) eqn:Hm.
    + rewrite bool_decide_eq_true_2; [done|]. by apply isMember_elem.
    + rewrite bool_decide_eq_false_2; [done|]. rewrite <- isMember_elem. congruence.
Qed.

Lemma findById_None i gs :
  findById i gs = None ↔ ∀ g, g ∈ gs → group_id g ≠ i.
Proof.
  unfold findById. rewrite fmap_None, list_find_None, Forall_forall. done.
Qed.

(** X28. [DELETE /api/groups/:id] succeeds only for the creator of the
    group it finds: any other user gets 403 and the store is unchanged.
    After a success no group carries the id: its members are not found and
    a second deletion answers 404. *)
Theorem deleteGroup_only_by_creator i userId st response st' :
  deleteGroup i userId st = (response, st') →
  (status response = 200 →
   (∃ g, findById i (groups st) = Some g ∧ creatorId g = userId)
   ∧ groups st' = filter (λ g, group_id g ≠ i) (groups st)
   ∧ getMembers i st' = (failure 404 "Group not found", st')
   ∧ deleteGroup i userId st' = (failure 404 "Group not found", st'))
  ∧ (status response ≠ 200 → st' = st)
  ∧ (∀ g, findById i (groups st) = Some g → creatorId g ≠ userId →
          response = failure 403 "Not authorized to delete this group").
Proof.
  unfold deleteGroup.
  destruct (findById i (groups st)) as [g|] eqn:Hf.
  - case_bool_decide as Hc.
    + intros [= <- <-]. split_and!; [done|done|]. by intros g' [= <-] _.
    + intros [= <- <-]. split_and!; [|done|].
      * intros _.
        assert (Hgone : findById i (filter (λ g0, group_id g0 ≠ i) (groups st)) = None).
        { apply findById_None. by intros g' [? _]%list_elem_of_filter. }
        split_and!; [by exists g|done|..].
        -- unfold getMembers. cbn [groups with_groups]. by rewrite Hgone.
        -- cbn [groups with_groups]. by rewrite Hgone.
      * intros g' [= <-] Hne. done.
  - intros [= <- <-]. split_and!; [done|done|]. by intros g' [=].
Qed.

(** X29. A request to the group routes that is answered with an
    error status leaves the store as it was, and so does every GET. *)
Theorem failed_requests_change_nothing r st response st' :
  serve o r st = Some (response, st') →
  (status response ≠ 200 → status response ≠ 201 → st' = st)
  ∧ match r with
    | GetGroup _ | GetMembers _ => st' = st
    | _ => True
    end.
Proof.
  destruct r as [fuel n c cn v|c|c u n|g|i u]; cbn [serve].
  - unfold createGroup. destruct (negb (truthy n) || negb (truthy c)).
    { by intros [= <- <-]. }
    destruct (uniqueCode o fuel (groups st) (draws st)) as [[c0 k]|]; [|done].
    by intros [= <- <-].
  - unfold getGroup. by destruct (findByCode c (groups st)); intros [= <- <-].
  - unfold joinGroup.
    destruct (negb (truthy c) || negb (truthy u) || negb (truthy n));
      [by intros [= <- <-]|].
    by destruct (list_find _ (groups st)) as [[i g]|]; intros [= <- <-].
  - unfold getMembers. by destruct (findById g (groups st)); intros [= <- <-].
  - unfold deleteGroup. destruct (findById i (groups st)); [|by intros [= <- <-]].
    by case_bool_decide; intros [= <- <-].
Qed.
End GroupRouteFacts2.

Section GroupRouteInvariant.
Import GroupRoutes.
Local Open Scope nat_scope.
Variable o : Oracle.

Lemma consistent_join st i g u n :
  consistent st →
  groups st !! i = Some g →
  consistent
    (with_groups
       (<[i := if isMember u g then g
               else push_member {| member_id := u; member_name := n |} g]>
          (groups st)) st).
Proof.
  intros [Hcodes Hgroups] Hi.
  pose proof (Forall_lookup_1 _ _ _ _ Hgroups Hi) as [Hnd [rest Hrest]].
  unfold consistent. cbn [groups with_groups]. split.
  - rewrite list_fmap_insert.
    assert (code (if isMember u g then g
                  else push_member {| member_id := u; member_name := n |} g)
            = code g) as -> by (by destruct (isMember u g)).
    rewrite list_insert_id; [done|]. by rewrite list_lookup_fmap, Hi.
  - apply Forall_insert; [done|].
    destruct (isMember u g) eqn:Hm; [by eauto|]. cbn. split.
    + rewrite fmap_app. apply NoDup_app. split_and!; [done| |apply NoDup_singleton].
      intros x Hx Hx2. apply list_elem_of_singleton in Hx2. cbn in Hx2. subst x.
      apply isMember_elem in Hx. congruence.
    + exists (rest ++ [ {| member_id := u; member_name := n |} ]).
      by rewrite Hrest.
Qed.

(** X30. Whatever requests the group routes have served since the
    server started, the codes of the stored groups are pairwise distinct,
    no group lists a member id twice, and the first member of every group
    is its creator. *)
Theorem served_stores_are_consistent st :
  served o st → consistent st.
Proof.
  induction 1 as [|st r response st' Hst IH Hserve].
  { split; constructor. }
  destruct r as [fuel n c cn v|c|c u n|g|i u]; cbn [serve] in Hserve.
  - unfold createGroup in Hserve.
    destruct (negb (truthy n) || negb (truthy c)); [by injection Hserve as <- <-|].
    destruct (uniqueCode o fuel (groups st) (draws st)) as [[c0 k]|] eqn:Hu; [|done].
    injection Hserve as <- <-. apply uniqueCode_free in Hu.
    destruct IH as [Hcodes Hgroups]. split; cbn [groups].
    + rewrite fmap_app. apply NoDup_app. split_and!; [done| |apply NoDup_singleton].
      intros x Hx ->%list_elem_of_singleton.
      apply list_elem_of_fmap in Hx as (g' & Hc & Hin).
      by apply (proj1 (findByCode_None _ _) Hu g').
    + apply Forall_app. split; [done|]. constructor; [|done].
      split; [apply NoDup_singleton|by exists []].
  - unfold getGroup in Hserve.
    by destruct (findByCode c (groups st)); injection Hserve as <- <-.
  - unfold joinGroup in Hserve.
    destruct (negb (truthy c) || negb (truthy u) || negb (truthy n));
      [by injection Hserve as <- <-|].
    destruct (list_find _ (groups st)) as [[i g]|] eqn:Hf;
      [|by injection Hserve as <- <-].
    injection Hserve as <- <-.
    apply consistent_join; [done|]. by apply list_find_Some in Hf as (? & _).
  - unfold getMembers in Hserve.
    by destruct (findById g (groups st)); injection Hserve as <- <-.
  - unfold deleteGroup in Hserve.
    destruct (findById i (groups st)); [|by injection Hserve as <- <-].
    case_bool_decide; injection Hserve as <- <-; [done|].
    destruct IH as [Hcodes Hgroups]. split; cbn [groups with_groups].
    + eapply sublist_NoDup; [exact Hcodes|]. apply fmap_sublist, sublist_filter.
    + apply Forall_forall. intros g' [_ Hin]%list_elem_of_filter.
      by apply (proj1 (Forall_forall _ _) Hgroups).
Qed.
End GroupRouteInvariant.

(** ** The properties above at the concrete session

    Each property that has a precondition is applied once to the session
    of user [u1], to the run from startup, to a small listener registry or
    to the store of the group [Trip]. *)

Lemma session_identitySet : identitySet (mesh session) = true.
Proof. vm_compute. reflexivity. Qed.

Lemma demoRun_reachable : reachable demoEnv demoRun.
Proof.
  unfold demoRun.
  apply reachable_step; [|vm_compute; reflexivity].
  apply reachable_step; [|exact I].
  apply reachable_step; [|exact I].
  apply reachable_startup.
Qed.

Lemma connect_disconnect_round_trip_witness :
  Map_has "n3" (nodes (mesh session)) = false
  ∧ nodes (mesh (run (handleNodeDisconnected bluetooth "n3")
                   (run (handleNodeConnected demoEnv wifiDirect "n3" "{}") session)))
    = nodes (mesh session).
Proof.
  assert (Hnew : Map_has "n3" (nodes (mesh session)) = false)
    by (vm_compute; reflexivity).
  split; [exact Hnew|].
  apply connect_disconnect_round_trip. exact Hnew.
Defined.

Lemma disconnected_node_not_addressed_witness :
  identitySet (mesh session) = true
  ∧ ∃ w1 w2 l,
      handleNodeDisconnected bluetooth "n1" session = (Normal tt, w1)
      ∧ broadcastMessage demoEnv chat_m1 w1 = (Normal tt, w2)
      ∧ sendLog w2 = sendLog session ++ l
      ∧ Forall (λ a, target a ≠ "n1") l.
Proof.
  assert (Hid : identitySet (mesh session) = true) by (vm_compute; reflexivity).
  split; [exact Hid|].
  apply disconnected_node_not_addressed. exact Hid.
Defined.

Lemma dedup_lasts_until_swept_witness :
  (identitySet (mesh session) = true
   ∧ passesGroupCheck chat_m1 (mesh session) = true
   ∧ msg_id chat_m1 = Some "m1"
   ∧ "m1" ≠ ""
   ∧ messages (mesh session) !! "m1" = None)
  ∧ ∃ w1 w2,
      handleMessageReceived demoEnv bluetooth "n1" chat_m1 session = (Normal tt, w1)
      ∧ cleanupMessages demoEnv w1 = (Normal tt, w2)
      ∧ (Date_now demoEnv (clockReads session) + 60000 = 0
         ∨ Date_now demoEnv (clockReads w1)
           ≤ Date_now demoEnv (clockReads session) + 60000 →
         ∀ type nodeId,
           handleMessageReceived demoEnv type nodeId chat_m1 w2 = (Normal tt, w2))
      ∧ (Date_now demoEnv (clockReads session) + 60000 ≠ 0 →
         Date_now demoEnv (clockReads session) + 60000
         < Date_now demoEnv (clockReads w1) →
         ∀ type nodeId,
           ∃ w3,
             handleMessageReceived demoEnv type nodeId chat_m1 w2 = (Normal tt, w3)
             ∧ emitted w3 = emitted w2 ++ delivery nodeId chat_m1).
Proof.
  assert (Hid : identitySet (mesh session) = true) by (vm_compute; reflexivity).
  assert (Hgroup : passesGroupCheck chat_m1 (mesh session) = true)
    by (vm_compute; reflexivity).
  assert (Hfresh : messages (mesh session) !! "m1" = None)
    by (vm_compute; reflexivity).
  assert (Hne : "m1" ≠ "") by discriminate.
  split; [repeat split; assumption || reflexivity|].
  apply (dedup_lasts_until_swept demoEnv bluetooth "n1" chat_m1 session "m1");
    assumption || reflexivity.
Defined.

Lemma own_echo_ignored_witness :
  identitySet (mesh session) = true
  ∧ ∃ i w',
      sendMessage demoEnv "hi" session = (Normal i, w')
      ∧ handleMessageReceived demoEnv wifiDirect "n2"
          (chatMessage demoEnv "hi" session) w'
        = (Normal tt, w').
Proof.
  assert (Hid : identitySet (mesh session) = true) by (vm_compute; reflexivity).
  split; [exact Hid|].
  apply own_echo_ignored. exact Hid.
Defined.

Lemma unidentified_messages_redelivered_witness :
  (truthy (msg_id chat_anonymous) = false
   ∧ accepts chat_anonymous (mesh session) = true)
  ∧ ∃ w1 w2,
      handleMessageReceived demoEnv bluetooth "n1" chat_anonymous session
      = (Normal tt, w1)
      ∧ handleMessageReceived demoEnv wifiDirect "n2" chat_anonymous w1
        = (Normal tt, w2)
      ∧ messages (mesh w2) = messages (mesh session)
      ∧ emitted w2
        = emitted session ++ delivery "n1" chat_anonymous
          ++ delivery "n2" chat_anonymous.
Proof.
  assert (Hnoid : truthy (msg_id chat_anonymous) = false) by reflexivity.
  assert (Hacc : accepts chat_anonymous (mesh session) = true)
    by (vm_compute; reflexivity).
  split; [split; assumption|].
  apply unidentified_messages_redelivered; assumption.
Defined.

Lemma broadcastMessage_caches_once_witness :
  identitySet (mesh session) = true
  ∧ ∃ w',
      broadcastMessage demoEnv chat_m1 session = (Normal tt, w')
      ∧ emitted w' = emitted session
      ∧ (∀ i e, messages (mesh session) !! i = Some e →
                messages (mesh w') !! i = Some e)
      ∧ (∀ i, msg_id chat_m1 = Some i → i ≠ "" →
              messages (mesh session) !! i = None →
              messages (mesh w') !! i
              = Some {| entry_message := chat_m1;
                        expires := Date_now demoEnv (clockReads session) + 60000 |})
      ∧ (truthy (msg_id chat_m1) = false →
         messages (mesh w') = messages (mesh session)).
Proof.
  assert (Hid : identitySet (mesh session) = true) by (vm_compute; reflexivity).
  split; [exact Hid|].
  apply broadcastMessage_caches_once. exact Hid.
Defined.

Lemma initialize_forgets_cache_witness :
  (truthy (Some "u3") = true
   ∧ truthy (Some "g1") = true
   ∧ (truthy (msg_groupId chat_m1) = true → msg_groupId chat_m1 = Some "g1"))
  ∧ ∃ w1 w2,
      initialize (Some "u3") (Some "Carol") (Some "g1") session = (Normal true, w1)
      ∧ nodes (mesh w1) = []
      ∧ messages (mesh w1) = ∅
      ∧ location (mesh w1) = location (mesh session)
      ∧ handleMessageReceived demoEnv bluetooth "n1" chat_m1 w1 = (Normal tt, w2)
      ∧ emitted w2
        = emitted session ++ [initialized (Some "u3") (Some "Carol") (Some "g1")]
          ++ delivery "n1" chat_m1
      ∧ sendLog w2 = sendLog session.
Proof.
  assert (Hu : truthy (Some "u3") = true) by reflexivity.
  assert (Hg : truthy (Some "g1") = true) by reflexivity.
  assert (Hgroup : truthy (msg_groupId chat_m1) = true
                   → msg_groupId chat_m1 = Some "g1") by reflexivity.
  split; [repeat split; assumption|].
  apply initialize_forgets_cache; assumption.
Defined.

Lemma initialize_with_falsy_identity_witness :
  truthy (Some "") && truthy (Some "g1") = false
  ∧ ∃ w1,
      initialize (Some "") (Some "Alice") (Some "g1") boot = (Normal true, w1)
      ∧ sendMessage demoEnv "hi" w1
        = (Throw (Error "Mesh network not initialized"), w1)
      ∧ handleMessageReceived demoEnv bluetooth "n1" chat_m1 w1 = (Normal tt, w1)
      ∧ broadcastMessage demoEnv chat_m1 w1 = (Normal tt, w1).
Proof.
  assert (Hfalsy : truthy (Some "") && truthy (Some "g1") = false) by reflexivity.
  split; [exact Hfalsy|].
  apply initialize_with_falsy_identity. exact Hfalsy.
Defined.

Lemma join_flow_initializes_witness :
  (truthy (Some "u1") = true ∧ truthy (Some "g1") = true)
  ∧ ∃ b w2 i w3,
      (initialize (Some "u1") (Some "Alice") (Some "g1") ;; startNetworking demoEnv)
        boot = (Normal b, w2)
      ∧ userId (mesh w2) = Some "u1"
      ∧ groupId (mesh w2) = Some "g1"
      ∧ identitySet (mesh w2) = true
      ∧ sendMessage demoEnv "hi" w2 = (Normal i, w3)
      ∧ emitted w3 = emitted w2 ++ [messageSent (chatMessage demoEnv "hi" w2)].
Proof.
  assert (Hu : truthy (Some "u1") = true) by reflexivity.
  assert (Hg : truthy (Some "g1") = true) by reflexivity.
  split; [split; assumption|].
  apply join_flow_initializes; assumption.
Defined.

Lemma originated_messages_group_scoped_witness :
  identitySet (mesh session) = true
  ∧ ∀ env' type' nodeId' wB,
      groupId (mesh wB) ≠ groupId (mesh session) →
      (∃ i w' l,
         sendMessage demoEnv "hi" session = (Normal i, w')
         ∧ sendLog w' = sendLog session ++ l
         ∧ Forall (λ a, handleMessageReceived env' type' nodeId' (payload a) wB
                        = (Normal tt, wB)) l)
      ∧ (∃ w' l,
           updateLocation demoEnv (Some "hall A") session = (Normal tt, w')
           ∧ sendLog w' = sendLog session ++ l
           ∧ Forall (λ a, handleMessageReceived env' type' nodeId' (payload a) wB
                          = (Normal tt, wB)) l)
      ∧ (∃ w' l,
           handleNodeConnected demoEnv bluetooth "n3" "{}" session = (Normal tt, w')
           ∧ sendLog w' = sendLog session ++ l
           ∧ Forall (λ a, handleMessageReceived env' type' nodeId' (payload a) wB
                          = (Normal tt, wB)) l).
Proof.
  assert (Hid : identitySet (mesh session) = true) by (vm_compute; reflexivity).
  split; [exact Hid|].
  apply originated_messages_group_scoped. exact Hid.
Defined.

Lemma cache_entries_keyed_by_id_witness :
  reachable demoEnv (react demoEnv (CallSendMessage "hi") demoRun)
  ∧ cacheKeyed (mesh (react demoEnv (CallSendMessage "hi") demoRun)).
Proof.
  assert (Hreach : reachable demoEnv (react demoEnv (CallSendMessage "hi") demoRun)).
  { apply reachable_step; [apply demoRun_reachable | exact I]. }
  split; [exact Hreach|].
  apply (cache_entries_keyed_by_id demoEnv). exact Hreach.
Defined.

Lemma wifi_sends_reach_the_module_witness :
  (reachable demoEnv demoRun ∧ identitySet (mesh demoRun) = true)
  ∧ ∃ w' l,
      broadcastMessage demoEnv chat_m1 demoRun = (Normal tt, w')
      ∧ sendLog w' = sendLog demoRun ++ l
      ∧ Forall (λ a, via a = wifiDirect →
                     settled a = moduleOutcome demoEnv (target a)) l.
Proof.
  assert (Hreach : reachable demoEnv demoRun) by apply demoRun_reachable.
  assert (Hid : identitySet (mesh demoRun) = true) by (vm_compute; reflexivity).
  split; [split; assumption|].
  apply wifi_sends_reach_the_module; assumption.
Defined.

Lemma broadcast_reaches_each_node_once_witness :
  (reachable demoEnv demoRun ∧ identitySet (mesh demoRun) = true)
  ∧ ∃ w' l,
      broadcastMessage demoEnv chat_m1 demoRun = (Normal tt, w')
      ∧ sendLog w' = sendLog demoRun ++ l
      ∧ NoDup (target <$> l)
      ∧ (∀ nodeId, nodeId ∈ target <$> l
                   ↔ Map_has nodeId (nodes (mesh demoRun)) = true).
Proof.
  assert (Hreach : reachable demoEnv demoRun) by apply demoRun_reachable.
  assert (Hid : identitySet (mesh demoRun) = true) by (vm_compute; reflexivity).
  split; [split; assumption|].
  apply broadcast_reaches_each_node_once; assumption.
Defined.

Lemma demoListeners_wellFormed :
  ListenerRegistry.wellFormed ListenerRegistry.demoListeners.
Proof.
  unfold ListenerRegistry.demoListeners.
  intros event callbacks [_ <-]%lookup_singleton_Some.
  apply NoDup_cons. split; [|apply NoDup_singleton].
  intros [=]%list_elem_of_singleton.
Qed.

Lemma addListener_registers_once_witness :
  ListenerRegistry.wellFormed ListenerRegistry.demoListeners
  ∧ (ListenerRegistry.wellFormed
       (ListenerRegistry.addListener "messageReceived" 3%nat
          ListenerRegistry.demoListeners)
     ∧ ListenerRegistry.listenersOf "messageReceived"
         (ListenerRegistry.addListener "messageReceived" 3%nat
            ListenerRegistry.demoListeners)
       = (if bool_decide
               (3%nat ∈ ListenerRegistry.listenersOf "messageReceived"
                          ListenerRegistry.demoListeners)
          then ListenerRegistry.listenersOf "messageReceived"
                 ListenerRegistry.demoListeners
          else ListenerRegistry.listenersOf "messageReceived"
                 ListenerRegistry.demoListeners ++ [3%nat])
     ∧ (∀ e, e ≠ "messageReceived" →
             ListenerRegistry.listenersOf e
               (ListenerRegistry.addListener "messageReceived" 3%nat
                  ListenerRegistry.demoListeners)
             = ListenerRegistry.listenersOf e ListenerRegistry.demoListeners)
     ∧ ListenerRegistry.addListener "messageReceived" 3%nat
         (ListenerRegistry.addListener "messageReceived" 3%nat
            ListenerRegistry.demoListeners)
       = ListenerRegistry.addListener "messageReceived" 3%nat
           ListenerRegistry.demoListeners).
Proof.
  split; [apply demoListeners_wellFormed|].
  apply addListener_registers_once. apply demoListeners_wellFormed.
Defined.

Lemma subscribe_unsubscribe_round_trip_witness :
  (3%nat ∉ ListenerRegistry.listenersOf "messageReceived"
             ListenerRegistry.demoListeners)
  ∧ ListenerRegistry.notifyListeners ListenerRegistry.demoBehaviour
      "messageReceived" "{}"
      (ListenerRegistry.unsubscribe "messageReceived" 3%nat
         (ListenerRegistry.addListener "messageReceived" 3%nat
            ListenerRegistry.demoListeners)) []
    = ListenerRegistry.notifyListeners ListenerRegistry.demoBehaviour
        "messageReceived" "{}" ListenerRegistry.demoListeners [].
Proof.
  assert (Hnew : 3%nat ∉ ListenerRegistry.listenersOf "messageReceived"
                           ListenerRegistry.demoListeners).
  { apply (bool_decide_unpack _). vm_compute. exact I. }
  split; [exact Hnew|].
  apply subscribe_unsubscribe_round_trip. exact Hnew.
Defined.

Lemma retryOracle_in_range k : (GroupRoutes.randomIndex GroupRoutes.retryOracle k < 32)%nat.
Proof.
  unfold GroupRoutes.retryOracle, GroupRoutes.randomIndex.
  destruct (k <? 12)%nat.
  - pose proof (Nat.mod_upper_bound k 6). lia.
  - apply Nat.mod_upper_bound. lia.
Qed.

Lemma createGroup_creates_witness :
  ((∀ k, (GroupRoutes.randomIndex GroupRoutes.retryOracle k < 32)%nat)
   ∧ truthy (Some "Picnic") = true
   ∧ truthy (Some "u2") = true
   ∧ ¬ GroupRoutes.codeInUse
         (GroupRoutes.attempt GroupRoutes.retryOracle GroupRoutes.demoStore 1)
         GroupRoutes.demoStore
   ∧ (∀ j', (j' < 1)%nat →
            GroupRoutes.codeInUse
              (GroupRoutes.attempt GroupRoutes.retryOracle GroupRoutes.demoStore j')
              GroupRoutes.demoStore)
   ∧ (1 < 2)%nat)
  ∧ let g :=
      {| GroupRoutes.group_id := "uuid-1";
         GroupRoutes.group_name := Some "Picnic";
         GroupRoutes.code := "NPQRST";
         GroupRoutes.creatorId := Some "u2";
         GroupRoutes.creatorName := Some "Bob";
         GroupRoutes.venueId := None;
         GroupRoutes.members :=
           [ {| GroupRoutes.member_id := Some "u2";
                GroupRoutes.member_name := Some "Bob" |} ];
         GroupRoutes.createdAt := "2024-01-01T00:00:00.000Z" |} in
    GroupRoutes.createGroup GroupRoutes.retryOracle 2
      (Some "Picnic") (Some "u2") (Some "Bob") None GroupRoutes.demoStore
    = Some ({| GroupRoutes.status := 201; GroupRoutes.body := GroupRoutes.JsonGroup g |},
            {| GroupRoutes.groups := [GroupRoutes.demoGroup; g];
               GroupRoutes.uuids := 2;
               GroupRoutes.dates := 2;
               GroupRoutes.draws := 18 |})
    ∧ String.length (GroupRoutes.code g) = 6%nat
    ∧ Forall (λ g', GroupRoutes.code g' ≠ GroupRoutes.code g)
        (GroupRoutes.groups GroupRoutes.demoStore).
Proof.
  assert (Hfree : ¬ GroupRoutes.codeInUse
                      (GroupRoutes.attempt GroupRoutes.retryOracle GroupRoutes.demoStore 1)
                      GroupRoutes.demoStore).
  { intros (g & Hin%list_elem_of_singleton & Hcode). subst g. discriminate Hcode. }
  assert (Hused : ∀ j', (j' < 1)%nat →
            GroupRoutes.codeInUse
              (GroupRoutes.attempt GroupRoutes.retryOracle GroupRoutes.demoStore j')
              GroupRoutes.demoStore).
  { intros j' Hj. assert (j' = 0%nat) as -> by lia.
    exists GroupRoutes.demoGroup. split; [apply list_elem_of_singleton|]; reflexivity. }
  split.
  { repeat split; try assumption; try reflexivity; [apply retryOracle_in_range | lia]. }
  intros g.
  destruct (createGroup_creates GroupRoutes.retryOracle 2
              (Some "Picnic") (Some "u2") (Some "Bob") None GroupRoutes.demoStore 1
              retryOracle_in_range eq_refl eq_refl Hfree Hused)
    as (Hrun & Hlen & _ & Hold); [lia|].
  split; [|split].
  - etrans; [exact Hrun|]. vm_compute. reflexivity.
  - etrans; [|exact Hlen]. vm_compute. reflexivity.
  - eapply Forall_impl; [exact Hold|]. intros g' Hg'. exact Hg'.
Defined.

Lemma created_group_is_found_witness :
  (GroupRoutes.createGroup GroupRoutes.demoOracle 1
     (Some "Trip") (Some "u1") (Some "Alice") None GroupRoutes.start
   = Some ({| GroupRoutes.status := 201;
              GroupRoutes.body := GroupRoutes.JsonGroup GroupRoutes.demoGroup |},
           GroupRoutes.demoStore)
   ∧ GroupRoutes.status
       {| GroupRoutes.status := 201;
          GroupRoutes.body := GroupRoutes.JsonGroup GroupRoutes.demoGroup |} = 201%nat)
  ∧ ∃ g,
      GroupRoutes.JsonGroup GroupRoutes.demoGroup = GroupRoutes.JsonGroup g
      ∧ GroupRoutes.groups GroupRoutes.demoStore
        = GroupRoutes.groups GroupRoutes.start ++ [g]
      ∧ GroupRoutes.getGroup (GroupRoutes.code g) GroupRoutes.demoStore
        = (GroupRoutes.ok (GroupRoutes.JsonGroup g), GroupRoutes.demoStore).
Proof.
  assert (Hrun : GroupRoutes.createGroup GroupRoutes.demoOracle 1
                   (Some "Trip") (Some "u1") (Some "Alice") None GroupRoutes.start
                 = Some ({| GroupRoutes.status := 201;
                            GroupRoutes.body := GroupRoutes.JsonGroup GroupRoutes.demoGroup |},
                         GroupRoutes.demoStore)) by (vm_compute; reflexivity).
  split; [split; [exact Hrun | reflexivity]|].
  destruct (created_group_is_found GroupRoutes.demoOracle 1
              (Some "Trip") (Some "u1") (Some "Alice") None GroupRoutes.start
              _ _ Hrun eq_refl)
    as (g & Hbody & Hgroups & _ & Hget & _).
  exists g. split; [exact Hbody|]. split; [exact Hgroups|]. exact Hget.
Defined.

Lemma joinGroup_adds_member_witness :
  (GroupRoutes.joinGroup (Some "ABCDEF") (Some "u2") (Some "Bob") GroupRoutes.demoStore
   = (GroupRoutes.ok (GroupRoutes.JsonGroup
                        (GroupRoutes.push_member
                           {| GroupRoutes.member_id := Some "u2";
                              GroupRoutes.member_name := Some "Bob" |}
                           GroupRoutes.demoGroup)),
      GroupRoutes.with_groups
        [GroupRoutes.push_member
           {| GroupRoutes.member_id := Some "u2";
              GroupRoutes.member_name := Some "Bob" |}
           GroupRoutes.demoGroup]
        GroupRoutes.demoStore))
  ∧ ∃ g',
      GroupRoutes.members g'
      = [ {| GroupRoutes.member_id := Some "u1"; GroupRoutes.member_name := Some "Alice" |};
          {| GroupRoutes.member_id := Some "u2"; GroupRoutes.member_name := Some "Bob" |} ]
      ∧ GroupRoutes.code g' = "ABCDEF"
      ∧ Some "u2" ∈ GroupRoutes.member_id <$> GroupRoutes.members g'.
Proof.
  assert (Hrun :
    GroupRoutes.joinGroup (Some "ABCDEF") (Some "u2") (Some "Bob") GroupRoutes.demoStore
    = (GroupRoutes.ok (GroupRoutes.JsonGroup
                         (GroupRoutes.push_member
                            {| GroupRoutes.member_id := Some "u2";
                               GroupRoutes.member_name := Some "Bob" |}
                            GroupRoutes.demoGroup)),
       GroupRoutes.with_groups
         [GroupRoutes.push_member
            {| GroupRoutes.member_id := Some "u2";
               GroupRoutes.member_name := Some "Bob" |}
            GroupRoutes.demoGroup]
         GroupRoutes.demoStore)) by (vm_compute; reflexivity).
  split; [exact Hrun|].
  destruct (joinGroup_adds_member _ _ _ _ _ _ Hrun eq_refl)
    as (i & g & g' & Hbody & _ & _ & _ & _ & _ & Hcode & _ & Hin & _).
  exists g'. injection Hbody as <-.
  split; [reflexivity|]. split; [reflexivity|]. exact Hin.
Defined.

Lemma deleteGroup_only_by_creator_witness :
  GroupRoutes.deleteGroup "uuid-0" (Some "u1") GroupRoutes.demoStore
  = (GroupRoutes.ok (GroupRoutes.JsonMessage "Group deleted successfully"),
     GroupRoutes.with_groups [] GroupRoutes.demoStore)
  ∧ (∃ g, GroupRoutes.findById "uuid-0" (GroupRoutes.groups GroupRoutes.demoStore)
          = Some g
          ∧ GroupRoutes.creatorId g = Some "u1")
  ∧ GroupRoutes.deleteGroup "uuid-0" (Some "u1")
      (GroupRoutes.with_groups [] GroupRoutes.demoStore)
    = (GroupRoutes.failure 404 "Group not found",
       GroupRoutes.with_groups [] GroupRoutes.demoStore).
Proof.
  assert (Hrun :
    GroupRoutes.deleteGroup "uuid-0" (Some "u1") GroupRoutes.demoStore
    = (GroupRoutes.ok (GroupRoutes.JsonMessage "Group deleted successfully"),
       GroupRoutes.with_groups [] GroupRoutes.demoStore)) by (vm_compute; reflexivity).
  split; [exact Hrun|].
  destruct (deleteGroup_only_by_creator _ _ _ _ _ Hrun) as (Hok & _ & _).
  destruct (Hok eq_refl) as (Hcreator & _ & _ & Hagain).
  split; [exact Hcreator | exact Hagain].
Defined.

Lemma failed_requests_change_nothing_witness :
  GroupRoutes.serve GroupRoutes.demoOracle
    (GroupRoutes.DeleteGroup "uuid-0" (Some "u2")) GroupRoutes.demoStore
  = Some (GroupRoutes.failure 403 "Not authorized to delete this group",
          GroupRoutes.demoStore)
  ∧ ((GroupRoutes.status
        (GroupRoutes.failure 403 "Not authorized to delete this group") ≠ 200%nat →
      GroupRoutes.status
        (GroupRoutes.failure 403 "Not authorized to delete this group") ≠ 201%nat →
      GroupRoutes.demoStore = GroupRoutes.demoStore)
     ∧ True).
Proof.
  assert (Hrun :
    GroupRoutes.serve GroupRoutes.demoOracle
      (GroupRoutes.DeleteGroup "uuid-0" (Some "u2")) GroupRoutes.demoStore
    = Some (GroupRoutes.failure 403 "Not authorized to delete this group",
            GroupRoutes.demoStore)) by (vm_compute; reflexivity).
  split; [exact Hrun|].
  exact (failed_requests_change_nothing _ _ _ _ _ Hrun).
Defined.

Lemma demoStore_served : GroupRoutes.served GroupRoutes.demoOracle GroupRoutes.demoStore.
Proof.
  apply (GroupRoutes.served_request GroupRoutes.demoOracle GroupRoutes.start
           (GroupRoutes.PostGroup 1 (Some "Trip") (Some "u1") (Some "Alice") None)
           {| GroupRoutes.status := 201;
              GroupRoutes.body := GroupRoutes.JsonGroup GroupRoutes.demoGroup |}).
  - apply GroupRoutes.served_start.
  - vm_compute. reflexivity.
Qed.

Lemma served_stores_are_consistent_witness :
  GroupRoutes.served GroupRoutes.demoOracle GroupRoutes.demoStore
  ∧ GroupRoutes.consistent GroupRoutes.demoStore.
Proof.
  split; [apply demoStore_served|].
  apply (served_stores_are_consistent GroupRoutes.demoOracle).
  apply demoStore_served.
Defined.
